(** * docvalid: extraction, parsing and cross-document validation

    A shallow embedding of [src/tasks.py] (the metadata parser, the
    extraction pipeline task and the validation engine), of the
    required-fields table, the approval view and the statistics view of
    [src/documents/views.py], of the role tests of [src/users/models.py]
    and of the text snippet of [src/documents/models.py], with the
    properties of the specification and further properties of the code
    stated and proved over it.

    Conventions of the embedding.
    - A Python [str] is a [string]; its characters are code points, and the
      embedding covers the code points U+0000..U+00FF, one [ascii] each.
      The character classes of [re] ([\s], [\w], [\d]) and of [str.strip]
      are given their exact extent on that range.
    - A JSON mapping ([TradeDocument.metadata], the parsed fields) is a
      [gmap] with [string] keys.
    - Database rows are records, tables are lists of rows in the order the
      store iterates them.
    - A call that may raise returns an [outcome]. *)

From Stdlib Require Import ZArith NArith Ascii String List Bool Lia DecimalString.
From stdpp Require Import gmap strings list.

Set Default Proof Using "Type".

(** ** Python primitives *)

Module Py.

Definition chars (s : string) : list ascii := String.list_ascii_of_string s.
Definition str_of (l : list ascii) : string := String.string_of_list_ascii l.

Definition code (c : ascii) : N := N_of_ascii c.

Definition in_range (lo hi : N) (c : ascii) : bool :=
  ((lo <=? code c) && (code c <=? hi))%N.

(** [[0-9]], which is also [\d] below U+0100. *)
Definition is_digit (c : ascii) : bool := in_range 48 57 c.
Definition is_upper (c : ascii) : bool := in_range 65 90 c.
Definition is_lower (c : ascii) : bool := in_range 97 122 c.

(** [str.isspace], which is also [\s]: TAB..CR, FS..US, space, NEL, NBSP. *)
Definition is_space (c : ascii) : bool :=
  in_range 9 13 c || in_range 28 32 c || (code c =? 133)%N || (code c =? 160)%N.

(** [\w]: alphanumeric or underscore.  Above U+007F the alphanumerics are
    the ordinal indicators, the superscript digits, micro, the vulgar
    fractions and the accented letters. *)
Definition is_word (c : ascii) : bool :=
  is_digit c || is_upper c || is_lower c || (code c =? 95)%N
  || (code c =? 170)%N || in_range 178 179 c || (code c =? 181)%N
  || in_range 185 186 c || in_range 188 190 c
  || in_range 192 214 c || in_range 216 246 c || in_range 248 255 c.

(** Case folding of the letters A..Z, for [re.IGNORECASE] on patterns
    whose literals are ASCII letters. *)
Definition lower (c : ascii) : ascii :=
  if is_upper c then ascii_of_N (code c + 32) else c.

Definition eq_ci (a b : ascii) : bool := Ascii.eqb (lower a) (lower b).

Fixpoint lstrip (l : list ascii) : list ascii :=
  match l with
  | c :: l' => if is_space c then lstrip l' else l
  | [] => []
  end.

Definition rstrip (l : list ascii) : list ascii := rev (lstrip (rev l)).

(** [s.strip()] *)
Definition strip_chars (l : list ascii) : list ascii := lstrip (rstrip l).
Definition strip (s : string) : string := str_of (strip_chars (chars s)).

(** [len(s)] *)
Definition len (s : string) : nat := String.length s.

(** [sep.join(parts)] *)
Fixpoint join (sep : string) (parts : list string) : string :=
  match parts with
  | [] => ""
  | [p] => p
  | p :: ps => p +:+ sep +:+ join sep ps
  end.

(** JSON scalars as [json.loads] yields them.  Floats, arrays and nested
    objects are outside the embedding. *)
Inductive value : Type :=
| VNone
| VBool (b : bool)
| VInt (z : Z)
| VStr (s : string).

(** [bool(v)] *)
Definition truthy (v : value) : bool :=
  match v with
  | VNone => false
  | VBool b => b
  | VInt z => negb (z =? 0)%Z
  | VStr s => negb (String.eqb s "")
  end.

(** [str(v)] *)
Definition str (v : value) : string :=
  match v with
  | VNone => "None"
  | VBool true => "True"
  | VBool false => "False"
  | VInt z => NilZero.string_of_int (Z.to_int z)
  | VStr s => s
  end.

(** [repr(s)] of a string without quotes, backslashes or control
    characters, which is what the field names of the tables are. *)
Definition repr_str (s : string) : string := "'" +:+ s +:+ "'".

(** [repr(l)] of a list of such strings. *)
Definition repr_list (l : list string) : string :=
  "[" +:+ join ", " (map repr_str l) +:+ "]".

End Py.

(** ** Regular expressions of [re], with its backtracking order *)

Module Re.
Import Py.

(** The patterns of [tasks.py] quantify single-character atoms only, so a
    quantifier takes a character class. *)
Inductive regex : Type :=
| Eps
| Cls (p : ascii → bool)
| Seq (r1 r2 : regex)
| Alt (r1 r2 : regex)
| Rep (p : ascii → bool) (lo : nat) (hi : option nat) (greedy : bool)
| Grp (n : nat) (r : regex)
| Bnd.

(** A position in the subject: the characters before it, last one first,
    the characters from it on, and the groups closed so far. *)
Record mstate : Type := MState {
  seen : list ascii;
  rest : list ascii;
  caps : list (nat * list ascii)
}.

Definition advance (k : nat) (st : mstate) : mstate :=
  MState (rev (take k (rest st)) ++ seen st) (drop k (rest st)) (caps st).

(** Length of the longest prefix of [l] inside the class. *)
Fixpoint run (p : ascii → bool) (l : list ascii) : nat :=
  match l with
  | c :: l' => if p c then S (run p l') else 0
  | [] => 0
  end.

(** Repetition counts in the order the matcher tries them: a greedy
    quantifier takes as many as it can and gives back one at a time, a lazy
    one takes the minimum and extends one at a time. *)
Definition counts (lo : nat) (hi : option nat) (greedy : bool) (avail : nat)
  : list nat :=
  let top := match hi with Some h => h `min` avail | None => avail end in
  let ks := seq lo (S top - lo) in
  if greedy then rev ks else ks.

Definition is_word_opt (o : option ascii) : bool :=
  match o with Some c => is_word c | None => false end.

(** [\b] *)
Definition at_boundary (st : mstate) : bool :=
  xorb (is_word_opt (head (seen st))) (is_word_opt (head (rest st))).

Definition close_group (n : nat) (st0 st : mstate) : mstate :=
  MState (seen st) (rest st)
         ((n, take (length (rest st0) - length (rest st)) (rest st0)) :: caps st).

(** All the ways [r] matches at [st], in the order backtracking finds them. *)
Fixpoint matches (r : regex) (st : mstate) : list mstate :=
  match r with
  | Eps => [st]
  | Cls p =>
      match rest st with
      | c :: _ => if p c then [advance 1 st] else []
      | [] => []
      end
  | Seq r1 r2 => flat_map (matches r2) (matches r1 st)
  | Alt r1 r2 => matches r1 st ++ matches r2 st
  | Rep p lo hi g =>
      map (λ k, advance k st) (counts lo hi g (run p (rest st)))
  | Grp n r1 => map (close_group n st) (matches r1 st)
  | Bnd => if at_boundary st then [st] else []
  end.

(** A match object. *)
Record rmatch : Type := RMatch {
  m_start : mstate;
  m_end : mstate
}.

(** [m.group(0)] *)
Definition group0 (m : rmatch) : list ascii :=
  take (length (rest (m_start m)) - length (rest (m_end m))) (rest (m_start m)).

Fixpoint assoc (n : nat) (l : list (nat * list ascii)) : option (list ascii) :=
  match l with
  | (k, v) :: l' => if Nat.eqb k n then Some v else assoc n l'
  | [] => None
  end.

(** [m.group(n)] for a group that took part in the match. *)
Definition group (n : nat) (m : rmatch) : list ascii :=
  default [] (assoc n (caps (m_end m))).

Definition match_at (r : regex) (sn rs : list ascii) : option rmatch :=
  let st := MState sn rs [] in
  match matches r st with
  | st' :: _ => Some (RMatch st st')
  | [] => None
  end.

(** The scan of [re.search]: leftmost start position first. *)
Fixpoint search_from (r : regex) (sn rs : list ascii) : option rmatch :=
  match match_at r sn rs with
  | Some m => Some m
  | None =>
      match rs with
      | c :: rs' => search_from r (c :: sn) rs'
      | [] => None
      end
  end.

(** [re.search(r, s)] *)
Definition search (r : regex) (s : list ascii) : option rmatch :=
  search_from r [] s.

(** The successive matches of [re.finditer], for a pattern that matches no
    empty string (an empty match is stepped over). *)
Fixpoint finditer_go (fuel : nat) (r : regex) (sn rs : list ascii)
  : list rmatch :=
  match fuel with
  | 0 => []
  | S fuel' =>
      match search_from r sn rs with
      | None => []
      | Some m =>
          let e := m_end m in
          match length (group0 m), rest e with
          | 0, c :: rs' => m :: finditer_go fuel' r (c :: seen e) rs'
          | 0, [] => [m]
          | _, _ => m :: finditer_go fuel' r (seen e) (rest e)
          end
      end
  end.

(** [re.findall(r, s)] for a pattern with one group. *)
Definition findall (r : regex) (s : list ascii) : list (list ascii) :=
  map (group 1) (finditer_go (S (length s)) r [] s).

(** [re.sub(r, repl, s)] for a pattern that matches no empty string. *)
Fixpoint sub_go (fuel : nat) (r : regex) (repl : list ascii)
         (sn rs : list ascii) : list ascii :=
  match fuel with
  | 0 => rs
  | S fuel' =>
      match match_at r sn rs with
      | Some m =>
          match length (group0 m) with
          | 0 =>
              match rs with
              | c :: rs' => c :: sub_go fuel' r repl (c :: sn) rs'
              | [] => []
              end
          | _ => repl ++ sub_go fuel' r repl (seen (m_end m)) (rest (m_end m))
          end
      | None =>
          match rs with
          | c :: rs' => c :: sub_go fuel' r repl (c :: sn) rs'
          | [] => []
          end
      end
  end.

Definition sub (r : regex) (repl s : list ascii) : list ascii :=
  sub_go (S (length s)) r repl [] s.

(** *** Pattern syntax *)

Definition chr (c : ascii) : ascii → bool := Ascii.eqb c.
Definition chr_ci (c : ascii) : ascii → bool := eq_ci c.
Definition one_of (l : list ascii) (c : ascii) : bool := existsb (Ascii.eqb c) l.
Definition union (p q : ascii → bool) (c : ascii) : bool := p c || q c.
Definition compl (p : ascii → bool) (c : ascii) : bool := negb (p c).

(** [.] without [re.DOTALL] *)
Definition dot (c : ascii) : bool := negb (Ascii.eqb c "010").

Fixpoint seqs (rs : list regex) : regex :=
  match rs with
  | [] => Eps
  | [r] => r
  | r :: rs' => Seq r (seqs rs')
  end.

(** A literal word, and the same under [re.IGNORECASE]. *)
Definition lit (s : string) : regex := seqs (map (λ c, Cls (chr c)) (chars s)).
Definition lit_ci (s : string) : regex := seqs (map (λ c, Cls (chr_ci c)) (chars s)).

Definition star (p : ascii → bool) : regex := Rep p 0 None true.
Definition plus (p : ascii → bool) : regex := Rep p 1 None true.
Definition opt (p : ascii → bool) : regex := Rep p 0 (Some 1) true.
Definition times (p : ascii → bool) (n : nat) : regex := Rep p n (Some n) true.

End Re.

(** ** The metadata parser ([parse_text_for_metadata] of [tasks.py]) *)

Module Parser.
Import Py Re.

Fixpoint alts (rs : list regex) : regex :=
  match rs with
  | [] => Eps
  | [r] => r
  | r :: rs' => Alt r (alts rs')
  end.

(** [[:\s]] *)
Definition colon_space : ascii → bool := union (chr ":") is_space.

(** [\s+] *)
Definition re_spaces : regex := plus is_space.

(** [\bHS[:\s]*([0-9]{4,10})\b] with [re.IGNORECASE] *)
Definition re_hs : regex :=
  seqs [Bnd; lit_ci "HS"; star colon_space;
        Grp 1 (Rep is_digit 4 (Some 10) true); Bnd].

(** [\b([0-9]{6})\b] *)
Definition re_six : regex := seqs [Bnd; Grp 1 (times is_digit 6); Bnd].

(** [\b(AED|USD|EUR|GBP|JPY|CHF|SAR|INR)\b] *)
Definition re_currency : regex :=
  seqs [Bnd;
        Grp 1 (alts (map lit ["AED"; "USD"; "EUR"; "GBP"; "JPY"; "CHF"; "SAR"; "INR"]));
        Bnd].

(** The pound sign, U+00A3. *)
Definition pound : ascii := ascii_of_N 163.

(** [([£€$]?\s?[\d\.,]{3,}\b)]; the euro sign, U+20AC, is no code point of
    the embedding. *)
Definition re_value : regex :=
  Grp 1 (seqs [opt (one_of [pound; "$"%char]); opt is_space;
               Rep (union is_digit (one_of ["."%char; ","%char])) 3 None true;
               Bnd]).

(** [[^\d\.]] *)
Definition re_not_numeric : regex := Cls (compl (union is_digit (chr "."))).

(** [\b([A-Z]{4}\d{7})\b] *)
Definition re_container : regex :=
  seqs [Bnd; Grp 1 (Seq (times is_upper 4) (times is_digit 7)); Bnd].

(** [\b(AWB[:\s-]*\w+|\d{3}\s?\d{8}|\bAWB[\w-]{3,}\b)\b] with [re.IGNORECASE] *)
Definition re_awb : regex :=
  seqs [Bnd;
        Grp 1 (alts [seqs [lit_ci "AWB";
                           star (union (one_of [":"%char; "-"%char]) is_space);
                           plus is_word];
                     seqs [times is_digit 3; opt is_space; times is_digit 8];
                     seqs [Bnd; lit_ci "AWB";
                           Rep (union is_word (chr "-")) 3 None true; Bnd]]);
        Bnd].

(** [LABEL[:\s]*(.{1,80}?)\s{2,}] with [re.IGNORECASE] *)
Definition re_label_columns (label : string) : regex :=
  seqs [lit_ci label; star colon_space;
        Grp 1 (Rep dot 1 (Some 80) false);
        Rep is_space 2 None true].

(** [LABEL[:\s]*(\w[\w\s\,\-\.]{1,80})] with [re.IGNORECASE] *)
Definition re_label_words (label : string) : regex :=
  seqs [lit_ci label; star colon_space;
        Grp 1 (Seq (Cls is_word)
                   (Rep (union is_word
                           (union is_space (one_of [","%char; "-"%char; "."%char])))
                        1 (Some 80) true))].

Definition parse_hs_code (s_norm : list ascii) (res : gmap string string)
  : gmap string string :=
  let hs_candidates := findall re_hs s_norm in
  match hs_candidates with
  | c :: _ => <["hs_code" := str_of c]> res
  | [] =>
      let fallback := findall re_six s_norm in
      match fallback with
      | c :: _ => <["hs_code" := str_of c]> res
      | [] => res
      end
  end.

Definition parse_currency (s_norm : list ascii) (res : gmap string string)
  : gmap string string :=
  match search re_currency s_norm with
  | Some cur_match => <["currency" := str_of (group 1 cur_match)]> res
  | None => res
  end.

Definition parse_value (s_norm : list ascii) (res : gmap string string)
  : gmap string string :=
  match search re_value s_norm with
  | Some val_match =>
      let v := group 1 val_match in
      let v_clean := sub re_not_numeric [] v in
      match v_clean with
      | _ :: _ => <["value" := str_of v_clean]> res
      | [] => res
      end
  | None => res
  end.

Definition parse_container (s_norm : list ascii) (res : gmap string string)
  : gmap string string :=
  match search re_container s_norm with
  | Some cont => <["container_number" := str_of (group 1 cont)]> res
  | None => res
  end.

Definition parse_awb (s_norm : list ascii) (res : gmap string string)
  : gmap string string :=
  match search re_awb s_norm with
  | Some awb => <["bol_awb_number" := str_of (strip_chars (group0 awb))]> res
  | None => res
  end.

(** The consignee and shipper heuristics, on the text as it came. *)
Definition parse_party (label key : string) (s : list ascii)
           (res : gmap string string) : gmap string string :=
  match search (re_label_columns label) s with
  | Some m => <[key := str_of (strip_chars (group 1 m))]> res
  | None =>
      match search (re_label_words label) s with
      | Some m => <[key := str_of (strip_chars (group 1 m))]> res
      | None => res
      end
  end.

Definition parse_text_for_metadata (text : string) : gmap string string :=
  match text with
  | EmptyString => ∅
  | _ =>
      let s := chars text in
      let s_norm := sub re_spaces [" "%char] s in
      let res := parse_hs_code s_norm ∅ in
      let res := parse_currency s_norm res in
      let res := parse_value s_norm res in
      let res := parse_container s_norm res in
      let res := parse_awb s_norm res in
      let res := parse_party "Consignee" "consignee" s res in
      let res := parse_party "Shipper" "shipper" s res in
      res
  end.

End Parser.

(** ** The rows of [documents/models.py] *)

Module Models.
Import Py.

Inductive found_entry : Type :=
| Matched (doc_id : Z)      (* [{'doc_id': id, 'matched': True}] *)
| Unmatched.                (* [{'matched': False}] *)

(** The [results] dictionary of the validation engine; a key that a run
    may leave out is an [option]. *)
Record results : Type := Results {
  missing_files : list string;
  ready_for_approval : bool;
  reason : option string;
  message : string;
  match_keys : option (list (string * string));
  found_types : option (gmap string found_entry);
  missing_types : option (list string)
}.

Record TradeDocument : Type := {
  id : Z;
  doc_type : string;
  uploader : Z;
  metadata : gmap string value;
  last_validation : option results
}.

Inductive extraction_status : Type :=
| STATUS_PENDING
| STATUS_RUNNING
| STATUS_DONE
| STATUS_FAILED.

Record DocumentFile : Type := {
  pk : Z;
  document : Z;
  field_name : string;
  extraction_status_of : extraction_status;
  extracted_text : option string
}.

(** [ValidationResult(document, result, run_by=None)] *)
Record ValidationResult : Type := {
  vr_document : Z;
  vr_result : results
}.

(** [AuditLog(user=None, action, details)], one constructor per action. *)
Inductive AuditLog : Type :=
| metadata_auto_extracted (doc_id : Z) (parsed : gmap string string)
| extraction_failed (document_file_id : Z) (error trace : string)
| run_validation_auto (doc_id : Z) (res : results).

Record store : Type := {
  documents : list TradeDocument;
  files : list DocumentFile;
  validation_results : list ValidationResult;
  audit_log : list AuditLog
}.

End Models.

(** ** [documents/views.py]: the table consulted at upload *)

Module Views.

Definition REQUIRED_FIELDS : gmap string (list string) :=
  list_to_map
    [("invoice", ["hs_code"; "goods_description"; "unit_of_measure"; "quantity";
                  "weight"; "value"; "currency"]);
     ("packing_list", ["hs_code"; "goods_description"; "unit_of_measure";
                       "quantity"; "gross_weight"; "net_weight";
                       "number_of_packages"]);
     ("bol_awb", ["shipper"; "consignee"; "hs_code"; "weight";
                  "number_of_packages"; "bol_awb_number"]);
     ("delivery_order", ["consignee"; "container_number"; "port_of_discharge";
                         "currency"; "value"; "hs_code"])].

(** [DocumentUploadView.post]: the required fields with no part of that
    name in [request.FILES]. *)
Definition missing_files (doc_type : string) (request_FILES : list string)
  : list string :=
  let required := default [] (REQUIRED_FIELDS !! doc_type) in
  filter (λ f, f ∉ request_FILES) required.

(** The fields for which the upload creates a [DocumentFile]. *)
Definition created_files (doc_type : string) (request_FILES : list string)
  : list string :=
  let required := default [] (REQUIRED_FIELDS !! doc_type) in
  filter (λ f, f ∈ request_FILES) required.

End Views.

(** ** [tasks.py]: extraction pipeline and validation engine *)

Module Tasks.
Import Py Re Parser Models.

Definition REQUIRED_FIELDS : gmap string (list string) :=
  list_to_map
    [("invoice", ["hs_code"; "goods_description"; "value"; "currency"]);
     ("packing_list", ["packing_list_file"]);
     ("bol_awb", ["bol_awb_file"]);
     ("delivery_order", ["delivery_order_file"])].

(** *** Merge of the parsed fields into the metadata *)

(** One turn of [for k, v in parsed.items()]: the pair is the dictionary
    [meta] and the flag [changed]. *)
Definition merge_step (k v : string) (acc : gmap string value * bool)
  : gmap string value * bool :=
  match acc.1 !! k with
  | None => (<[k := VStr v]> acc.1, true)
  | Some old =>
      if negb (truthy old) && truthy (VStr v)
      then (<[k := VStr v]> acc.1, true)
      else acc
  end.

Definition merge_parsed (meta : gmap string value) (parsed : gmap string string)
  : gmap string value * bool :=
  map_fold merge_step (meta, false) parsed.

(** *** Cross-document matching *)

Definition possible_keys : list string :=
  ["hs_code"; "consignee"; "container_number"; "value"; "currency";
   "bol_awb_number"; "shipper"].

Definition required_types : list string :=
  ["invoice"; "packing_list"; "bol_awb"; "delivery_order"].

(** [str(v).strip()] *)
Definition rendering (v : value) : string := strip (str v).

(** The dictionary comprehension of [match_keys], in insertion order. *)
Definition build_match_keys (doc_meta : gmap string value)
  : list (string * string) :=
  omap (λ k, match doc_meta !! k with
             | Some v =>
                 if String.eqb (rendering v) "" then None
                 else Some (k, rendering v)
             | None => None
             end) possible_keys.

Definition all_keys_present (mk : list (string * string))
           (cand_meta : gmap string value) : bool :=
  forallb (λ kv, match cand_meta !! kv.1 with
                 | Some cv => negb (String.eqb (rendering cv) "")
                 | None => false
                 end) mk.

Definition mismatch (mk : list (string * string))
           (cand_meta : gmap string value) : bool :=
  existsb (λ kv, negb (String.eqb
                         (rendering (default (VStr "") (cand_meta !! kv.1)))
                         kv.2)) mk.

Definition candidate_matches (mk : list (string * string))
           (cand : TradeDocument) : bool :=
  let cand_meta := metadata cand in
  if negb (all_keys_present mk cand_meta) then false
  else negb (mismatch mk cand_meta).

(** [TradeDocument.objects.filter(uploader=…, doc_type=dtype).exclude(pk=doc.pk)] *)
Definition candidates (st : store) (doc : TradeDocument) (dtype : string)
  : list TradeDocument :=
  filter (λ c, uploader c = uploader doc ∧ doc_type c = dtype ∧ id c ≠ id doc)
         (documents st).

(** One turn of [for dtype in required_types]: the pair is [found] and
    [missing_types]. *)
Definition match_type (st : store) (doc : TradeDocument)
           (mk : list (string * string))
           (acc : gmap string found_entry * list string) (dtype : string)
  : gmap string found_entry * list string :=
  if decide (doc_type doc = dtype)
  then (<[dtype := Matched (id doc)]> acc.1, acc.2)
  else
    match List.find (candidate_matches mk) (candidates st doc dtype) with
    | Some matched_candidate =>
        (<[dtype := Matched (id matched_candidate)]> acc.1, acc.2)
    | None => (<[dtype := Unmatched]> acc.1, acc.2 ++ [dtype])
    end.

Definition match_types (st : store) (doc : TradeDocument)
           (mk : list (string * string))
  : gmap string found_entry * list string :=
  foldl (match_type st doc mk) (∅, []) required_types.

Definition is_matched (e : found_entry) : bool :=
  match e with Matched _ => true | Unmatched => false end.

(** *** The validation verdict *)

Definition existing_files (st : store) (doc : TradeDocument) : gset string :=
  list_to_set (field_name <$> filter (λ f, document f = id doc) (files st)).

Definition compute_missing_files (st : store) (doc : TradeDocument)
  : list string :=
  let required := default [] (REQUIRED_FIELDS !! doc_type doc) in
  filter (λ f, f ∉ existing_files st doc) required.

Definition compose_message (ready : bool) (missing_files missing_types : list string)
  : string :=
  if ready
  then "All related documents found and consistent. Ready for approval."
  else
    let msgs := [] in
    let msgs :=
      match missing_files with
      | _ :: _ => msgs ++ ["Missing files for this document: "
                             +:+ repr_list missing_files]
      | [] => msgs
      end in
    let msgs :=
      match missing_types with
      | _ :: _ => msgs ++ ["Missing or unmatched document types: "
                             +:+ join ", " missing_types]
      | [] => msgs
      end in
    join " | " msgs.

(** The [results] that [run_validation_for_document] computes for [doc]. *)
Definition validation_of (st : store) (doc : TradeDocument) : results :=
  let doc_meta := metadata doc in
  let missing_files := compute_missing_files st doc in
  if decide (doc_meta = ∅)
  then Results missing_files false (Some "metadata_missing")
               "Document has no metadata." None None None
  else
    let mk := build_match_keys doc_meta in
    let '(found, missing_types) := match_types st doc mk in
    let ready :=
      Nat.eqb (length missing_files) 0 && Nat.eqb (length missing_types) 0 in
    Results missing_files ready None
            (compose_message ready missing_files missing_types)
            (Some mk)
            (Some (filter (λ kv, is_matched kv.2) found))
            (Some missing_types).

(** *** Calls that may raise, and the state they act on *)

Inductive outcome (A : Type) : Type :=
| Returned (a : A)
| Raised (exc : string).
Arguments Returned {A} a.
Arguments Raised {A} exc.

(** The places where the task touches the database, the file storage or the
    temporary directory. *)
Inductive site : Type :=
| GetFile | SaveRunning | FilePath | TempDir | SaveExtracted | SaveMetadata
| AuditExtracted | GetDocument | CreateValidation | SaveValidation
| AuditValidation | SaveFailed | AuditFailed.

(** What one run meets outside the program: which calls raise and with
    which error text, what the PDF and recognition engines give for the
    file, and the rendering of a traceback. *)
Record env : Type := {
  fails : site → option string;
  pdf_pages : outcome (list string);
  ocr_pages : list string;
  ocr_pages_raise : bool;
  ocr_image : outcome string;
  format_exc : string → string
}.

(** Observations of a run, kept to state its temporal properties. *)
Inductive event : Type :=
| status_saved (file_id : Z) (s : extraction_status)
| ocr_called
| audit_attempted (entry : AuditLog).

Record world : Type := World {
  db : store;
  events : list event
}.

Definition task (A : Type) : Type := world → outcome A * world.

Definition ret {A} (a : A) : task A := λ w, (Returned a, w).
Definition raise {A} (exc : string) : task A := λ w, (Raised exc, w).
Definition bind {A B} (k : A → task B) (c : task A) : task B :=
  λ w, match c w with
       | (Returned a, w') => k a w'
       | (Raised exc, w') => (Raised exc, w')
       end.

#[global] Instance task_ret : MRet task := @ret.
#[global] Instance task_bind : MBind task := @bind.

(** [try: c  except Exception as exc: h exc] *)
Definition try_except {A} (c : task A) (h : string → task A) : task A :=
  λ w, match c w with
       | (Raised exc, w') => h exc w'
       | r => r
       end.

(** [try: c  except Exception: pass] *)
Definition try_pass (c : task unit) : task unit :=
  try_except c (λ _, ret tt).

Definition log (ev : event) : task unit :=
  λ w, (Returned tt, World (db w) (events w ++ [ev])).

Definition read_db : task store := λ w, (Returned (db w), w).

Section Run.
Variable e : env.

(** A call at [s] that changes the database by [upd] unless it raises. *)
Definition attempt (s : site) (upd : store → store) : task unit :=
  λ w, match fails e s with
       | Some exc => (Raised exc, w)
       | None => (Returned tt, World (upd (db w)) (events w))
       end.

Definition set_file (file_id : Z) (f : DocumentFile → DocumentFile)
           (st : store) : store :=
  {| documents := documents st;
     files := map (λ df, if decide (pk df = file_id) then f df else df)
                  (files st);
     validation_results := validation_results st;
     audit_log := audit_log st |}.

Definition set_document (doc_id : Z) (f : TradeDocument → TradeDocument)
           (st : store) : store :=
  {| documents := map (λ d, if decide (id d = doc_id) then f d else d)
                      (documents st);
     files := files st;
     validation_results := validation_results st;
     audit_log := audit_log st |}.

Definition with_status (s : extraction_status) (df : DocumentFile)
  : DocumentFile :=
  {| pk := pk df; document := document df; field_name := field_name df;
     extraction_status_of := s; extracted_text := extracted_text df |}.

Definition with_text (t : string) (df : DocumentFile) : DocumentFile :=
  {| pk := pk df; document := document df; field_name := field_name df;
     extraction_status_of := extraction_status_of df;
     extracted_text := Some t |}.

Definition with_metadata (m : gmap string value) (d : TradeDocument)
  : TradeDocument :=
  {| id := id d; doc_type := doc_type d; uploader := uploader d;
     metadata := m; last_validation := last_validation d |}.

Definition with_last_validation (r : results) (d : TradeDocument)
  : TradeDocument :=
  {| id := id d; doc_type := doc_type d; uploader := uploader d;
     metadata := metadata d; last_validation := Some r |}.

(** [df.save(update_fields=['extraction_status'])] *)
Definition save_status (s : site) (file_id : Z) (v : extraction_status)
  : task unit :=
  attempt s (set_file file_id (with_status v)) ;;
  log (status_saved file_id v).

(** [df.save(update_fields=['extracted_text', 'extraction_status'])] *)
Definition save_extracted (file_id : Z) (t : string) (v : extraction_status)
  : task unit :=
  attempt SaveExtracted
          (set_file file_id (λ df, with_status v (with_text t df))) ;;
  log (status_saved file_id v).

(** [AuditLog.objects.create(…)] inside [try … except Exception: pass] *)
Definition audit (s : site) (entry : AuditLog) : task unit :=
  log (audit_attempted entry) ;;
  try_pass (attempt s (λ st,
    {| documents := documents st; files := files st;
       validation_results := validation_results st;
       audit_log := audit_log st ++ [entry] |})).

Definition newline : string := String "010" "".

Definition nonempty (s : string) : bool := negb (String.eqb s "").

(** The text layer of the file, page by page. *)
Definition extract_text_with_pymupdf : string :=
  match pdf_pages e with
  | Returned pages => strip (join newline (List.filter nonempty pages))
  | Raised _ => ""
  end.

(** Recognition on the rendered pages, else on the file as one image. *)
Definition ocr_pdf_images : task string :=
  log ocr_called ;;
  attempt TempDir (λ st, st) ;;
  let text_parts := ocr_pages e in
  if ocr_pages_raise e
  then
    match ocr_image e with
    | Returned t =>
        ret (strip (join newline (List.filter nonempty (text_parts ++ [t]))))
    | Raised _ => ret ""
    end
  else ret (strip (join newline (List.filter nonempty text_parts))).

(** [not extracted or len(extracted.strip()) < 30] *)
Definition wants_ocr (extracted : string) : bool :=
  negb (nonempty extracted) || (len (strip extracted) <? 30).

(** The choice between the two candidate texts. *)
Definition choose_text (extracted ocr_text : string) : string :=
  if nonempty ocr_text && (len extracted <? len (strip ocr_text))
  then ocr_text
  else extracted.

Definition extract_text : task string :=
  let extracted := extract_text_with_pymupdf in
  if wants_ocr extracted
  then ocr_text ← ocr_pdf_images; ret (choose_text extracted ocr_text)
  else ret extracted.

(** [extracted[:100000] if extracted else ''] *)
Definition truncated (extracted : string) : string :=
  str_of (take (N.to_nat 100000) (chars extracted)).

Definition persist_validation (doc : TradeDocument) (res : results)
  : task (option results) :=
  try_pass (attempt CreateValidation (λ st,
    {| documents := documents st; files := files st;
       validation_results :=
         validation_results st ++ [{| vr_document := id doc; vr_result := res |}];
       audit_log := audit_log st |})) ;;
  attempt SaveValidation (set_document (id doc) (with_last_validation res)) ;;
  audit AuditValidation (run_validation_auto (id doc) res) ;;
  ret (Some res).

Definition run_validation_for_document (document_id : Z)
  : task (option results) :=
  attempt GetDocument (λ st, st) ;;
  st ← read_db;
  match List.find (λ d, bool_decide (id d = document_id)) (documents st) with
  | None => ret None
  | Some doc => persist_validation doc (validation_of st doc)
  end.

(** What the task returns. *)
Inductive payload : Type :=
| not_found (document_file_id : Z)
| done (document_file_id : Z) (parsed : gmap string string)
| failed (error : string).

(** [DocumentFile.objects.select_related('document').get(pk=…)] *)
Definition get_file (st : store) (document_file_id : Z)
  : option (DocumentFile * TradeDocument) :=
  match List.find (λ df, bool_decide (pk df = document_file_id)) (files st) with
  | Some df =>
      match List.find (λ d, bool_decide (id d = document df)) (documents st) with
      | Some doc => Some (df, doc)
      | None => None
      end
  | None => None
  end.

Definition merge_into_document (doc : TradeDocument)
           (parsed : gmap string string) : task unit :=
  if decide (parsed = ∅) then ret tt
  else
    let '(meta, changed) := merge_parsed (metadata doc) parsed in
    if changed
    then
      attempt SaveMetadata (set_document (id doc) (with_metadata meta)) ;;
      audit AuditExtracted (metadata_auto_extracted (id doc) parsed)
    else ret tt.

(** The statements inside [try]. *)
Definition task_body (df : DocumentFile) (doc : TradeDocument)
  : task payload :=
  extracted ← extract_text;
  save_extracted (pk df) (truncated extracted) STATUS_DONE ;;
  let parsed := parse_text_for_metadata extracted in
  merge_into_document doc parsed ;;
  run_validation_for_document (id doc) ;;
  ret (done (pk df) parsed).

(** The [except Exception as exc] clause. *)
Definition on_exception (df : DocumentFile) (exc : string) : task payload :=
  save_status SaveFailed (pk df) STATUS_FAILED ;;
  audit AuditFailed (extraction_failed (pk df) exc (format_exc e exc)) ;;
  ret (failed exc).

Definition extract_text_and_parse_task (document_file_id : Z)
  : task payload :=
  attempt GetFile (λ st, st) ;;
  st ← read_db;
  match get_file st document_file_id with
  | None => ret (not_found document_file_id)
  | Some (df, doc) =>
      save_status SaveRunning (pk df) STATUS_RUNNING ;;
      attempt FilePath (λ st, st) ;;
      try_except (task_body df doc) (on_exception df)
  end.

End Run.

End Tasks.

(** ** The statements of the specification, and the data of the examples *)

Module Spec.
Import Py Re Parser Models Tasks.

(** *** Merge *)

(** "M ∪ {k: P[k] for k in P if k not in M or M[k] is blank}", the added
    bindings replacing those of [M], for a given reading of "blank". *)
Definition claimed_merge (blank : value → bool)
           (M : gmap string value) (P : gmap string string)
  : gmap string value :=
  (VStr <$> filter (λ kv, match M !! kv.1 with
                          | None => true
                          | Some old => blank old
                          end = true) P) ∪ M.

(** Blank as the merge tests it: [not v]. *)
Definition falsy (v : value) : bool := negb (truthy v).

(** Blank as the empty string only. *)
Definition is_empty_str (v : value) : bool :=
  match v with VStr s => String.eqb s "" | _ => false end.

(** The same union, a blank binding of [M] being replaced by a non-empty
    parsed value only. *)
Definition amended_merge (M : gmap string value) (P : gmap string string)
  : gmap string value :=
  (VStr <$> filter (λ kv, match M !! kv.1 with
                          | None => true
                          | Some old => falsy old && truthy (VStr kv.2)
                          end = true) P) ∪ M.

(** Blank as the matcher tests it: nothing left of the rendering once
    trimmed. *)
Definition is_blank_trimmed (v : value) : bool := String.eqb (rendering v) "".

Definition zero_consignee : gmap string value := {[ "consignee" := VInt 0 ]}.

Definition spaces_consignee : gmap string value := {[ "consignee" := VStr "  " ]}.

Definition entered_metadata : gmap string value :=
  {[ "value" := VStr "1250.00"; "currency" := VStr "" ]}.

(** A label followed by blanks and a line break: the column heuristic
    captures one blank, which [strip] empties. *)
Definition text_blank_consignee : string :=
  "Consignee:     " +:+ newline +:+ "foo".

Definition text_named_consignee : string := "Consignee: ACME  Dubai".

(** A text with every kind of field. *)
Definition shipment_text : string :=
  "Shipper: ACME Co, Ltd. Container MSKU1234567 awb: 123-4567 ref 176 12345678 total $ 1,000.5 EUR 123456".

(** *** The example of the specification *)

Definition invoice_text : string :=
  "Invoice Consignee: ABC Trading LLC  HS: 8501 Value 1,250.00 USD".

(** *** The HS code, read off the text position by position *)

(** The first position, from the left, at which [f] finds something; [sn]
    holds the characters before the position, last one first. *)
Fixpoint scan {A} (f : list ascii → list ascii → option A)
         (sn rs : list ascii) : option A :=
  match f sn rs with
  | Some a => Some a
  | None =>
      match rs with
      | c :: rs' => scan f (c :: sn) rs'
      | [] => None
      end
  end.

(** At this position stands "HS" in either case, not preceded by a word
    character; after it come colons and white space, as many as there are,
    and then a run of digits, 4 to 10 long, not followed by a word
    character.  The result is the run of digits. *)
Definition hs_at (sn rs : list ascii) : option (list ascii) :=
  match rs with
  | h :: s :: tl =>
      if eq_ci "H" h && eq_ci "S" s && negb (is_word_opt (head sn))
      then
        let tl' := drop (run colon_space tl) tl in
        let n := run is_digit tl' in
        if (4 <=? n) && (n <=? 10) && negb (is_word_opt (head (drop n tl')))
        then Some (take n tl')
        else None
      else None
  | _ => None
  end.

(** At this position starts a run of exactly 6 digits, neither preceded nor
    followed by a word character. *)
Definition six_at (sn rs : list ascii) : option (list ascii) :=
  if negb (is_word_opt (head sn)) && (run is_digit rs =? 6)
     && negb (is_word_opt (head (drop 6 rs)))
  then Some (take 6 rs)
  else None.

(** Every run of white space replaced by one space. *)
Fixpoint collapse_ws (in_run : bool) (l : list ascii) : list ascii :=
  match l with
  | [] => []
  | c :: l' =>
      if is_space c
      then if in_run then collapse_ws true l' else " "%char :: collapse_ws true l'
      else c :: collapse_ws false l'
  end.

Definition amended_hs_code (text : string) : option string :=
  match text with
  | EmptyString => None
  | _ =>
      let s_norm := collapse_ws false (chars text) in
      match scan hs_at [] s_norm with
      | Some ds => Some (str_of ds)
      | None => str_of <$> scan six_at [] s_norm
      end
  end.

(** "Literal HS, case-insensitively, followed by 4 to 10 digits", with or
    without colons and white space in between. *)
Definition re_hs_claimed (separators : bool) : regex :=
  seqs [lit_ci "HS"; if separators then star colon_space else Eps;
        Grp 1 (Rep is_digit 4 (Some 10) true)].

Definition claimed_hs_code (separators : bool) (text : string) : option string :=
  match text with
  | EmptyString => None
  | _ =>
      let s_norm := sub re_spaces [" "%char] (chars text) in
      match search (re_hs_claimed separators) s_norm with
      | Some m => Some (str_of (group 1 m))
      | None => (str_of ∘ group 1) <$> search re_six s_norm
      end
  end.

(** *** A packing list as the upload view stores it *)

Definition packing_parts : list string :=
  ["hs_code"; "goods_description"; "unit_of_measure"; "quantity";
   "gross_weight"; "net_weight"; "number_of_packages"].

Definition file_row (n : Z) (doc_id : Z) (name : string) : DocumentFile :=
  {| pk := n; document := doc_id; field_name := name;
     extraction_status_of := STATUS_PENDING; extracted_text := None |}.

Definition packing_doc : TradeDocument :=
  {| id := 1; doc_type := "packing_list"; uploader := 7;
     metadata := ∅; last_validation := None |}.

Definition packing_store : store :=
  {| documents := [packing_doc];
     files := imap (λ i name, file_row (Z.of_nat i + 1) 1 name)
                   (Views.created_files "packing_list" packing_parts);
     validation_results := [];
     audit_log := [] |}.

(** *** Two documents of one uploader that agree on the shared fields *)

Definition invoice_doc : TradeDocument :=
  {| id := 10; doc_type := "invoice"; uploader := 7;
     metadata := {[ "hs_code" := VStr "8501"; "value" := VInt 1250 ]};
     last_validation := None |}.

Definition delivery_doc : TradeDocument :=
  {| id := 11; doc_type := "delivery_order"; uploader := 7;
     metadata := {[ "hs_code" := VStr " 8501"; "value" := VStr "1250";
                    "port_of_discharge" := VStr "Jebel Ali" ]};
     last_validation := None |}.

Definition invoice_doc_str : TradeDocument :=
  {| id := 10; doc_type := "invoice"; uploader := 7;
     metadata := {[ "hs_code" := VStr "8501"; "value" := VStr "1250" ]};
     last_validation := None |}.

Definition delivery_doc_int : TradeDocument :=
  {| id := 11; doc_type := "delivery_order"; uploader := 7;
     metadata := {[ "hs_code" := VInt 8501; "value" := VInt 1250;
                    "port_of_discharge" := VStr "Jebel Ali" ]};
     last_validation := None |}.

Definition pair_store : store :=
  {| documents := [invoice_doc; delivery_doc];
     files := []; validation_results := []; audit_log := [] |}.

(** A candidate agrees with the match keys: each key is present, not blank
    and renders as the source's value. *)
Definition agrees (mk : list (string * string)) (c : TradeDocument) : Prop :=
  ∀ k v, (k, v) ∈ mk →
         ∃ cv, metadata c !! k = Some cv ∧ rendering cv ≠ "" ∧ rendering cv = v.

(** What one turn of the loop over the types records for [dtype]. *)
Definition entry_for (st : store) (doc : TradeDocument)
           (mk : list (string * string)) (dtype : string) : found_entry :=
  if decide (doc_type doc = dtype) then Matched (id doc)
  else
    match List.find (candidate_matches mk) (candidates st doc dtype) with
    | Some c => Matched (id c)
    | None => Unmatched
    end.

(** *** A run on a scanned file *)

Definition quiet : site → option string := λ _, None.

Definition scanned_env : env :=
  {| fails := quiet;
     pdf_pages := Returned ["Invoice 42"];
     ocr_pages := ["Inv"];
     ocr_pages_raise := false;
     ocr_image := Raised "cannot identify image file";
     format_exc := λ exc, "Traceback (most recent call last): " +:+ exc |}.

Definition pair_world : world := World pair_store [].

(** *** Status of a file, and the moves of a run *)

Definition status_of (st : store) (file_id : Z) : option extraction_status :=
  extraction_status_of
    <$> List.find (λ df, bool_decide (pk df = file_id)) (files st).

(** The status writes among the events, oldest first. *)
Definition statuses (evs : list event) : list (Z * extraction_status) :=
  omap (λ ev, match ev with
              | status_saved file_id s => Some (file_id, s)
              | _ => None
              end) evs.




(** A task that writes no file row and records no status write. *)
Definition quiet_task {A} (c : task A) : Prop :=
  ∀ w, files (db (c w).2) = files (db w)
       ∧ ∃ new, events (c w).2 = events w ++ new ∧ statuses new = [].

(** *** Runs of the pipeline on a stored invoice file *)

Definition invoice_file : DocumentFile := file_row 5 10 "hs_code".

Definition file_world : world :=
  World {| documents := [invoice_doc; delivery_doc];
           files := [invoice_file];
           validation_results := [];
           audit_log := [] |} [].

Definition text_env (fail : site → option string) : env :=
  {| fails := fail;
     pdf_pages := Returned [invoice_text];
     ocr_pages := [];
     ocr_pages_raise := false;
     ocr_image := Raised "cannot identify image file";
     format_exc := λ exc, "Traceback (most recent call last): " +:+ exc |}.


(** The row of the file is gone once the text is extracted: every later
    write of it is refused. *)
Definition row_deleted : site → option string :=
  λ s, match s with
       | SaveExtracted | SaveFailed =>
           Some "Save with update_fields did not affect any rows."
       | _ => None
       end.

(** The storage gives no local path for the file. *)
Definition no_local_path : site → option string :=
  λ s, match s with
       | FilePath => Some "This backend doesn't support absolute paths."
       | _ => None
       end.

(** The text cannot be stored, the status can. *)
Definition text_save_fails : site → option string :=
  λ s, match s with
       | SaveExtracted => Some "database is locked"
       | _ => None
       end.

End Spec.
(** ** Shapes of the parsed values *)

Module Shapes.
Import Py Re Parser.

(** A character of a cleaned amount: a digit or a dot. *)
Definition is_numeric (c : ascii) : bool := is_digit c || Ascii.eqb c ".".

(** The closed set of the currency pattern. *)
Definition currency_codes : list string :=
  ["AED"; "USD"; "EUR"; "GBP"; "JPY"; "CHF"; "SAR"; "INR"].

(** Four capitals followed by seven digits. *)
Definition container_shape (l : list ascii) : bool :=
  forallb is_upper (take 4 l) && forallb is_digit (drop 4 l)
  && (length l =? 11).

(** No white space at either end. *)
Definition trimmed (l : list ascii) : bool :=
  match l with
  | [] => true
  | c :: _ => negb (is_space c) && negb (from_option is_space false (last l))
  end.

(** White space occurs as single spaces only; [after_space] tells that the
    character before is a space. *)
Fixpoint single_spaced (after_space : bool) (l : list ascii) : bool :=
  match l with
  | [] => true
  | c :: l' =>
      if is_space c
      then Ascii.eqb c " " && negb after_space && single_spaced true l'
      else single_spaced false l'
  end.

End Shapes.
Import Shapes.

(** ** What a run may change in the store *)

Module Effects.
Import Py Models Tasks.

(** Whatever the task returns or raises, the store it leaves is related by
    [R] to the store it found. *)
Definition respects (R : store → store → Prop) {A} (c : task A) : Prop :=
  ∀ w, R (db w) (db (c w).2).

Definition closed_under (R : store → store → Prop) (upd : store → store) : Prop :=
  ∀ st, R st (upd st).

(** Row [r'] is row [r], but for the status and the text when it is the
    row of [file_id]. *)
Definition same_but_extraction (file_id : Z) (r r' : DocumentFile) : Prop :=
  pk r' = pk r ∧ document r' = document r ∧ field_name r' = field_name r
  ∧ (pk r ≠ file_id → r' = r).

Definition only_row_changed (file_id : Z) (st st' : store) : Prop :=
  Forall2 (same_but_extraction file_id) (files st) (files st').

(** No row is added or removed, and the two logs only grow. *)
Definition append_only (st st' : store) : Prop :=
  audit_log st `prefix_of` audit_log st'
  ∧ validation_results st `prefix_of` validation_results st'
  ∧ pk <$> files st' = pk <$> files st
  ∧ id <$> documents st' = id <$> documents st.

(** The documents are the same but for their last validation. *)
Definition same_but_validation (d d' : TradeDocument) : Prop :=
  id d' = id d ∧ doc_type d' = doc_type d ∧ uploader d' = uploader d
  ∧ metadata d' = metadata d.

Definition metadata_same (st st' : store) : Prop :=
  Forall2 same_but_validation (documents st) (documents st').

(** Document [d'] keeps what [d] holds: identity, type, uploader, every key
    and every non-blank value; a document other than [owner] keeps its
    metadata as they are. *)
Definition keeps_metadata (owner : Z) (d d' : TradeDocument) : Prop :=
  id d' = id d ∧ doc_type d' = doc_type d ∧ uploader d' = uploader d
  ∧ dom (metadata d) ⊆ dom (metadata d')
  ∧ (∀ k v, metadata d !! k = Some v → truthy v = true →
            metadata d' !! k = Some v)
  ∧ (id d ≠ owner → metadata d' = metadata d).

(** Document [d'] is [d], or it is the document [owner] with the metadata
    of a merge into [M0]. *)
Definition merged_from (owner : Z) (M0 : gmap string value)
           (d d' : TradeDocument) : Prop :=
  id d' = id d ∧ doc_type d' = doc_type d ∧ uploader d' = uploader d
  ∧ (metadata d' = metadata d
     ∨ (id d = owner ∧ ∃ parsed, metadata d' = (merge_parsed M0 parsed).1)).

Definition documents_merged (owner : Z) (M0 : gmap string value)
           (st st' : store) : Prop :=
  Forall2 (merged_from owner M0) (documents st) (documents st').


End Effects.
Import Effects.

(** ** The review views

    [ApproveRejectView.post] and the queryset of [DocumentStatsView.get] in
    [src/documents/views.py], with the role tests of [src/users/models.py].
    A string filter of a queryset is an exact comparison. *)

Module Review.
Import Py Models.

(** [users.models.User] *)
Record User : Type := {
  user_pk : Z;
  role : string
}.

Definition ROLE_ADMIN : string := "admin".
Definition ROLE_UPLOADER : string := "uploader".
Definition ROLE_REVIEWER : string := "reviewer".

Definition is_admin (u : User) : bool := String.eqb (role u) ROLE_ADMIN.
Definition is_uploader (u : User) : bool := String.eqb (role u) ROLE_UPLOADER.
Definition is_reviewer (u : User) : bool := String.eqb (role u) ROLE_REVIEWER.

(** A [TradeDocument] with the columns the review views read and write. *)
Record document_row : Type := {
  base : TradeDocument;
  status : string;
  assigned_reviewer : option Z
}.

Definition STATUS_UPLOADED : string := "uploaded".
Definition STATUS_PENDING : string := "pending".
Definition STATUS_APPROVED : string := "approved".
Definition STATUS_REJECTED : string := "rejected".

Definition STATUS_CHOICES : list string :=
  [STATUS_UPLOADED; STATUS_PENDING; STATUS_APPROVED; STATUS_REJECTED].

Record Comment : Type := {
  comment_document : Z;
  comment_user : Z;
  comment_text : string
}.

(** [AuditLog(user=request.user, action, details={'doc_id': id})] *)
Record review_entry : Type := {
  entry_user : Z;
  entry_action : string;
  entry_doc_id : Z
}.

Record review_store : Type := {
  rows : list document_row;
  comments : list Comment;
  review_log : list review_entry
}.

Inductive response : Type :=
| Http404
| Response (status_code : Z) (detail : string).

Definition with_doc_status (s : string) (d : document_row) : document_row :=
  {| base := base d; status := s; assigned_reviewer := assigned_reviewer d |}.

(** [doc.assigned_reviewer and doc.assigned_reviewer != request.user] *)
Definition assigned_to_other (doc : document_row) (u : User) : bool :=
  match assigned_reviewer doc with
  | Some r => negb (r =? user_pk u)%Z
  | None => false
  end.

(** The refusal of the permission test, if any. *)
Definition refusal (u : User) (doc : document_row) : option response :=
  if negb (is_admin u)
  then
    if negb (is_reviewer u)
    then Some (Response 403 "Not permitted")
    else if assigned_to_other doc u
         then Some (Response 403 "Document not assigned to you")
         else None
  else None.

(** The status an action stands for. *)
Definition decided (action : value) : option (string * string) :=
  match action with
  | VStr a =>
      if String.eqb a "approve" then Some (a, STATUS_APPROVED)
      else if String.eqb a "reject" then Some (a, STATUS_REJECTED)
      else None
  | _ => None
  end.

(** [ApproveRejectView.post]; [action] and [comment] are
    [request.data.get('action')] and [request.data.get('comment', '')]. *)
Definition post (u : User) (action comment : value) (pk : Z) (st : review_store)
  : response * review_store :=
  match List.find (λ d, bool_decide (id (base d) = pk)) (rows st) with
  | None => (Http404, st)
  | Some doc =>
      match refusal u doc with
      | Some r => (r, st)
      | None =>
          match decided action with
          | None => (Response 400 "Invalid action", st)
          | Some (a, s) =>
              (Response 200 ("Document " +:+ a +:+ "d"),
               {| rows := map (λ d, if decide (id (base d) = pk)
                                    then with_doc_status s doc else d) (rows st);
                  comments :=
                    comments st
                    ++ (if truthy comment
                        then [{| comment_document := id (base doc);
                                 comment_user := user_pk u;
                                 comment_text := str comment |}]
                        else []);
                  review_log :=
                    review_log st
                    ++ [{| entry_user := user_pk u;
                           entry_action := a +:+ "_document";
                           entry_doc_id := id (base doc) |}] |})
          end
      end
  end.

(** The documents a user's statistics count: all for an administrator; for
    a reviewer those assigned to them and the pending ones assigned to
    nobody; for anybody else their own uploads. *)
Definition in_queryset (u : User) (d : document_row) : bool :=
  if negb (is_admin u)
  then
    if is_reviewer u
    then bool_decide (assigned_reviewer d = Some (user_pk u))
         || (String.eqb (status d) STATUS_PENDING
             && bool_decide (assigned_reviewer d = None))
    else bool_decide (uploader (base d) = user_pk u)
  else true.

Definition queryset (u : User) (st : review_store) : list document_row :=
  List.filter (in_queryset u) (rows st).

(** [DocumentStatsView.get]: [total] and [by_status]. *)
Definition stats (u : User) (st : review_store) : nat * list (string * nat) :=
  let qs := queryset u st in
  (length qs,
   map (λ s, (s, length (List.filter (λ d, String.eqb (status d) s) qs)))
       STATUS_CHOICES).

End Review.

(** ** The text snippet of a file

    [DocumentFile.get_text_snippet] in [src/documents/models.py], for a
    length that is not negative. *)

Module Snippet.
Import Py Models Tasks.

(** [txt.replace('\n', ' ')] *)
Definition replace_newlines (l : list ascii) : list ascii :=
  map (λ c, if Ascii.eqb c "010" then " "%char else c) l.

Definition get_text_snippet (df : DocumentFile) (length : nat) : string :=
  match extracted_text df with
  | Some t =>
      if nonempty t
      then
        let txt := replace_newlines (chars (strip t)) in
        str_of (take length txt
                ++ (if length <? List.length txt then chars "..." else []))
      else ""
  | None => ""
  end.

End Snippet.
Import Snippet.

(** ** Sample data *)

Module Samples.
Import Py Models Tasks Review.

(** An invoice whose only candidate field is blank once trimmed. *)
Definition blank_invoice : TradeDocument :=
  {| id := 20; doc_type := "invoice"; uploader := 7;
     metadata := {[ "hs_code" := VStr "  "; "note" := VStr "urgent" ]};
     last_validation := None |}.

Definition other_delivery : TradeDocument :=
  {| id := 21; doc_type := "delivery_order"; uploader := 7;
     metadata := {[ "hs_code" := VStr "9999" ]};
     last_validation := None |}.

Definition blank_store : store :=
  {| documents := [blank_invoice; other_delivery];
     files := []; validation_results := []; audit_log := [] |}.

Definition reviewer : User := {| user_pk := 3; role := "reviewer" |}.

Definition pending_row : document_row :=
  {| base := blank_invoice; status := "pending"; assigned_reviewer := None |}.

Definition assigned_row : document_row :=
  {| base := other_delivery; status := "approved"; assigned_reviewer := Some 3%Z |}.

Definition review_sample : review_store :=
  {| rows := [pending_row; assigned_row]; comments := []; review_log := [] |}.

End Samples.

(** * Properties *)

Import Py Re Parser Models Tasks Spec.

(** ** Strings *)

Lemma chars_str_of (l : list ascii) : chars (str_of l) = l.
Proof. apply String.list_ascii_of_string_of_list_ascii. Qed.

Lemma str_of_chars (s : string) : str_of (chars s) = s.
Proof. apply String.string_of_list_ascii_of_string. Qed.

Lemma len_str_of (l : list ascii) : len (str_of l) = length l.
Proof. induction l as [|c l IH]; simpl; [reflexivity | now f_equal]. Qed.

Lemma len_chars (s : string) : length (chars s) = len s.
Proof. rewrite <- (str_of_chars s) at 2. symmetry. apply len_str_of. Qed.

Lemma lstrip_length (l : list ascii) : length (lstrip l) ≤ length l.
Proof.
  induction l as [|c l IH]; simpl; [lia |].
  destruct (is_space c); simpl; lia.
Qed.

Lemma strip_chars_length (l : list ascii) : length (strip_chars l) ≤ length l.
Proof.
  unfold strip_chars, rstrip.
  etransitivity; [apply lstrip_length |].
  rewrite length_rev. etransitivity; [apply lstrip_length |].
  now rewrite length_rev.
Qed.

Lemma len_strip (s : string) : len (strip s) ≤ len s.
Proof.
  unfold strip. rewrite len_str_of, <- len_chars. apply strip_chars_length.
Qed.

Lemma string_eqb_false (a b : string) : String.eqb a b = false ↔ a ≠ b.
Proof. destruct (String.eqb_spec a b); split; congruence. Qed.

(** ** The parser on sample texts *)

Example parse_shipment_text :
  parse_text_for_metadata shipment_text
  = {[ "hs_code" := "123456"; "currency" := "EUR"; "value" := "1234567";
       "container_number" := "MSKU1234567"; "bol_awb_number" := "awb: 123";
       "shipper" := "ACME Co, Ltd. Container MSKU1234567 awb" ]}.
Proof. vm_compute. exact eq_refl. Qed.

Example parse_blank_consignee :
  parse_text_for_metadata text_blank_consignee = {[ "consignee" := "" ]}.
Proof. vm_compute. exact eq_refl. Qed.

Example parse_empty_text : parse_text_for_metadata "" = ∅.
Proof. reflexivity. Qed.

(** ** The two required-fields tables *)

(** C9. The table of the upload view and the table of the pipeline differ
    on a document type, and for a packing list stored by the upload view with
    every file the view requires, the view finds no file missing while the
    validation engine reports one. *)
Theorem required_fields_tables_disagree :
  (∃ dtype, dtype ∈ required_types
            ∧ Views.REQUIRED_FIELDS !! dtype ≠ Tasks.REQUIRED_FIELDS !! dtype)
  ∧ ∃ st doc request_FILES,
      doc ∈ documents st
      ∧ field_name <$> filter (λ f, document f = id doc) (files st)
        = Views.created_files (doc_type doc) request_FILES
      ∧ Views.missing_files (doc_type doc) request_FILES = []
      ∧ compute_missing_files st doc = ["packing_list_file"].
Proof.
  split.
  - exists "packing_list". split.
    + unfold required_types. set_solver.
    + vm_compute. discriminate.
  - exists packing_store, packing_doc, packing_parts.
    split; [unfold packing_store; simpl; set_solver |].
    split; [vm_compute; exact eq_refl |].
    split; vm_compute; exact eq_refl.
Qed.

(** ** The readiness verdict *)

Lemma nonempty_by_lookup {A} (m : gmap string A) (k : string) (v : A) :
  m !! k = Some v → m ≠ ∅.
Proof. intros H ->. rewrite lookup_empty in H. discriminate. Qed.

Lemma validation_of_nonempty (st : store) (doc : TradeDocument) :
  metadata doc ≠ ∅ →
  let mf := compute_missing_files st doc in
  let mk := build_match_keys (metadata doc) in
  let found := (match_types st doc mk).1 in
  let mt := (match_types st doc mk).2 in
  let ready := Nat.eqb (length mf) 0 && Nat.eqb (length mt) 0 in
  validation_of st doc
  = Results mf ready None (compose_message ready mf mt) (Some mk)
            (Some (filter (λ kv, is_matched kv.2) found)) (Some mt).
Proof.
  intros Hne. unfold validation_of.
  destruct (decide (metadata doc = ∅)) as [Heq|_]; [contradiction |].
  destruct (match_types st doc (build_match_keys (metadata doc))); reflexivity.
Qed.

(** C3. For a document with metadata, [ready_for_approval] holds exactly when
    no file and no type is missing; the message is then the fixed sentence,
    and otherwise the clause on the missing files, the clause on the missing
    types, or both joined by " | ". *)
Theorem readiness_verdict (st : store) (doc : TradeDocument) :
  metadata doc ≠ ∅ →
  let r := validation_of st doc in
  ∃ mt,
    missing_types r = Some mt
    ∧ (ready_for_approval r = true ↔ missing_files r = [] ∧ mt = [])
    ∧ message r =
        match missing_files r, mt with
        | [], [] =>
            "All related documents found and consistent. Ready for approval."
        | _ :: _, [] =>
            "Missing files for this document: " +:+ repr_list (missing_files r)
        | [], _ :: _ =>
            "Missing or unmatched document types: " +:+ join ", " mt
        | _ :: _, _ :: _ =>
            "Missing files for this document: " +:+ repr_list (missing_files r)
            +:+ " | "
            +:+ "Missing or unmatched document types: " +:+ join ", " mt
        end.
Proof.
  intros Hne r. subst r. rewrite (validation_of_nonempty st doc Hne). simpl.
  eexists. split; [reflexivity |].
  destruct (compute_missing_files st doc) as [|f mf];
    destruct ((match_types st doc (build_match_keys (metadata doc))).2) as [|t mt];
    simpl; (split; [split; [try discriminate; auto | intros [? ?]; congruence] |]);
    reflexivity.
Qed.

Lemma readiness_verdict_witness :
  ∃ mt,
    missing_types (validation_of pair_store invoice_doc) = Some mt
    ∧ ready_for_approval (validation_of pair_store invoice_doc) = false
    ∧ mt = ["packing_list"; "bol_awb"].
Proof.
  destruct (readiness_verdict pair_store invoice_doc) as (mt & Hmt & Hready & Hmsg).
  - apply (nonempty_by_lookup _ "value" (VInt 1250)). vm_compute. exact eq_refl.
  - exists mt. split; [exact Hmt |].
    vm_compute in Hmt. injection Hmt as <-.
    split; [vm_compute; exact eq_refl | reflexivity].
Defined.

(** ** Choice between the direct and the recognised text *)

Lemma wants_ocr_spec (extracted : string) :
  wants_ocr extracted = true ↔ extracted = "" ∨ len (strip extracted) < 30.
Proof.
  unfold wants_ocr, nonempty. rewrite orb_true_iff, negb_true_iff, negb_false_iff.
  rewrite Nat.ltb_lt. split; (intros [H|H]; [left | right; exact H]).
  - now apply String.eqb_eq.
  - now apply String.eqb_eq.
Qed.

Lemma ocr_pdf_images_events (e : env) (w : world) :
  events (ocr_pdf_images e w).2 = events w ++ [ocr_called].
Proof.
  unfold ocr_pdf_images, mbind, task_bind, bind, log, attempt. simpl.
  destruct (fails e TempDir); simpl; [reflexivity |].
  destruct (ocr_pages_raise e); [destruct (ocr_image e) |]; reflexivity.
Qed.

Lemma choose_text_keeps (extracted ocr_text : string) :
  len ocr_text ≤ len extracted → choose_text extracted ocr_text = extracted.
Proof.
  intros Hle. unfold choose_text.
  destruct (Nat.ltb_spec (len extracted) (len (strip ocr_text))) as [Hlt|_].
  - pose proof (len_strip ocr_text). lia.
  - now rewrite andb_false_r.
Qed.


(** ** Cross-document matching *)

Lemma all_keys_present_spec (mk : list (string * string)) (m : gmap string value) :
  all_keys_present mk m = true
  ↔ ∀ k v, (k, v) ∈ mk → ∃ cv, m !! k = Some cv ∧ rendering cv ≠ "".
Proof.
  unfold all_keys_present. induction mk as [|[k0 v0] mk IH]; simpl.
  - split; [intros _ k v H; inversion H | reflexivity].
  - rewrite andb_true_iff, IH. split.
    + intros [H0 Hall] k v [Heq|Hin]%elem_of_cons.
      * injection Heq as -> ->. destruct (m !! k0) as [cv|]; [|discriminate].
        exists cv. split; [reflexivity |].
        now apply string_eqb_false, negb_true_iff.
      * eauto.
    + intros H. split.
      * destruct (H k0 v0) as (cv & -> & Hne); [left |].
        now apply negb_true_iff, string_eqb_false.
      * intros k v Hin. apply (H k v). now right.
Qed.

Lemma mismatch_spec (mk : list (string * string)) (m : gmap string value) :
  mismatch mk m = false
  ↔ ∀ k v, (k, v) ∈ mk → rendering (default (VStr "") (m !! k)) = v.
Proof.
  unfold mismatch. induction mk as [|[k0 v0] mk IH]; simpl.
  - split; [intros _ k v H; inversion H | reflexivity].
  - rewrite orb_false_iff, IH, negb_false_iff, String.eqb_eq. split.
    + intros [H0 Hall] k v [Heq|Hin]%elem_of_cons.
      * now injection Heq as -> ->.
      * eauto.
    + intros H. split; [apply H; left | intros k v Hin; apply H; now right].
Qed.

Lemma candidate_matches_agrees (mk : list (string * string)) (c : TradeDocument) :
  candidate_matches mk c = true ↔ agrees mk c.
Proof.
  unfold candidate_matches, agrees.
  destruct (all_keys_present mk (metadata c)) eqn:Hall; simpl.
  - rewrite negb_true_iff, mismatch_spec.
    pose proof (proj1 (all_keys_present_spec _ _) Hall) as Hpres. split.
    + intros Hmis k v Hin. destruct (Hpres k v Hin) as (cv & Hcv & Hne).
      exists cv. split; [exact Hcv |]. split; [exact Hne |].
      specialize (Hmis k v Hin). now rewrite Hcv in Hmis.
    + intros H k v Hin. destruct (H k v Hin) as (cv & -> & _ & Hcv). exact Hcv.
  - split; [discriminate |]. intros H.
    assert (all_keys_present mk (metadata c) = true) as Heq; [|congruence].
    apply all_keys_present_spec. intros k v Hin.
    destruct (H k v Hin) as (cv & Hcv & Hne & _). eauto.
Qed.

Lemma build_match_keys_spec (doc_meta : gmap string value) (k v : string) :
  (k, v) ∈ build_match_keys doc_meta
  ↔ k ∈ possible_keys ∧ v ≠ ""
    ∧ ∃ x, doc_meta !! k = Some x ∧ rendering x = v.
Proof.
  unfold build_match_keys. rewrite list_elem_of_omap. split.
  - intros (k' & Hin & Hf). destruct (doc_meta !! k') as [x|] eqn:Hx; [|discriminate].
    destruct (String.eqb (rendering x) "") eqn:Hb; [discriminate |].
    injection Hf as Hk Hv. subst k v. split; [exact Hin |].
    split; [now apply string_eqb_false | eauto].
  - intros (Hin & Hne & x & Hx & <-). exists k. split; [exact Hin |].
    rewrite Hx. apply string_eqb_false in Hne. now rewrite Hne.
Qed.

Lemma match_type_found (st : store) (doc : TradeDocument)
      (mk : list (string * string)) acc (dtype : string) :
  (match_type st doc mk acc dtype).1 = <[dtype := entry_for st doc mk dtype]> acc.1.
Proof.
  unfold match_type, entry_for. destruct (decide (doc_type doc = dtype)); [reflexivity |].
  destruct (List.find _ _); reflexivity.
Qed.

Lemma match_types_lookup (st : store) (doc : TradeDocument)
      (mk : list (string * string)) (l : list string) acc (dtype : string) :
  (foldl (match_type st doc mk) acc l).1 !! dtype
  = if decide (dtype ∈ l) then Some (entry_for st doc mk dtype) else acc.1 !! dtype.
Proof.
  revert acc. induction l as [|d l IH]; intros acc; cbn [foldl].
  - destruct (decide (dtype ∈ [])) as [H|_]; [inversion H | reflexivity].
  - rewrite IH. destruct (decide (dtype ∈ l)) as [Hin|Hnin].
    + rewrite decide_True; [reflexivity | now right].
    + rewrite match_type_found. destruct (decide (dtype = d)) as [->|Hne].
      * rewrite decide_True by left. apply lookup_insert_eq.
      * rewrite decide_False by (rewrite elem_of_cons; tauto).
        now apply lookup_insert_ne.
Qed.

Lemma find_candidate_spec (st : store) (doc : TradeDocument)
      (mk : list (string * string)) (dtype : string) :
  is_Some (List.find (candidate_matches mk) (candidates st doc dtype))
  ↔ ∃ c, c ∈ documents st ∧ id c ≠ id doc ∧ uploader c = uploader doc
         ∧ doc_type c = dtype ∧ agrees mk c.
Proof.
  split.
  - intros [c Hc]. apply find_some in Hc as [Hin Hm].
    apply list_elem_of_In in Hin. unfold candidates in Hin.
    apply list_elem_of_filter in Hin as [(Hu & Ht & Hid) Hin].
    exists c. repeat split; try assumption. now apply candidate_matches_agrees.
  - intros (c & Hin & Hid & Hu & Ht & Hag).
    destruct (List.find _ _) as [c'|] eqn:Hfind; [eauto |].
    exfalso. apply candidate_matches_agrees in Hag.
    rewrite (find_none _ _ Hfind c) in Hag; [discriminate |].
    apply list_elem_of_In. unfold candidates. apply list_elem_of_filter. tauto.
Qed.

Lemma extra_key_ignored (mk : list (string * string)) (c : TradeDocument)
      (k : string) (x : value) :
  k ∉ mk.*1 →
  candidate_matches mk (with_metadata (<[k := x]> (metadata c)) c)
  = candidate_matches mk c.
Proof.
  intros Hk. apply eq_true_iff_eq. rewrite !candidate_matches_agrees.
  unfold agrees. simpl.
  assert (∀ k' v, (k', v) ∈ mk → (<[k := x]> (metadata c)) !! k' = metadata c !! k')
    as Hlook.
  { intros k' v Hin. apply lookup_insert_ne. intros ->. apply Hk.
    apply list_elem_of_fmap. exists (k', v). auto. }
  split; intros H k' v Hin; specialize (H k' v Hin);
    rewrite (Hlook k' v Hin) in *; exact H.
Qed.

(** C2. The match keys are the candidate fields whose value in the source's
    metadata is not blank once rendered and trimmed.  For each of the four
    types other than the source's, the type is recorded as matched exactly
    when some other document of that type and of the same uploader has every
    match key, not blank, with the source's trimmed rendering.  The source's
    own type is recorded as matched with the source's id.  A further key on a
    candidate does not change whether it matches. *)
Theorem cross_document_matching (st : store) (doc : TradeDocument) :
  let mk := build_match_keys (metadata doc) in
  let found := (match_types st doc mk).1 in
  (∀ k v, (k, v) ∈ mk
          ↔ k ∈ possible_keys ∧ v ≠ ""
            ∧ ∃ x, metadata doc !! k = Some x ∧ rendering x = v)
  ∧ (∀ dtype, dtype ∈ required_types → dtype ≠ doc_type doc →
       is_Some (found !! dtype)
       ∧ (is_matched <$> found !! dtype = Some true
          ↔ ∃ c, c ∈ documents st ∧ id c ≠ id doc ∧ uploader c = uploader doc
                 ∧ doc_type c = dtype ∧ agrees mk c))
  ∧ (doc_type doc ∈ required_types →
       found !! doc_type doc = Some (Matched (id doc)))
  ∧ (∀ c k x, k ∉ mk.*1 →
       candidate_matches mk (with_metadata (<[k := x]> (metadata c)) c)
       = candidate_matches mk c).
Proof.
  intros mk found. split; [apply build_match_keys_spec |].
  split; [|split].
  - intros dtype Hin Hne. subst found. unfold match_types.
    rewrite match_types_lookup, decide_True by exact Hin.
    split; [eauto |]. simpl.
    rewrite <- find_candidate_spec. unfold entry_for.
    rewrite decide_False by congruence.
    destruct (List.find _ _) as [c|]; simpl.
    + split; [eauto | reflexivity].
    + split; [discriminate | intros [c Hc]; discriminate].
  - intros Hin. subst found. unfold match_types.
    rewrite match_types_lookup, decide_True by exact Hin.
    unfold entry_for. now rewrite decide_True.
  - intros c k x. apply extra_key_ignored.
Qed.

Lemma cross_document_matching_witness :
  (match_types pair_store invoice_doc (build_match_keys (metadata invoice_doc))).1
    !! "delivery_order" = Some (Matched 11)
  ∧ (match_types pair_store invoice_doc (build_match_keys (metadata invoice_doc))).1
    !! "invoice" = Some (Matched 10)
  ∧ ∃ c, c ∈ documents pair_store ∧ id c ≠ id invoice_doc
         ∧ agrees (build_match_keys (metadata invoice_doc)) c.
Proof.
  destruct (cross_document_matching pair_store invoice_doc)
    as (_ & Hother & Hown & _).
  split; [vm_compute; exact eq_refl |].
  split.
  - apply Hown. repeat constructor.
  - destruct (Hother "delivery_order") as [_ [Hex _]].
    + repeat constructor.
    + simpl. discriminate.
    + destruct Hex as (c & Hin & Hid & _ & _ & Hag).
      * vm_compute. exact eq_refl.
      * exists c. auto.
Defined.

(** ** String coercion in the matcher *)

Lemma rendering_lookup (m m' : gmap string value) (k : string) :
  rendering <$> m = rendering <$> m' →
  rendering <$> (m !! k) = rendering <$> (m' !! k).
Proof. intros H. rewrite <- !lookup_fmap. now rewrite H. Qed.

Lemma build_match_keys_rendering (m m' : gmap string value) :
  rendering <$> m = rendering <$> m' → build_match_keys m = build_match_keys m'.
Proof.
  intros H. unfold build_match_keys.
  induction possible_keys as [|k ks IH]; [reflexivity |]. cbn [omap list_omap].
  rewrite IH. pose proof (rendering_lookup m m' k H) as Hk.
  destruct (m !! k) as [x|], (m' !! k) as [x'|]; simpl in Hk; try discriminate.
  - injection Hk as ->. reflexivity.
  - reflexivity.
Qed.

Lemma agrees_rendering (mk : list (string * string)) (c : TradeDocument) :
  agrees mk c
  ↔ ∀ k v, (k, v) ∈ mk → rendering <$> (metadata c !! k) = Some v ∧ v ≠ "".
Proof.
  unfold agrees. split; intros H k v Hin; specialize (H k v Hin).
  - destruct H as (cv & -> & Hne & <-). split; [reflexivity | exact Hne].
  - destruct H as [Hr Hne]. destruct (metadata c !! k) as [cv|]; [|discriminate].
    injection Hr as <-. eauto.
Qed.

(** C10. The matcher compares trimmed string renderings: the number 1250 on
    the source matches the string "1250" on a candidate, and replacing the
    metadata of the source or of a candidate by metadata with the same
    trimmed renderings, whatever the stored JSON types, never changes whether
    they match. *)
Theorem matcher_compares_renderings :
  metadata invoice_doc !! "value" = Some (VInt 1250)
  ∧ metadata delivery_doc !! "value" = Some (VStr "1250")
  ∧ candidate_matches (build_match_keys (metadata invoice_doc)) delivery_doc = true
  ∧ ∀ src src' cand cand',
      rendering <$> metadata src = rendering <$> metadata src' →
      rendering <$> metadata cand = rendering <$> metadata cand' →
      build_match_keys (metadata src) = build_match_keys (metadata src')
      ∧ candidate_matches (build_match_keys (metadata src)) cand
        = candidate_matches (build_match_keys (metadata src')) cand'.
Proof.
  split; [vm_compute; exact eq_refl |].
  split; [vm_compute; exact eq_refl |].
  split; [vm_compute; exact eq_refl |].
  intros src src' cand cand' Hsrc Hcand.
  pose proof (build_match_keys_rendering _ _ Hsrc) as Hmk.
  split; [exact Hmk |]. rewrite <- Hmk.
  apply eq_true_iff_eq. rewrite !candidate_matches_agrees, !agrees_rendering.
  split; intros H k v Hin; specialize (H k v Hin).
  - now rewrite <- (rendering_lookup _ _ k Hcand).
  - now rewrite (rendering_lookup _ _ k Hcand).
Qed.

Lemma matcher_compares_renderings_witness :
  candidate_matches (build_match_keys (metadata invoice_doc_str)) delivery_doc_int
  = true.
Proof.
  destruct matcher_compares_renderings as (_ & _ & Hm & Hgen).
  destruct (Hgen invoice_doc invoice_doc_str delivery_doc delivery_doc_int)
    as [_ Heq].
  - vm_compute. exact eq_refl.
  - vm_compute. exact eq_refl.
  - rewrite <- Heq. exact Hm.
Defined.

(** ** Merge of the parsed fields *)

Lemma merge_parsed_lookup (M : gmap string value) (P : gmap string string)
      (k : string) :
  (merge_parsed M P).1 !! k
  = match P !! k with
    | Some v =>
        match M !! k with
        | None => Some (VStr v)
        | Some old => if falsy old && truthy (VStr v) then Some (VStr v) else Some old
        end
    | None => M !! k
    end.
Proof.
  unfold merge_parsed. revert k.
  apply (map_fold_weak_ind (λ r m, ∀ k,
    r.1 !! k = match m !! k with
               | Some v =>
                   match M !! k with
                   | None => Some (VStr v)
                   | Some old =>
                       if falsy old && truthy (VStr v) then Some (VStr v) else Some old
                   end
               | None => M !! k
               end)).
  - intros k. now rewrite lookup_empty.
  - intros i x m r Hi IH k. unfold merge_step, falsy in *.
    pose proof (IH i) as IHi. rewrite Hi in IHi.
    destruct (decide (k = i)) as [->|Hne].
    + rewrite lookup_insert_eq, <- IHi.
      destruct (r.1 !! i) as [old|] eqn:Hr; [|apply lookup_insert_eq].
      destruct (negb (truthy old) && truthy (VStr x)); simpl;
        [apply lookup_insert_eq | exact Hr].
    + rewrite (lookup_insert_ne m) by congruence. rewrite <- IH.
      destruct (r.1 !! i) as [old|]; [|now apply lookup_insert_ne].
      destruct (negb (truthy old) && truthy (VStr x)); simpl;
        [now apply lookup_insert_ne | reflexivity].
Qed.

Lemma merge_parsed_unchanged (M : gmap string value) (P : gmap string string) :
  (merge_parsed M P).2 = false → (merge_parsed M P).1 = M.
Proof.
  unfold merge_parsed.
  apply (map_fold_weak_ind (λ r (_ : gmap string string), r.2 = false → r.1 = M)).
  - reflexivity.
  - intros i x m r _ IH. unfold merge_step.
    destruct (r.1 !! i) as [old|]; [|discriminate].
    destruct (negb (truthy old) && truthy (VStr x)); [discriminate | exact IH].
Qed.

Lemma amended_merge_lookup (M : gmap string value) (P : gmap string string)
      (k : string) :
  amended_merge M P !! k
  = match P !! k with
    | Some v =>
        match M !! k with
        | None => Some (VStr v)
        | Some old => if falsy old && truthy (VStr v) then Some (VStr v) else Some old
        end
    | None => M !! k
    end.
Proof.
  unfold amended_merge. rewrite lookup_union, lookup_fmap, map_lookup_filter.
  destruct (P !! k) as [v|]; simpl; [|now destruct (M !! k)].
  destruct (M !! k) as [old|]; simpl.
  - case_guard as Hc; simpl.
    + now rewrite Hc.
    + apply not_true_is_false in Hc. now rewrite Hc.
  - reflexivity.
Qed.

(** C1 (amended). The merged metadata is [M] together with the parsed
    bindings whose key is absent from [M], or holds a blank (falsy) value in
    [M] while the parsed value is not empty; a binding of [M] with a
    non-blank value is kept as it is, and the change flag is raised whenever
    the result differs from [M]. *)
Theorem merge_fills_blank_only (M : gmap string value) (P : gmap string string) :
  (merge_parsed M P).1 = amended_merge M P
  ∧ (∀ k old, M !! k = Some old → truthy old = true →
              (merge_parsed M P).1 !! k = Some old)
  ∧ ((merge_parsed M P).2 = false → (merge_parsed M P).1 = M).
Proof.
  split; [|split].
  - apply map_eq. intros k. now rewrite merge_parsed_lookup, amended_merge_lookup.
  - intros k old Hk Ht. rewrite merge_parsed_lookup, Hk.
    unfold falsy. rewrite Ht. simpl. now destruct (P !! k).
  - apply merge_parsed_unchanged.
Qed.

Lemma merge_fills_blank_only_witness :
  (merge_parsed entered_metadata (parse_text_for_metadata invoice_text)).1 !! "value"
  = Some (VStr "1250.00").
Proof.
  apply (proj1 (proj2 (merge_fills_blank_only entered_metadata
                         (parse_text_for_metadata invoice_text)))).
  - vm_compute. exact eq_refl.
  - vm_compute. exact eq_refl.
Defined.

(** The claim of C1 as it stands fails under each reading of "blank": with
    blank as falsy, a parsed empty string does not replace a stored 0; with
    blank as the empty string, a stored 0 is replaced; with blank as empty
    once trimmed, stored spaces are not replaced. *)
Lemma merge_claim_counterexample :
  (merge_parsed zero_consignee (parse_text_for_metadata text_blank_consignee)).1
  ≠ claimed_merge falsy zero_consignee (parse_text_for_metadata text_blank_consignee)
  ∧ (merge_parsed zero_consignee (parse_text_for_metadata text_named_consignee)).1
    ≠ claimed_merge is_empty_str zero_consignee
                    (parse_text_for_metadata text_named_consignee)
  ∧ (merge_parsed spaces_consignee (parse_text_for_metadata text_named_consignee)).1
    ≠ claimed_merge is_blank_trimmed spaces_consignee
                    (parse_text_for_metadata text_named_consignee).
Proof.
  repeat split; intros H; apply (f_equal (lookup "consignee")) in H;
    vm_compute in H; discriminate.
Qed.

Lemma merge_claim_fails_for_every_blank (blank : value → bool) :
  ∃ text, (merge_parsed zero_consignee (parse_text_for_metadata text)).1
          ≠ claimed_merge blank zero_consignee (parse_text_for_metadata text).
Proof.
  destruct (blank (VInt 0)) eqn:Hb.
  - exists text_blank_consignee. intros H.
    apply (f_equal (lookup "consignee")) in H.
    rewrite merge_parsed_lookup in H. unfold claimed_merge in H.
    rewrite lookup_union, lookup_fmap, map_lookup_filter in H.
    replace (parse_text_for_metadata text_blank_consignee !! "consignee")
      with (Some "") in H by (vm_compute; exact eq_refl).
    simpl in H. replace (zero_consignee !! "consignee") with (Some (VInt 0)) in H
      by (vm_compute; exact eq_refl).
    rewrite Hb in H. rewrite option_guard_True in H by reflexivity.
    simpl in H. discriminate.
  - exists text_named_consignee. intros H.
    apply (f_equal (lookup "consignee")) in H.
    rewrite merge_parsed_lookup in H. unfold claimed_merge in H.
    rewrite lookup_union, lookup_fmap, map_lookup_filter in H.
    replace (parse_text_for_metadata text_named_consignee !! "consignee")
      with (Some "ACME") in H by (vm_compute; exact eq_refl).
    simpl in H. replace (zero_consignee !! "consignee") with (Some (VInt 0)) in H
      by (vm_compute; exact eq_refl).
    rewrite Hb in H. rewrite option_guard_False in H by discriminate.
    simpl in H. discriminate.
Qed.

(** ** The example of the specification *)

(** The claim of C4 fails on the value: the parser does not return
    "1250.00" for the example text. *)
Lemma invoice_example_counterexample :
  parse_text_for_metadata invoice_text !! "value" ≠ Some "1250.00".
Proof. vm_compute. discriminate. Qed.

(** C4 (amended). On the example text the parser returns hs_code "8501",
    currency "USD", consignee "ABC Trading LLC" and value "8501", and nothing
    else: the first token of the normalised text that the value pattern
    matches is " 8501", the digits after "HS:".  The numeric clean-up keeps
    dots and strips commas: it turns "1,250.00" into "1250.00". *)
Theorem invoice_example :
  parse_text_for_metadata invoice_text
  = {[ "hs_code" := "8501"; "currency" := "USD";
       "consignee" := "ABC Trading LLC"; "value" := "8501" ]}
  ∧ (str_of ∘ group 1) <$> search re_value (sub re_spaces [" "%char] (chars invoice_text))
    = Some " 8501"
  ∧ str_of (sub re_not_numeric [] (chars "1,250.00")) = "1250.00".
Proof.
  split; [vm_compute; exact eq_refl |].
  split; vm_compute; exact eq_refl.
Qed.

(** ** The pipeline task *)

Lemma bind_run {A B} (c : task A) (k : A → task B) (w : world) :
  (c ≫= k) w = match c w with
               | (Returned a, w') => k a w'
               | (Raised exc, w') => (Raised exc, w')
               end.
Proof. reflexivity. Qed.

Lemma statuses_app (l1 l2 : list event) :
  statuses (l1 ++ l2) = statuses l1 ++ statuses l2.
Proof. unfold statuses. apply omap_app. Qed.

Lemma quiet_ret {A} (a : A) : quiet_task (mret a : task A).
Proof.
  intros w. split; [reflexivity |]. exists []. split; [|reflexivity].
  simpl. now rewrite app_nil_r.
Qed.

Lemma quiet_bind {A B} (c : task A) (k : A → task B) :
  quiet_task c → (∀ a, quiet_task (k a)) → quiet_task (c ≫= k).
Proof.
  intros Hc Hk w. rewrite bind_run.
  destruct (Hc w) as (Hf & new & Hev & Hst).
  destruct (c w) as [[a|exc] w1]; simpl in *.
  - destruct (Hk a w1) as (Hf' & new' & Hev' & Hst').
    split; [congruence |]. exists (new ++ new'). split.
    + rewrite Hev', Hev. now rewrite app_assoc.
    + now rewrite statuses_app, Hst, Hst'.
  - split; [exact Hf |]. eauto.
Qed.

Lemma quiet_try_except {A} (c : task A) (h : string → task A) :
  quiet_task c → (∀ exc, quiet_task (h exc)) → quiet_task (try_except c h).
Proof.
  intros Hc Hh w. unfold try_except.
  destruct (Hc w) as (Hf & new & Hev & Hst).
  destruct (c w) as [[a|exc] w1]; simpl in *.
  - split; [exact Hf |]. eauto.
  - destruct (Hh exc w1) as (Hf' & new' & Hev' & Hst').
    split; [congruence |]. exists (new ++ new'). split.
    + rewrite Hev', Hev. now rewrite app_assoc.
    + now rewrite statuses_app, Hst, Hst'.
Qed.

Lemma quiet_attempt (e : env) (s : site) (upd : store → store) :
  (∀ st, files (upd st) = files st) → quiet_task (attempt e s upd).
Proof.
  intros Hupd w. unfold attempt. destruct (fails e s); simpl.
  - split; [reflexivity |]. exists []. now rewrite app_nil_r.
  - split; [apply Hupd |]. exists []. now rewrite app_nil_r.
Qed.

Lemma quiet_log (ev : event) :
  statuses [ev] = [] → quiet_task (log ev).
Proof. intros Hev w. unfold log. simpl. split; [reflexivity |]. eauto. Qed.

Lemma quiet_read_db : quiet_task read_db.
Proof.
  intros w. unfold read_db. simpl. split; [reflexivity |].
  exists []. now rewrite app_nil_r.
Qed.

Lemma quiet_audit (e : env) (s : site) (entry : AuditLog) :
  quiet_task (audit e s entry).
Proof.
  unfold audit. apply quiet_bind; [now apply quiet_log |]. intros _.
  unfold try_pass. apply quiet_try_except; [now apply quiet_attempt |].
  intros _. apply quiet_ret.
Qed.

Lemma quiet_ocr_pdf_images (e : env) : quiet_task (ocr_pdf_images e).
Proof.
  unfold ocr_pdf_images. apply quiet_bind; [now apply quiet_log |]. intros _.
  apply quiet_bind; [now apply quiet_attempt |]. intros _.
  destruct (ocr_pages_raise e); [destruct (ocr_image e) |]; apply quiet_ret.
Qed.

Lemma quiet_extract_text (e : env) : quiet_task (extract_text e).
Proof.
  unfold extract_text. destruct (wants_ocr _); [|apply quiet_ret].
  apply quiet_bind; [apply quiet_ocr_pdf_images |]. intros ?. apply quiet_ret.
Qed.

Lemma quiet_merge_into_document (e : env) (doc : TradeDocument)
      (parsed : gmap string string) :
  quiet_task (merge_into_document e doc parsed).
Proof.
  unfold merge_into_document. destruct (decide (parsed = ∅)); [apply quiet_ret |].
  destruct (merge_parsed _ _) as [meta [|]]; [|apply quiet_ret].
  apply quiet_bind; [now apply quiet_attempt |]. intros _. apply quiet_audit.
Qed.

Lemma quiet_run_validation_for_document (e : env) (document_id : Z) :
  quiet_task (run_validation_for_document e document_id).
Proof.
  unfold run_validation_for_document.
  apply quiet_bind; [now apply quiet_attempt |]. intros _.
  apply quiet_bind; [apply quiet_read_db |]. intros st.
  destruct (List.find _ _) as [doc|]; [|apply quiet_ret].
  unfold persist_validation.
  apply quiet_bind.
  { unfold try_pass. apply quiet_try_except; [now apply quiet_attempt |].
    intros _. apply quiet_ret. }
  intros _. apply quiet_bind; [now apply quiet_attempt |]. intros _.
  apply quiet_bind; [apply quiet_audit |]. intros _. apply quiet_ret.
Qed.

Lemma status_of_set_file (st : store) (i : Z) (f : DocumentFile → DocumentFile)
      (s : extraction_status) :
  (∀ df, pk (f df) = pk df ∧ extraction_status_of (f df) = s) →
  status_of (set_file i f st) i = (λ _, s) <$> status_of st i.
Proof.
  intros Hf. unfold status_of, set_file. simpl.
  induction (files st) as [|df l IH]; [reflexivity |]. simpl.
  destruct (decide (pk df = i)) as [Heq|Hne].
  - rewrite bool_decide_true by (now rewrite (proj1 (Hf df))).
    rewrite bool_decide_true by exact Heq. simpl. f_equal. apply Hf.
  - rewrite bool_decide_false by exact Hne. exact IH.
Qed.

Lemma status_of_files (st st' : store) (i : Z) :
  files st = files st' → status_of st i = status_of st' i.
Proof. intros H. unfold status_of. now rewrite H. Qed.

Lemma get_file_pk (st : store) (i : Z) (df : DocumentFile) (doc : TradeDocument) :
  get_file st i = Some (df, doc) →
  pk df = i ∧ status_of st i = Some (extraction_status_of df).
Proof.
  unfold get_file, status_of.
  destruct (List.find _ (files st)) as [df'|] eqn:Hfind; [|discriminate].
  destruct (List.find _ (documents st)) as [doc'|]; [|discriminate].
  intros [= -> ->]. split; [|reflexivity].
  apply find_some in Hfind as [_ Hpk]. now apply bool_decide_eq_true in Hpk.
Qed.

(** A run of the statements inside [try] either raises before a status is
    written, or writes [done] once, with the text, and nothing else to the
    file rows. *)
Lemma task_body_run (e : env) (df : DocumentFile) (doc : TradeDocument) (w : world) :
  ∃ new,
    events (task_body e df doc w).2 = events w ++ new
    ∧ ((statuses new = []
        ∧ files (db (task_body e df doc w).2) = files (db w)
        ∧ ∃ exc, (task_body e df doc w).1 = Raised exc)
       ∨ (statuses new = [(pk df, STATUS_DONE)]
          ∧ ∃ t, files (db (task_body e df doc w).2)
                 = files (set_file (pk df)
                            (λ r, with_status STATUS_DONE (with_text t r)) (db w)))).
Proof.
  destruct (task_body e df doc w) as [r w2] eqn:Hrun. simpl.
  unfold task_body in Hrun. rewrite bind_run in Hrun.
  destruct (quiet_extract_text e w) as (Hf1 & new1 & Hev1 & Hst1).
  destruct (extract_text e w) as [[extracted|exc] wa]; simpl in Hf1, Hev1.
  2:{ injection Hrun as <- <-. exists new1. split; [exact Hev1 |]. left. eauto. }
  rewrite bind_run in Hrun. unfold save_extracted in Hrun at 1.
  rewrite bind_run in Hrun. unfold attempt in Hrun at 1.
  destruct (fails e SaveExtracted) as [exc|].
  { injection Hrun as <- <-. exists new1. split; [exact Hev1 |]. left. eauto. }
  unfold log in Hrun at 1. cbv beta iota in Hrun.
  match type of Hrun with
  | (?c ≫= ?k) ?w0 = _ =>
      assert (quiet_task (c ≫= k)) as Hq;
        [|destruct (Hq w0) as (Hf2 & new2 & Hev2 & Hst2)]
  end.
  { apply quiet_bind; [apply quiet_merge_into_document |]. intros _.
    apply quiet_bind; [apply quiet_run_validation_for_document |]. intros _.
    apply quiet_ret. }
  rewrite Hrun in Hf2, Hev2. simpl in Hf2, Hev2.
  exists (new1 ++ [status_saved (pk df) STATUS_DONE] ++ new2). split.
  - rewrite Hev2, Hev1. now rewrite <- !app_assoc.
  - right. split.
    + rewrite !statuses_app, Hst1, Hst2. reflexivity.
    + exists (truncated extracted). rewrite Hf2. unfold set_file. simpl.
      now rewrite Hf1.
Qed.

(** The world once the status [running] is stored. *)
Lemma task_run_guarded (e : env) (w : world) (i : Z)
      (df : DocumentFile) (doc : TradeDocument) :
  get_file (db w) i = Some (df, doc) →
  fails e GetFile = None → fails e SaveRunning = None → fails e FilePath = None →
  extract_text_and_parse_task e i w
  = try_except (task_body e df doc) (on_exception e df)
      (World (set_file (pk df) (with_status STATUS_RUNNING) (db w))
             (events w ++ [status_saved (pk df) STATUS_RUNNING])).
Proof.
  intros Hget HG HR HP. unfold extract_text_and_parse_task.
  rewrite bind_run. unfold attempt at 1. rewrite HG.
  rewrite bind_run. unfold read_db at 1. cbv beta iota. cbn [db events].
  rewrite Hget. rewrite bind_run. unfold save_status at 1.
  rewrite bind_run. unfold attempt at 1. rewrite HR.
  unfold log at 1. cbv beta iota. cbn [db events].
  rewrite bind_run. unfold attempt at 1. rewrite HP. reflexivity.
Qed.

Lemma on_exception_run (e : env) (df : DocumentFile) (exc : string) (w : world) :
  fails e SaveFailed = None →
  let entry := extraction_failed (pk df) exc (format_exc e exc) in
  ∃ w3,
    on_exception e df exc w = (Returned (failed exc), w3)
    ∧ files (db w3) = files (set_file (pk df) (with_status STATUS_FAILED) (db w))
    ∧ events w3
      = events w ++ [status_saved (pk df) STATUS_FAILED; audit_attempted entry]
    ∧ audit_log (db w3)
      = audit_log (db w)
          ++ (if fails e AuditFailed is Some _ then [] else [entry]).
Proof.
  intros HF entry. unfold on_exception, save_status, audit, try_pass, try_except.
  rewrite !bind_run. unfold attempt at 1. rewrite HF. unfold log at 1.
  cbv beta iota. rewrite !bind_run. unfold log at 1. cbv beta iota.
  unfold attempt. destruct (fails e AuditFailed); simpl; eexists;
    (split; [reflexivity |]); simpl; rewrite <- ?app_assoc, ?app_nil_r; auto.
Qed.


(** C8 (amended). When the look-up of the file, the write of [running], the
    resolution of the file path and the handler's own write of [failed] do
    not raise, the task returns a payload whatever else raises: the payload
    of the statements inside [try] when they return, and otherwise the
    failure payload with the error text, the status [failed] stored, and the
    creation of the audit entry with the error text and the trace attempted. *)
Theorem failure_absorption (e : env) (w : world) (i : Z)
        (df : DocumentFile) (doc : TradeDocument) :
  get_file (db w) i = Some (df, doc) →
  fails e GetFile = None → fails e SaveRunning = None →
  fails e FilePath = None → fails e SaveFailed = None →
  let w1 := World (set_file (pk df) (with_status STATUS_RUNNING) (db w))
                  (events w ++ [status_saved (pk df) STATUS_RUNNING]) in
  let entry exc := extraction_failed i exc (format_exc e exc) in
  match task_body e df doc w1 with
  | (Returned p, w2) => extract_text_and_parse_task e i w = (Returned p, w2)
  | (Raised exc, w2) =>
      ∃ w3,
        extract_text_and_parse_task e i w = (Returned (failed exc), w3)
        ∧ status_of (db w3) i = Some STATUS_FAILED
        ∧ events w3
          = events w2 ++ [status_saved i STATUS_FAILED; audit_attempted (entry exc)]
        ∧ (fails e AuditFailed = None →
           audit_log (db w3) = audit_log (db w2) ++ [entry exc])
  end.
Proof.
  intros Hget HG HR HP HF w1 entry.
  rewrite (task_run_guarded e w i df doc Hget HG HR HP). fold w1.
  destruct (get_file_pk _ _ _ _ Hget) as [Hpk Hst].
  unfold try_except.
  destruct (task_body_run e df doc w1) as (new & _ & Hcases).
  destruct (task_body e df doc w1) as [[p|exc] w2]; [reflexivity |].
  destruct (on_exception_run e df exc w2 HF) as (w3 & Hrun & Hfiles & Hev & Hlog).
  exists w3. subst entry. cbv beta in *. rewrite <- Hpk.
  split; [exact Hrun |]. split; [|split; [exact Hev |]].
  - rewrite (status_of_files _ _ _ Hfiles).
    rewrite (status_of_set_file _ _ _ STATUS_FAILED) by (intros r; split; reflexivity).
    assert (status_of (db w1) (pk df) = Some STATUS_RUNNING) as Hw1.
    { subst w1. cbn [db].
      rewrite (status_of_set_file _ _ _ STATUS_RUNNING) by (intros r; split; reflexivity).
      rewrite Hpk, Hst. reflexivity. }
    destruct Hcases as [(_ & Hf & _) | (_ & t & Hf)].
    + rewrite (status_of_files _ _ _ Hf), Hw1. reflexivity.
    + rewrite (status_of_files _ _ _ Hf).
      rewrite (status_of_set_file _ _ _ STATUS_DONE) by (intros r; split; reflexivity).
      rewrite Hw1. reflexivity.
  - intros HA. rewrite Hlog, HA. reflexivity.
Qed.

Lemma failure_absorption_witness :
  ∃ w3,
    extract_text_and_parse_task (text_env text_save_fails) 5 file_world
    = (Returned (failed "database is locked"), w3)
    ∧ status_of (db w3) 5 = Some STATUS_FAILED.
Proof.
  pose proof (failure_absorption (text_env text_save_fails) file_world 5
                invoice_file invoice_doc eq_refl eq_refl eq_refl eq_refl eq_refl)
    as H.
  cbv zeta in H.
  destruct (task_body _ _ _ _) as [[p|exc] w2] eqn:Hbody in H.
  - vm_compute in Hbody. discriminate.
  - destruct H as (w3 & Hrun & Hst & _). exists w3.
    vm_compute in Hbody. injection Hbody as <- _. split; [exact Hrun | exact Hst].
Defined.

(** The claim of C8 as it stands fails: on a stored file, an exception raised
    inside [try] leaves the task when the handler's own write is refused too,
    and an exception of the path resolution, which precedes [try], leaves it
    as well. *)
Lemma failure_absorption_counterexample :
  get_file (db file_world) 5 = Some (invoice_file, invoice_doc)
  ∧ (extract_text_and_parse_task (text_env row_deleted) 5 file_world).1
    = Raised "Save with update_fields did not affect any rows."
  ∧ (extract_text_and_parse_task (text_env no_local_path) 5 file_world).1
    = Raised "This backend doesn't support absolute paths.".
Proof. repeat split; vm_compute; exact eq_refl. Qed.

(** ** Moves of the extraction status *)

Lemma task_run_prefix (e : env) (w : world) (i : Z) :
  extract_text_and_parse_task e i w
  = match fails e GetFile with
    | Some x => (Raised x, w)
    | None =>
        match get_file (db w) i with
        | None => (Returned (not_found i), World (db w) (events w))
        | Some (df, doc) =>
            match fails e SaveRunning with
            | Some x => (Raised x, World (db w) (events w))
            | None =>
                let w1 :=
                  World (set_file (pk df) (with_status STATUS_RUNNING) (db w))
                        (events w ++ [status_saved (pk df) STATUS_RUNNING]) in
                match fails e FilePath with
                | Some x => (Raised x, w1)
                | None => try_except (task_body e df doc) (on_exception e df) w1
                end
            end
        end
    end.
Proof.
  unfold extract_text_and_parse_task.
  rewrite bind_run. unfold attempt at 1. destruct (fails e GetFile); [reflexivity |].
  rewrite bind_run. unfold read_db at 1. cbv beta iota. cbn [db events].
  destruct (get_file (db w) i) as [[df doc]|]; [|reflexivity].
  rewrite bind_run. unfold save_status at 1.
  rewrite bind_run. unfold attempt at 1.
  destruct (fails e SaveRunning); [reflexivity |].
  unfold log at 1. cbv beta iota zeta. cbn [db events].
  rewrite bind_run. unfold attempt at 1.
  destruct (fails e FilePath); reflexivity.
Qed.





(** ** The HS code *)

Lemma run_le_length (p : ascii → bool) (l : list ascii) : run p l ≤ length l.
Proof. induction l as [|c l IH]; simpl; [lia |]. destruct (p c); simpl; lia. Qed.

Lemma run_lookup_lt (p : ascii → bool) (l : list ascii) (k : nat) :
  k < run p l → ∃ c, l !! k = Some c ∧ p c = true.
Proof.
  revert k. induction l as [|c l IH]; intros k; simpl; [lia |].
  destruct (p c) eqn:Hc; [|lia]. destruct k as [|k]; [eauto |].
  intros Hk. apply IH. lia.
Qed.

Lemma run_lookup_end (p : ascii → bool) (l : list ascii) (c : ascii) :
  l !! run p l = Some c → p c = false.
Proof.
  induction l as [|c' l IH]; simpl; [discriminate |].
  destruct (p c') eqn:Hc; simpl; [exact IH | congruence].
Qed.

Lemma head_drop (l : list ascii) (k : nat) : head (drop k l) = l !! k.
Proof. rewrite head_lookup, lookup_drop. f_equal. lia. Qed.

Lemma head_seen (l sn : list ascii) (k : nat) :
  0 < k → k ≤ length l → head (rev (take k l) ++ sn) = l !! (k - 1).
Proof.
  intros Hk Hlen. destruct k as [|k]; [lia |].
  replace (S k - 1) with k by lia.
  destruct (l !! k) as [x|] eqn:Hx.
  - rewrite (take_S_r l k x Hx), rev_app_distr. reflexivity.
  - apply lookup_ge_None in Hx. lia.
Qed.

Lemma flat_map_all_nil {A B} (f : A → list B) (l : list A) :
  (∀ x, In x l → f x = []) → flat_map f l = [].
Proof.
  induction l as [|a l IH]; intros H; simpl; [reflexivity |].
  rewrite (H a) by now left. apply IH. intros x Hx. apply H. now right.
Qed.

Lemma flat_map_of_map {A B C} (f : B → list C) (g : A → B) (l : list A) :
  flat_map f (map g l) = flat_map (λ x, f (g x)) l.
Proof. induction l as [|a l IH]; simpl; [reflexivity | now rewrite IH]. Qed.

(** A greedy quantifier whose shorter repetitions leave the rest of the
    pattern without a match: only the longest repetition counts. *)
Lemma rep_greedy_then (p : ascii → bool) (lo : nat) (hi : option nat)
      (K : mstate → list mstate) (st : mstate) :
  let top := match hi with
             | Some h => h `min` run p (rest st)
             | None => run p (rest st)
             end in
  (∀ k, lo ≤ k → k < top → K (advance k st) = []) →
  flat_map K (matches (Rep p lo hi true) st)
  = if decide (lo ≤ top) then K (advance top st) else [].
Proof.
  intros top Hshort. cbn [matches]. unfold counts. fold top.
  rewrite flat_map_of_map.
  destruct (decide (lo ≤ top)) as [Hle|Hgt].
  - replace (S top - lo) with (S (top - lo)) by lia.
    rewrite seq_S, rev_app_distr. cbn [rev app flat_map].
    replace (lo + (top - lo)) with top by lia.
    rewrite flat_map_all_nil; [apply app_nil_r |].
    intros k Hk. apply in_rev, in_seq in Hk. apply Hshort; lia.
  - replace (S top - lo) with 0 by lia. reflexivity.
Qed.

Lemma digit_is_word (c : ascii) : is_digit c = true → is_word c = true.
Proof. unfold is_word. intros ->. reflexivity. Qed.

(** [([0-9]{lo,hi})\b]: the whole run of digits, when its length is in range
    and no word character follows it. *)
Lemma digits_group_boundary (lo hi : nat) (st : mstate) :
  0 < lo →
  matches (Seq (Grp 1 (Rep is_digit lo (Some hi) true)) Bnd) st
  = let n := run is_digit (rest st) in
    if (lo <=? n) && (n <=? hi) && negb (is_word_opt (head (drop n (rest st))))
    then [close_group 1 st (advance n st)]
    else [].
Proof.
  intros Hlo. cbn [matches].
  change (map (λ k, advance k st)
              (counts lo (Some hi) true (run is_digit (rest st))))
    with (matches (Rep is_digit lo (Some hi) true) st).
  rewrite flat_map_of_map.
  set (n := run is_digit (rest st)).
  assert (∀ k, 0 < k → k ≤ n →
               is_word_opt (head (seen (close_group 1 st (advance k st)))) = true)
    as Hprev.
  { intros k Hk Hkn. cbn [close_group advance seen rest].
    rewrite head_seen by (pose proof (run_le_length is_digit (rest st)); lia).
    destruct (run_lookup_lt is_digit (rest st) (k - 1)) as (c & -> & Hc);
      [fold n; lia |].
    now apply digit_is_word. }
  assert (∀ k, is_word_opt (head (rest (close_group 1 st (advance k st))))
               = is_word_opt (rest st !! k)) as Hnext.
  { intros k. cbn [close_group advance seen rest]. now rewrite head_drop. }
  rewrite rep_greedy_then.
  - fold n. destruct (decide (lo ≤ hi `min` n)) as [Hle|Hgt].
    + unfold at_boundary. rewrite Hprev, Hnext by lia.
      rewrite (proj2 (Nat.leb_le lo n)) by lia.
      destruct (Nat.leb_spec n hi) as [Hn|Hn]; cbn [andb].
      * replace (hi `min` n) with n by lia. rewrite head_drop.
        destruct (is_word_opt (rest st !! n)); reflexivity.
      * replace (hi `min` n) with hi by lia.
        destruct (run_lookup_lt is_digit (rest st) hi) as (c & -> & Hc);
          [fold n; lia |].
        cbn [is_word_opt]. now rewrite (digit_is_word c Hc).
    + destruct (Nat.leb_spec lo n) as [H1|H1]; [|reflexivity].
      destruct (Nat.leb_spec n hi) as [H2|H2]; [lia | reflexivity].
  - fold n. intros k Hk1 Hk2. unfold at_boundary.
    rewrite Hprev, Hnext by lia.
    destruct (run_lookup_lt is_digit (rest st) k) as (c & -> & Hc);
      [fold n; lia |].
    cbn [is_word_opt]. now rewrite (digit_is_word c Hc).
Qed.

Lemma colon_space_not_digit (c : ascii) :
  colon_space c = true → is_digit c = false.
Proof.
  destruct c as [[] [] [] [] [] [] [] []]; vm_compute; congruence.
Qed.

Lemma letter_H_is_word (c : ascii) : eq_ci "H" c = true → is_word c = true.
Proof.
  destruct c as [[] [] [] [] [] [] [] []]; vm_compute; congruence.
Qed.

Lemma matches_seq (r1 r2 : regex) (st : mstate) :
  matches (Seq r1 r2) st = flat_map (matches r2) (matches r1 st).
Proof. reflexivity. Qed.

Lemma matches_bnd (st : mstate) :
  matches Bnd st = if at_boundary st then [st] else [].
Proof. reflexivity. Qed.

Lemma flat_map_ext {A B} (f g : A → list B) :
  (∀ x, f x = g x) → ∀ l, flat_map f l = flat_map g l.
Proof.
  intros H l. induction l as [|a l IH]; simpl; [reflexivity |].
  now rewrite H, IH.
Qed.

(** [[:\s]*([0-9]{4,10})\b]: the separators are all taken. *)
Lemma separators_then_digits (st : mstate) :
  matches (Seq (star colon_space)
               (Seq (Grp 1 (Rep is_digit 4 (Some 10) true)) Bnd)) st
  = matches (Seq (Grp 1 (Rep is_digit 4 (Some 10) true)) Bnd)
            (advance (run colon_space (rest st)) st).
Proof.
  rewrite (matches_seq (star colon_space) _ st). unfold star.
  rewrite rep_greedy_then.
  - rewrite decide_True by lia. reflexivity.
  - intros k _ Hk. rewrite digits_group_boundary by lia.
    cbn [advance rest].
    destruct (run_lookup_lt colon_space (rest st) k Hk) as (c & Hc & Hsep).
    destruct (drop k (rest st)) as [|c' l] eqn:Hdrop.
    + reflexivity.
    + assert (c' = c) as ->.
      { pose proof (head_drop (rest st) k) as Hh. rewrite Hdrop, Hc in Hh.
        now injection Hh. }
      cbn [run]. now rewrite (colon_space_not_digit c Hsep).
Qed.

Lemma re_hs_unfold :
  re_hs = Seq Bnd (Seq (Seq (Cls (chr_ci "H")) (Cls (chr_ci "S")))
                       (Seq (star colon_space)
                            (Seq (Grp 1 (Rep is_digit 4 (Some 10) true)) Bnd))).
Proof. reflexivity. Qed.

Lemma group_closed (sn rs : list ascii) (st0 : mstate) (n : nat) :
  n ≤ length (rest st0) →
  group 1 (RMatch (MState sn rs []) (close_group 1 st0 (advance n st0)))
  = take n (rest st0).
Proof.
  intros Hn. unfold group. cbn [m_end close_group caps advance rest assoc Nat.eqb default].
  unfold Datatypes.id. rewrite length_drop. f_equal. lia.
Qed.

(** The pattern of the HS code at one position. *)
Lemma hs_match_at (sn rs : list ascii) :
  group 1 <$> match_at re_hs sn rs = hs_at sn rs.
Proof.
  unfold match_at. rewrite re_hs_unfold.
  set (tail := Seq (star colon_space)
                   (Seq (Grp 1 (Rep is_digit 4 (Some 10) true)) Bnd)).
  rewrite (matches_seq Bnd), matches_bnd.
  rewrite (flat_map_ext _ _ (λ st, matches_seq (Seq _ _) tail st)).
  rewrite (flat_map_ext _ _ (λ st, f_equal (flat_map (matches tail))
                                     (matches_seq (Cls _) (Cls _) st))).
  unfold at_boundary. cbn [seen rest].
  destruct rs as [|h [|s tl]].
  - cbn [hs_at head is_word_opt]. rewrite xorb_false_r.
    destruct (is_word_opt (head sn)); reflexivity.
  - cbn [hs_at head is_word_opt].
    destruct (xorb _ _); [|reflexivity].
    cbn [flat_map matches rest advance take drop].
    destruct (chr_ci "H" h); reflexivity.
  - cbn [hs_at head is_word_opt]. unfold chr_ci.
    destruct (eq_ci "H" h) eqn:HH.
    2:{ destruct (xorb _ _); [|reflexivity].
        cbn [flat_map matches rest]. rewrite HH. reflexivity. }
    rewrite (letter_H_is_word h HH), xorb_true_r.
    destruct (is_word_opt (head sn));
      [cbn [negb flat_map]; now rewrite andb_false_r |].
    cbn [negb flat_map andb matches rest]. rewrite HH.
    cbn [flat_map advance rest seen take drop rev app].
    destruct (eq_ci "S" s); [|reflexivity]. cbn [flat_map andb].
    rewrite ?app_nil_r. cbn [flat_map]. rewrite ?app_nil_r.
    change (advance 1 (advance 1 (MState sn (h :: s :: tl) [])))
      with (MState (s :: h :: sn) tl []).
    unfold tail. rewrite separators_then_digits.
    rewrite digits_group_boundary by lia.
    cbn [advance rest seen caps].
    match goal with
    | |- context [if ?b then Some _ else None] => destruct b
    end; [|reflexivity].
    cbn [fmap option_fmap option_map]. f_equal.
    change (MState (rev (take (run colon_space tl) tl) ++ s :: h :: sn)
                   (drop (run colon_space tl) tl) [])
      with (advance (run colon_space tl) (MState (s :: h :: sn) tl [])).
    rewrite group_closed; [reflexivity |]. apply run_le_length.
Qed.

(** The pattern of the six digits at one position. *)
Lemma six_match_at (sn rs : list ascii) :
  group 1 <$> match_at re_six sn rs = six_at sn rs.
Proof.
  unfold match_at, six_at.
  change re_six with (Seq Bnd (Seq (Grp 1 (Rep is_digit 6 (Some 6) true)) Bnd)).
  rewrite (matches_seq Bnd), matches_bnd.
  unfold at_boundary. cbn [seen rest].
  destruct (Nat.eqb_spec (run is_digit rs) 6) as [Hn|Hn].
  - assert (is_word_opt (head rs) = true) as ->.
    { destruct (run_lookup_lt is_digit rs 0) as (c & Hc & Hd); [lia |].
      rewrite head_lookup, Hc. now apply digit_is_word. }
    rewrite xorb_true_r, andb_true_r.
    destruct (is_word_opt (head sn)); [reflexivity |].
    cbn [negb flat_map andb]. rewrite app_nil_r.
    rewrite digits_group_boundary by lia. cbn [rest]. rewrite Hn.
    cbn [Nat.leb andb].
    destruct (negb _); [|reflexivity].
    cbn [fmap option_fmap option_map]. f_equal.
    rewrite group_closed; [reflexivity |].
    cbn [rest]. rewrite <- Hn. apply run_le_length.
  - rewrite andb_false_r. cbn [andb].
    destruct (xorb _ _); [|reflexivity].
    cbn [flat_map]. rewrite app_nil_r.
    rewrite digits_group_boundary by lia. cbn [rest].
    destruct (Nat.leb_spec 6 (run is_digit rs)) as [H1|H1]; [|reflexivity].
    destruct (Nat.leb_spec (run is_digit rs) 6) as [H2|H2]; [lia | reflexivity].
Qed.

Lemma scan_ext {A} (f g : list ascii → list ascii → option A) (sn rs : list ascii) :
  (∀ sn' rs', f sn' rs' = g sn' rs') → scan f sn rs = scan g sn rs.
Proof.
  intros H. revert sn. induction rs as [|c rs IH]; intros sn; simpl;
    rewrite H; [reflexivity |]. destruct (g sn (c :: rs)); [reflexivity | apply IH].
Qed.

(** [re.search] tries the positions from the left. *)
Lemma search_from_scan (r : regex) (sn rs : list ascii) :
  group 1 <$> search_from r sn rs
  = scan (λ sn' rs', group 1 <$> match_at r sn' rs') sn rs.
Proof.
  revert sn. induction rs as [|c rs IH]; intros sn; simpl.
  - destruct (match_at r sn []); reflexivity.
  - destruct (match_at r sn (c :: rs)); [reflexivity | apply IH].
Qed.

(** The first element of [re.findall] is the group of [re.search]. *)
Lemma findall_head (r : regex) (s : list ascii) :
  head (findall r s) = group 1 <$> search r s.
Proof.
  unfold findall, search. cbn [finditer_go].
  destruct (search_from r [] s) as [m|]; [|reflexivity].
  destruct (length (group0 m)); [destruct (rest (m_end m)) |]; reflexivity.
Qed.

Lemma collapse_ws_in_run (l : list ascii) :
  collapse_ws true l = collapse_ws false (drop (run is_space l) l).
Proof.
  induction l as [|c l IH]; [reflexivity |]. simpl.
  destruct (is_space c) eqn:Hc; simpl; [exact IH | now rewrite Hc].
Qed.

Lemma spaces_match_at (sn rs : list ascii) :
  match_at re_spaces sn rs
  = match run is_space rs with
    | 0 => None
    | S k => Some (RMatch (MState sn rs []) (advance (S k) (MState sn rs [])))
    end.
Proof.
  unfold match_at, re_spaces, plus. cbn [matches rest]. unfold counts.
  destruct (run is_space rs) as [|k]; [reflexivity |].
  replace (S (S k) - 1) with (S k) by lia.
  rewrite seq_S, rev_app_distr. reflexivity.
Qed.

(** [re.sub(r'\s+', ' ', s)] replaces every run of white space by a space. *)
Lemma sub_spaces_collapse (fuel : nat) (sn rs : list ascii) :
  length rs < fuel →
  sub_go fuel re_spaces [" "%char] sn rs = collapse_ws false rs.
Proof.
  revert sn rs. induction fuel as [|fuel IH]; intros sn rs Hlen; [lia |].
  cbn [sub_go]. rewrite spaces_match_at.
  destruct rs as [|c rs]; [reflexivity |]. cbn [run collapse_ws].
  destruct (is_space c) eqn:Hc.
  - unfold group0. cbn [m_start m_end advance rest seen].
    rewrite length_drop.
    pose proof (run_le_length is_space rs) as Hrun. cbn [length] in *.
    replace (S (length rs) - (S (length rs) - S (run is_space rs)))
      with (S (run is_space rs)) by lia.
    cbn [app drop]. f_equal. rewrite collapse_ws_in_run.
    apply IH. rewrite length_drop. lia.
  - f_equal. apply IH. cbn [length] in Hlen. lia.
Qed.

Lemma parse_hs_code_lookup (s_norm : list ascii) :
  parse_hs_code s_norm ∅ !! "hs_code"
  = match scan hs_at [] s_norm with
    | Some ds => Some (str_of ds)
    | None => str_of <$> scan six_at [] s_norm
    end.
Proof.
  unfold parse_hs_code.
  pose proof (findall_head re_hs s_norm) as Hhs.
  pose proof (findall_head re_six s_norm) as Hsix.
  unfold search in Hhs, Hsix. rewrite search_from_scan in Hhs, Hsix.
  rewrite (scan_ext _ hs_at) in Hhs by apply hs_match_at.
  rewrite (scan_ext _ six_at) in Hsix by apply six_match_at.
  rewrite <- Hhs, <- Hsix.
  destruct (findall re_hs s_norm) as [|c l]; cbn [head].
  - destruct (findall re_six s_norm) as [|c l]; cbn [head fmap option_fmap option_map].
    + apply lookup_empty.
    + apply lookup_insert_eq.
  - apply lookup_insert_eq.
Qed.

Lemma later_fields_keep_hs_code (s_norm s : list ascii) (res : gmap string string) :
  parse_party "Shipper" "shipper" s
    (parse_party "Consignee" "consignee" s
       (parse_awb s_norm
          (parse_container s_norm
             (parse_value s_norm (parse_currency s_norm res))))) !! "hs_code"
  = res !! "hs_code".
Proof.
  unfold parse_party, parse_awb, parse_container, parse_value, parse_currency.
  repeat match goal with
         | |- context [match ?x with _ => _ end] =>
             match type of x with
             | option _ => destruct x
             | list _ => destruct x
             end
         end;
    repeat (rewrite lookup_insert_ne by discriminate); reflexivity.
Qed.

(** C5 (amended). For every text the parser's hs_code is read off the text
    with its white space normalised: it is the run of digits of the leftmost
    "HS" (in either case) that no word character precedes and that is
    followed by colons and white space, if any, and then by a run of 4 to 10
    digits that no word character follows; when there is none, it is the
    leftmost run of exactly 6 digits that no word character precedes or
    follows; when there is none either, the key is left out. *)
Theorem hs_code_extraction (text : string) :
  parse_text_for_metadata text !! "hs_code" = amended_hs_code text.
Proof.
  destruct text as [|c t]; [apply lookup_empty |].
  unfold parse_text_for_metadata, amended_hs_code.
  set (s := chars (String c t)).
  rewrite later_fields_keep_hs_code, parse_hs_code_lookup.
  unfold sub. now rewrite sub_spaces_collapse by lia.
Qed.

(** The claim of C5 as it stands fails: in "XHS8501" the letters HS are
    followed by four digits, with or without separators allowed in between,
    and the parser returns no hs_code. *)
Lemma hs_code_counterexample :
  claimed_hs_code false "XHS8501" = Some "8501"
  ∧ claimed_hs_code true "XHS8501" = Some "8501"
  ∧ parse_text_for_metadata "XHS8501" !! "hs_code" = None.
Proof. repeat split; vm_compute; exact eq_refl. Qed.

(** ** Keys and shapes of the parsed fields *)

Lemma scan_some {A} (f : list ascii → list ascii → option A) (sn rs : list ascii) (a : A) :
  scan f sn rs = Some a → ∃ sn' rs', f sn' rs' = Some a.
Proof.
  revert sn. induction rs as [|c rs IH]; intros sn; simpl.
  - destruct (f sn []) eqn:Hf; [|discriminate]. intros [= <-]. eauto.
  - destruct (f sn (c :: rs)) eqn:Hf; [intros [= <-]; eauto | apply IH].
Qed.

Lemma run_take_all (p : ascii → bool) (l : list ascii) :
  forallb p (take (run p l) l) = true.
Proof.
  induction l as [|c l IH]; [reflexivity |]. simpl.
  destruct (p c) eqn:Hc; simpl; [now rewrite Hc | reflexivity].
Qed.

Lemma hs_at_shape (sn rs ds : list ascii) :
  hs_at sn rs = Some ds →
  forallb is_digit ds = true ∧ 4 ≤ length ds ≤ 10.
Proof.
  unfold hs_at. destruct rs as [|h [|s tl]]; try discriminate.
  destruct (_ && _ && negb (is_word_opt (head sn))); [|discriminate].
  set (tl' := drop (run colon_space tl) tl).
  destruct (Nat.leb_spec 4 (run is_digit tl')) as [H4|]; [|discriminate].
  destruct (Nat.leb_spec (run is_digit tl') 10) as [H10|]; [|discriminate].
  cbn [andb]. destruct (negb _); [|discriminate]. intros [= <-].
  split; [apply run_take_all |].
  rewrite length_take. pose proof (run_le_length is_digit tl'). lia.
Qed.

Lemma six_at_shape (sn rs ds : list ascii) :
  six_at sn rs = Some ds →
  forallb is_digit ds = true ∧ length ds = 6.
Proof.
  unfold six_at. destruct (negb (is_word_opt (head sn))); [|discriminate].
  destruct (Nat.eqb_spec (run is_digit rs) 6) as [H6|]; [|discriminate].
  cbn [andb]. destruct (negb _); [|discriminate]. intros [= <-].
  split; [rewrite <- H6; apply run_take_all |].
  rewrite length_take. pose proof (run_le_length is_digit rs). lia.
Qed.

(** X1. An hs_code is a string of 4 to 10 digits. *)
Theorem hs_code_is_digits (text v : string) :
  parse_text_for_metadata text !! "hs_code" = Some v →
  forallb is_digit (chars v) = true ∧ 4 ≤ len v ≤ 10.
Proof.
  destruct text as [|c t]; [discriminate |].
  unfold parse_text_for_metadata.
  rewrite later_fields_keep_hs_code, parse_hs_code_lookup.
  destruct (scan hs_at [] _) as [ds|] eqn:Hhs.
  - intros [= <-]. apply scan_some in Hhs as (sn & rs & Hat).
    apply hs_at_shape in Hat. now rewrite chars_str_of, len_str_of.
  - destruct (scan six_at [] _) as [ds|] eqn:Hsix; [|discriminate].
    intros [= <-]. apply scan_some in Hsix as (sn & rs & Hat).
    apply six_at_shape in Hat as [Hd Hl]. rewrite chars_str_of, len_str_of.
    split; [exact Hd | lia].
Qed.

Ltac step_keys :=
  repeat match goal with
         | |- context [match ?x with _ => _ end] =>
             match type of x with
             | option _ => destruct x
             | list _ => destruct x
             end
         end;
  intros H; try (now right);
  (apply lookup_insert_Some in H as [[<- _]|[_ H]]; [now left | now right]).

Lemma parse_hs_code_keys (s : list ascii) (res : gmap string string) (k v : string) :
  parse_hs_code s res !! k = Some v → k = "hs_code" ∨ res !! k = Some v.
Proof. unfold parse_hs_code. step_keys. Qed.

Lemma parse_currency_keys (s : list ascii) (res : gmap string string) (k v : string) :
  parse_currency s res !! k = Some v → k = "currency" ∨ res !! k = Some v.
Proof. unfold parse_currency. step_keys. Qed.

Lemma parse_value_keys (s : list ascii) (res : gmap string string) (k v : string) :
  parse_value s res !! k = Some v → k = "value" ∨ res !! k = Some v.
Proof. unfold parse_value. step_keys. Qed.

Lemma parse_container_keys (s : list ascii) (res : gmap string string) (k v : string) :
  parse_container s res !! k = Some v → k = "container_number" ∨ res !! k = Some v.
Proof. unfold parse_container. step_keys. Qed.

Lemma parse_awb_keys (s : list ascii) (res : gmap string string) (k v : string) :
  parse_awb s res !! k = Some v → k = "bol_awb_number" ∨ res !! k = Some v.
Proof. unfold parse_awb. step_keys. Qed.

Lemma parse_party_keys (label key : string) (s : list ascii)
      (res : gmap string string) (k v : string) :
  parse_party label key s res !! k = Some v → k = key ∨ res !! k = Some v.
Proof. unfold parse_party. step_keys. Qed.

(** X2. The keys the parser can produce are exactly the candidate fields of
    the matcher. *)
Theorem parsed_keys_are_possible_keys (k : string) :
  (∃ text, is_Some (parse_text_for_metadata text !! k)) ↔ k ∈ possible_keys.
Proof.
  split.
  - intros [text [v Hv]]. destruct text as [|c t]; [discriminate |].
    unfold parse_text_for_metadata in Hv.
    apply parse_party_keys in Hv as [->|Hv]; [repeat constructor |].
    apply parse_party_keys in Hv as [->|Hv]; [repeat constructor |].
    apply parse_awb_keys in Hv as [->|Hv]; [repeat constructor |].
    apply parse_container_keys in Hv as [->|Hv]; [repeat constructor |].
    apply parse_value_keys in Hv as [->|Hv]; [repeat constructor |].
    apply parse_currency_keys in Hv as [->|Hv]; [repeat constructor |].
    apply parse_hs_code_keys in Hv as [->|Hv]; [repeat constructor |].
    rewrite lookup_empty in Hv. discriminate.
  - unfold possible_keys. rewrite !elem_of_cons, elem_of_nil.
    intros [->|[->|[->|[->|[->|[->|[->|[]]]]]]]];
      first [ exists shipment_text; vm_compute; eauto; fail
            | exists invoice_text; vm_compute; eauto ].
Qed.

(** [re.sub] with a one-character class and an empty replacement deletes
    the characters of the class. *)
Lemma sub_class_deletes (q : ascii → bool) (fuel : nat) (sn rs : list ascii) :
  length rs < fuel →
  sub_go fuel (Cls q) [] sn rs = List.filter (λ c, negb (q c)) rs.
Proof.
  revert sn rs. induction fuel as [|fuel IH]; intros sn rs Hlen; [lia |].
  destruct rs as [|c rs]; [reflexivity |].
  cbn [sub_go]. unfold match_at. cbn [matches rest List.filter].
  destruct (q c); cbn [negb].
  - unfold group0. cbn [m_start m_end advance rest seen take drop length].
    rewrite drop_0. replace (S (length rs) - length rs) with 1 by lia.
    cbn [take length app]. apply IH. cbn [length] in Hlen. lia.
  - f_equal. apply IH. cbn [length] in Hlen. lia.
Qed.

Lemma filter_all (p q : ascii → bool) (l : list ascii) :
  (∀ c, q c = true → p c = true) → forallb p (List.filter q l) = true.
Proof.
  intros Hpq. induction l as [|c l IH]; [reflexivity |]. simpl.
  destruct (q c) eqn:Hc; simpl; [now rewrite (Hpq c Hc) | exact IH].
Qed.

(** X3. A parsed value is never empty and holds digits and dots only. *)
Theorem value_is_numeric (text v : string) :
  parse_text_for_metadata text !! "value" = Some v →
  v ≠ "" ∧ forallb is_numeric (chars v) = true.
Proof.
  destruct text as [|c t]; [discriminate |].
  unfold parse_text_for_metadata. intros Hv.
  apply parse_party_keys in Hv as [?|Hv]; [discriminate |].
  apply parse_party_keys in Hv as [?|Hv]; [discriminate |].
  apply parse_awb_keys in Hv as [?|Hv]; [discriminate |].
  apply parse_container_keys in Hv as [?|Hv]; [discriminate |].
  unfold parse_value in Hv.
  destruct (search re_value _) as [m|].
  2:{ apply parse_currency_keys in Hv as [?|Hv]; [discriminate |].
      apply parse_hs_code_keys in Hv as [?|Hv]; [discriminate |].
      rewrite lookup_empty in Hv. discriminate. }
  unfold sub, re_not_numeric in Hv. rewrite sub_class_deletes in Hv by lia.
  destruct (List.filter _ _) as [|d ds] eqn:Hf.
  { apply parse_currency_keys in Hv as [?|Hv]; [discriminate |].
    apply parse_hs_code_keys in Hv as [?|Hv]; [discriminate |].
    rewrite lookup_empty in Hv. discriminate. }
  rewrite lookup_insert_eq in Hv. injection Hv as <-.
  split; [discriminate |].
  change (String d (str_of ds)) with (str_of (d :: ds)).
  rewrite chars_str_of, <- Hf.
  apply filter_all. intros a. unfold is_numeric, compl, union, chr.
  rewrite negb_involutive, (Ascii.eqb_sym a). auto.
Qed.

(** *** What a match of a pattern consists of *)

Lemma search_from_some (r : regex) (sn rs : list ascii) (m : rmatch) :
  search_from r sn rs = Some m → ∃ sn' rs', match_at r sn' rs' = Some m.
Proof.
  revert sn. induction rs as [|c rs IH]; intros sn; simpl.
  - destruct (match_at r sn []) eqn:Hm; [|discriminate]. intros [= <-]. eauto.
  - destruct (match_at r sn (c :: rs)) eqn:Hm; [intros [= <-]; eauto | apply IH].
Qed.

Lemma match_at_some (r : regex) (sn rs : list ascii) (m : rmatch) :
  match_at r sn rs = Some m →
  m_start m = MState sn rs [] ∧ In (m_end m) (matches r (MState sn rs [])).
Proof.
  unfold match_at. destruct (matches r _) as [|st' l]; [discriminate |].
  intros [= <-]. split; [reflexivity | now left].
Qed.

Lemma in_matches_seq (r1 r2 : regex) (st st' : mstate) :
  In st' (matches (Seq r1 r2) st)
  ↔ ∃ st1, In st1 (matches r1 st) ∧ In st' (matches r2 st1).
Proof. cbn [matches]. apply in_flat_map. Qed.

Lemma in_matches_grp (n : nat) (r : regex) (st st' : mstate) :
  In st' (matches (Grp n r) st)
  → ∃ st1, In st1 (matches r st) ∧ st' = close_group n st st1.
Proof.
  cbn [matches]. intros (st1 & <- & Hin)%in_map_iff. eauto.
Qed.

Lemma in_matches_bnd (st st' : mstate) : In st' (matches Bnd st) → st' = st.
Proof.
  cbn [matches]. destruct (at_boundary st); [|intros []].
  intros [<-|[]]. reflexivity.
Qed.

Lemma in_matches_rep (p : ascii → bool) (lo : nat) (hi : option nat) (g : bool)
      (st st' : mstate) :
  In st' (matches (Rep p lo hi g) st)
  → ∃ k, st' = advance k st ∧ lo ≤ k ≤ run p (rest st)
         ∧ match hi with Some h => k ≤ h | None => True end.
Proof.
  cbn [matches]. intros (k & <- & Hin)%in_map_iff. exists k.
  split; [reflexivity |]. unfold counts in Hin.
  assert (In k (seq lo (S (match hi with
                           | Some h => h `min` run p (rest st)
                           | None => run p (rest st)
                           end) - lo))) as Hk.
  { destruct g; [now apply in_rev in Hin | exact Hin]. }
  apply in_seq in Hk. destruct hi; split; lia.
Qed.

Lemma advance_0 (st : mstate) : advance 0 st = st.
Proof. destruct st as [sn rs cs]. unfold advance. simpl. now rewrite drop_0. Qed.

Lemma advance_advance (j k : nat) (st : mstate) :
  advance k (advance j st) = advance (j + k) st.
Proof.
  unfold advance. cbn [seen rest caps].
  rewrite drop_drop, <- (take_take_drop (rest st) j k), rev_app_distr.
  now rewrite <- app_assoc.
Qed.

Lemma in_matches_lit (l : list ascii) (st st' : mstate) :
  In st' (matches (seqs (map (λ c, Cls (chr c)) l)) st)
  → st' = advance (length l) st ∧ take (length l) (rest st) = l.
Proof.
  revert st st'. induction l as [|c l IH]; intros st st'.
  - cbn [map seqs matches length]. intros [<-|[]].
    rewrite advance_0. split; [reflexivity | apply take_0].
  - assert (∀ s', In s' (matches (Cls (chr c)) st) →
                  s' = advance 1 st ∧ take 1 (rest st) = [c]) as Hone.
    { intros s'. cbn [matches]. destruct (rest st) as [|d rs]; [intros [] |].
      unfold chr. destruct (Ascii.eqb_spec c d) as [->|]; [|intros []].
      intros [<-|[]]. split; reflexivity. }
    destruct l as [|c2 l]; [apply Hone |].
    change (seqs (map (λ c, Cls (chr c)) (c :: c2 :: l)))
      with (Seq (Cls (chr c)) (seqs (map (λ c, Cls (chr c)) (c2 :: l)))).
    intros (st1 & H1 & H2)%in_matches_seq.
    apply Hone in H1 as [-> Hc]. apply IH in H2 as [-> Hl].
    rewrite advance_advance. split; [reflexivity |].
    cbn [advance rest] in Hl.
    destruct (rest st) as [|d rs]; [discriminate |].
    cbn [take] in Hc. injection Hc as ->.
    cbn [drop] in Hl. rewrite drop_0 in Hl.
    change (take (length (c :: c2 :: l)) (c :: rs))
      with (c :: take (length (c2 :: l)) rs).
    now rewrite Hl.
Qed.

Lemma in_matches_alts (rs : list regex) (st st' : mstate) :
  rs ≠ [] → In st' (matches (alts rs) st) → ∃ r, In r rs ∧ In st' (matches r st).
Proof.
  induction rs as [|r rs IH]; [congruence |]. intros _.
  destruct rs as [|r2 rs].
  - cbn [alts]. intros H. exists r. split; [now left | exact H].
  - change (alts (r :: r2 :: rs)) with (Alt r (alts (r2 :: rs))).
    cbn [matches]. intros [H|H]%in_app_or.
    + exists r. split; [now left | exact H].
    + destruct (IH ltac:(discriminate) H) as (r' & Hin & Hm).
      exists r'. split; [now right | exact Hm].
Qed.

Lemma take_length_le (l p : list ascii) (k : nat) :
  take k l = p → length p = k → k ≤ length l.
Proof.
  intros <- Hlen. rewrite length_take in Hlen. lia.
Qed.

(** X4. A parsed currency is one of the eight codes of the pattern. *)
Theorem currency_is_known_code (text v : string) :
  parse_text_for_metadata text !! "currency" = Some v → v ∈ currency_codes.
Proof.
  destruct text as [|c t]; [discriminate |].
  unfold parse_text_for_metadata. intros Hv.
  apply parse_party_keys in Hv as [?|Hv]; [discriminate |].
  apply parse_party_keys in Hv as [?|Hv]; [discriminate |].
  apply parse_awb_keys in Hv as [?|Hv]; [discriminate |].
  apply parse_container_keys in Hv as [?|Hv]; [discriminate |].
  apply parse_value_keys in Hv as [?|Hv]; [discriminate |].
  unfold parse_currency in Hv.
  destruct (search re_currency _) as [m|] eqn:Hs.
  2:{ apply parse_hs_code_keys in Hv as [?|Hv]; [discriminate |].
      rewrite lookup_empty in Hv. discriminate. }
  rewrite lookup_insert_eq in Hv. injection Hv as <-.
  apply search_from_some in Hs as (sn & rs & Hm).
  apply match_at_some in Hm as [Hstart Hin].
  destruct m as [m0 st']. cbn [m_start m_end] in *. subst m0.
  change re_currency
    with (Seq Bnd (Seq (Grp 1 (alts (map lit currency_codes))) Bnd)) in Hin.
  apply in_matches_seq in Hin as (st0 & ->%in_matches_bnd & Hin).
  apply in_matches_seq in Hin as (st1 & Hg & ->%in_matches_bnd).
  apply in_matches_grp in Hg as (st2 & Ha & ->).
  apply in_matches_alts in Ha as (r & Hr & Hl); [|discriminate].
  apply in_map_iff in Hr as (code & <- & Hcode).
  apply in_matches_lit in Hl as [-> Htake].
  rewrite group_closed.
  - cbn [rest]. cbn [rest] in Htake. rewrite Htake.
    unfold chars. rewrite String.string_of_list_ascii_of_string.
    now apply list_elem_of_In.
  - cbn [rest] in *. eapply take_length_le; [exact Htake | reflexivity].
Qed.

Lemma forallb_take_run (p : ascii → bool) (l : list ascii) (n : nat) :
  n ≤ run p l → forallb p (take n l) = true.
Proof.
  revert n. induction l as [|c l IH]; intros n; simpl.
  - destruct n; reflexivity.
  - destruct n as [|n]; [reflexivity |]. destruct (p c) eqn:Hc; [|lia].
    intros Hn. simpl. rewrite Hc. apply IH. lia.
Qed.

(** X5. A parsed container number is four capital letters followed by seven
    digits. *)
Theorem container_number_shape (text v : string) :
  parse_text_for_metadata text !! "container_number" = Some v →
  container_shape (chars v) = true.
Proof.
  destruct text as [|c t]; [discriminate |].
  unfold parse_text_for_metadata. intros Hv.
  apply parse_party_keys in Hv as [?|Hv]; [discriminate |].
  apply parse_party_keys in Hv as [?|Hv]; [discriminate |].
  apply parse_awb_keys in Hv as [?|Hv]; [discriminate |].
  unfold parse_container in Hv.
  destruct (search re_container _) as [m|] eqn:Hs.
  2:{ apply parse_value_keys in Hv as [?|Hv]; [discriminate |].
      apply parse_currency_keys in Hv as [?|Hv]; [discriminate |].
      apply parse_hs_code_keys in Hv as [?|Hv]; [discriminate |].
      rewrite lookup_empty in Hv. discriminate. }
  rewrite lookup_insert_eq in Hv. injection Hv as <-.
  apply search_from_some in Hs as (sn & rs & Hm).
  apply match_at_some in Hm as [Hstart Hin].
  destruct m as [m0 st']. cbn [m_start m_end] in *. subst m0.
  change re_container
    with (Seq Bnd (Seq (Grp 1 (Seq (Rep is_upper 4 (Some 4) true)
                                   (Rep is_digit 7 (Some 7) true))) Bnd)) in Hin.
  apply in_matches_seq in Hin as (st0 & ->%in_matches_bnd & Hin).
  apply in_matches_seq in Hin as (st1 & Hg & ->%in_matches_bnd).
  apply in_matches_grp in Hg as (st2 & Ha & ->).
  apply in_matches_seq in Ha as (st3 & H4 & H7).
  apply in_matches_rep in H4 as (k4 & -> & [Hlo4 Hrun4] & Hhi4).
  apply in_matches_rep in H7 as (k7 & -> & [Hlo7 Hrun7] & Hhi7).
  assert (k4 = 4) as -> by lia. assert (k7 = 7) as -> by lia.
  cbn [advance rest] in Hrun4, Hrun7. rewrite advance_advance.
  pose proof (run_le_length is_upper rs) as Hlen4.
  pose proof (run_le_length is_digit (drop 4 rs)) as Hlen7.
  rewrite length_drop in Hlen7.
  rewrite group_closed by (cbn [rest]; lia). cbn [rest].
  rewrite chars_str_of. unfold container_shape.
  rewrite take_take, length_take.
  replace (4 `min` (4 + 7)) with 4 by lia.
  rewrite (forallb_take_run is_upper rs 4 Hrun4).
  replace (drop 4 (take (4 + 7) rs)) with (take 7 (drop 4 rs))
    by apply take_drop_commute.
  rewrite (forallb_take_run is_digit (drop 4 rs) 7 Hrun7).
  cbn [andb]. apply Nat.eqb_eq. lia.
Qed.

(** *** [strip] *)

Lemma lstrip_head (l : list ascii) :
  from_option is_space false (head (lstrip l)) = false.
Proof.
  induction l as [|c l IH]; [reflexivity |]. simpl.
  destruct (is_space c) eqn:Hc; [exact IH | simpl; exact Hc].
Qed.

Lemma lstrip_last (l : list ascii) :
  lstrip l ≠ [] → last (lstrip l) = last l.
Proof.
  induction l as [|c l IH]; [intros H; exfalso; now apply H |]. simpl.
  destruct (is_space c); [|reflexivity].
  intros Hne. rewrite (IH Hne).
  destruct l; [exfalso; now apply Hne | reflexivity].
Qed.

Lemma last_rev (l : list ascii) : last (rev l) = head l.
Proof.
  destruct l as [|c l]; [reflexivity |]. simpl. apply last_snoc.
Qed.

Lemma strip_chars_trimmed (l : list ascii) : trimmed (strip_chars l) = true.
Proof.
  unfold trimmed, strip_chars.
  pose proof (lstrip_head (rstrip l)) as Hh.
  destruct (lstrip (rstrip l)) as [|c m] eqn:Hs; [reflexivity |].
  simpl in Hh. rewrite Hh. cbn [negb andb].
  rewrite <- Hs, lstrip_last by (rewrite Hs; discriminate).
  unfold rstrip. rewrite last_rev. now rewrite lstrip_head.
Qed.

Lemma lstrip_fixed (l : list ascii) :
  from_option is_space false (head l) = false → lstrip l = l.
Proof. destruct l as [|c l]; [reflexivity |]. simpl. now intros ->. Qed.

Lemma trimmed_strip_chars (l : list ascii) :
  trimmed l = true → strip_chars l = l.
Proof.
  unfold trimmed, strip_chars, rstrip. destruct l as [|c l]; [reflexivity |].
  intros [Hh Hl]%andb_true_iff. apply negb_true_iff in Hh, Hl.
  rewrite (lstrip_fixed (rev (c :: l))).
  - rewrite rev_involutive. simpl. now rewrite Hh.
  - now rewrite <- last_rev, rev_involutive.
Qed.

(** [strip] is idempotent. *)
Lemma strip_strip (s : string) : strip (strip s) = strip s.
Proof.
  unfold strip. rewrite chars_str_of. f_equal.
  apply trimmed_strip_chars, strip_chars_trimmed.
Qed.

Lemma parse_party_trimmed (label key : string) (s : list ascii)
      (res : gmap string string) (v : string) :
  parse_party label key s res !! key = Some v →
  trimmed (chars v) = true ∨ res !! key = Some v.
Proof.
  unfold parse_party.
  destruct (search (re_label_columns label) s);
    [|destruct (search (re_label_words label) s)];
    try (now right);
    rewrite lookup_insert_eq; intros [= <-]; left;
    rewrite chars_str_of; apply strip_chars_trimmed.
Qed.

Lemma parse_awb_trimmed (s : list ascii) (res : gmap string string) (v : string) :
  parse_awb s res !! "bol_awb_number" = Some v →
  trimmed (chars v) = true ∨ res !! "bol_awb_number" = Some v.
Proof.
  unfold parse_awb. destruct (search re_awb s); [|now right].
  rewrite lookup_insert_eq. intros [= <-]. left.
  rewrite chars_str_of. apply strip_chars_trimmed.
Qed.

Ltac earlier_fields H :=
  repeat first
    [ apply parse_party_keys in H as [?|H]; [discriminate |]
    | apply parse_awb_keys in H as [?|H]; [discriminate |]
    | apply parse_container_keys in H as [?|H]; [discriminate |]
    | apply parse_value_keys in H as [?|H]; [discriminate |]
    | apply parse_currency_keys in H as [?|H]; [discriminate |]
    | apply parse_hs_code_keys in H as [?|H]; [discriminate |] ];
  try (rewrite lookup_empty in H; discriminate).

(** X6. The consignee, the shipper and the waybill number never begin or end
    with white space. *)
Theorem labelled_fields_are_trimmed (text k v : string) :
  k ∈ ["consignee"; "shipper"; "bol_awb_number"] →
  parse_text_for_metadata text !! k = Some v →
  trimmed (chars v) = true.
Proof.
  rewrite !elem_of_cons, elem_of_nil. intros [->|[->|[->|[]]]];
    (destruct text as [|c t]; [discriminate |]);
    unfold parse_text_for_metadata; intros Hv.
  - apply parse_party_keys in Hv as [?|Hv]; [discriminate |].
    apply parse_party_trimmed in Hv as [?|Hv]; [assumption |].
    earlier_fields Hv.
  - apply parse_party_trimmed in Hv as [?|Hv]; [assumption |].
    earlier_fields Hv.
  - apply parse_party_keys in Hv as [?|Hv]; [discriminate |].
    apply parse_party_keys in Hv as [?|Hv]; [discriminate |].
    apply parse_awb_trimmed in Hv as [?|Hv]; [assumption |].
    earlier_fields Hv.
Qed.

(** ** White-space normalisation *)

Lemma collapse_single_spaced (l : list ascii) (b : bool) :
  single_spaced b (collapse_ws b l) = true.
Proof.
  revert b. induction l as [|c l IH]; intros b; [reflexivity |]. simpl.
  destruct (is_space c) eqn:Hc.
  - destruct b; [apply IH |]. simpl. apply IH.
  - simpl. rewrite Hc. apply IH.
Qed.

Lemma single_spaced_collapse (l : list ascii) (b : bool) :
  single_spaced b l = true → collapse_ws b l = l.
Proof.
  revert b. induction l as [|c l IH]; intros b; [reflexivity |]. simpl.
  destruct (is_space c) eqn:Hc.
  - intros [[Heq Hb]%andb_true_iff Hl]%andb_true_iff.
    apply negb_true_iff in Hb. subst b.
    apply Ascii.eqb_eq in Heq. subst c. f_equal. now apply IH.
  - intros Hl. f_equal. now apply IH.
Qed.

Lemma collapse_keeps_text (l : list ascii) (b : bool) :
  List.filter (λ c, negb (is_space c)) (collapse_ws b l)
  = List.filter (λ c, negb (is_space c)) l.
Proof.
  revert b. induction l as [|c l IH]; intros b; [reflexivity |]. simpl.
  destruct (is_space c) eqn:Hc; simpl.
  - destruct b; [apply IH |]. simpl. apply IH.
  - rewrite Hc. simpl. f_equal. apply IH.
Qed.

(** X7. In the normalised text white space occurs as single spaces only, the
    other characters are those of the text in the same order, and
    normalising again changes nothing. *)
Theorem normalisation_single_spaces (s : list ascii) :
  let s_norm := sub re_spaces [" "%char] s in
  single_spaced false s_norm = true
  ∧ List.filter (λ c, negb (is_space c)) s_norm
    = List.filter (λ c, negb (is_space c)) s
  ∧ sub re_spaces [" "%char] s_norm = s_norm.
Proof.
  intros s_norm. subst s_norm. unfold sub.
  rewrite !sub_spaces_collapse by lia.
  split; [apply collapse_single_spaced |].
  split; [apply collapse_keeps_text |].
  apply single_spaced_collapse, collapse_single_spaced.
Qed.

(** ** More on the merge *)

Lemma merge_parsed_changed (M : gmap string value) (P : gmap string string) :
  (merge_parsed M P).2 = true → (merge_parsed M P).1 ≠ M.
Proof.
  unfold merge_parsed.
  cut ((∀ k, P !! k = None → (map_fold merge_step (M, false) P).1 !! k = M !! k)
       ∧ ((map_fold merge_step (M, false) P).2 = true
          → (map_fold merge_step (M, false) P).1 ≠ M)); [tauto |].
  apply (map_fold_weak_ind (λ r m,
    (∀ k, m !! k = None → r.1 !! k = M !! k) ∧ (r.2 = true → r.1 ≠ M))).
  - split; [reflexivity | discriminate].
  - intros i x m r Hi [Hkeep Hflag]. unfold merge_step.
    pose proof (Hkeep i Hi) as Hri.
    destruct (r.1 !! i) as [old|] eqn:Hold.
    + destruct (negb (truthy old) && truthy (VStr x)) eqn:Hc; cbn [fst snd].
      * split.
        -- intros k [Hk Hne]%lookup_insert_None.
           rewrite lookup_insert_ne by exact Hne. auto.
        -- intros _ Heq. apply (f_equal (lookup i)) in Heq.
           rewrite lookup_insert_eq, <- Hri in Heq. injection Heq as <-.
           apply andb_true_iff in Hc as [H1 H2]. rewrite H2 in H1. discriminate.
      * split; [|exact Hflag].
        intros k [Hk Hne]%lookup_insert_None. auto.
    + cbn [fst snd]. split.
      * intros k [Hk Hne]%lookup_insert_None.
        rewrite lookup_insert_ne by exact Hne. auto.
      * intros _ Heq. apply (f_equal (lookup i)) in Heq.
        rewrite lookup_insert_eq, <- Hri in Heq. discriminate.
Qed.

(** X8. The change flag of the merge is raised exactly when the merged
    metadata differ from the stored ones. *)
Theorem merge_flag_iff_changed (M : gmap string value) (P : gmap string string) :
  (merge_parsed M P).2 = true ↔ (merge_parsed M P).1 ≠ M.
Proof.
  split; [apply merge_parsed_changed |].
  intros Hne. destruct ((merge_parsed M P).2) eqn:Hf; [reflexivity |].
  exfalso. apply Hne. now apply merge_parsed_unchanged.
Qed.

(** X9. Merging the same parsed fields a second time changes nothing. *)
Theorem merge_idempotent (M : gmap string value) (P : gmap string string) :
  merge_parsed (merge_parsed M P).1 P = ((merge_parsed M P).1, false).
Proof.
  assert ((merge_parsed (merge_parsed M P).1 P).1 = (merge_parsed M P).1) as H1.
  { apply map_eq. intros k. rewrite !merge_parsed_lookup.
    destruct (P !! k) as [v|]; [|reflexivity].
    destruct (M !! k) as [old|].
    - destruct (falsy old && truthy (VStr v)) eqn:Hc.
      + apply andb_true_iff in Hc as [_ Hv]. unfold falsy. now rewrite Hv.
      + now rewrite Hc.
    - unfold falsy. destruct (truthy (VStr v)); reflexivity. }
  destruct (merge_parsed (merge_parsed M P).1 P) as [m b] eqn:Hm.
  cbn [fst] in H1. subst m. f_equal.
  destruct b; [|reflexivity]. exfalso.
  apply (merge_parsed_changed (merge_parsed M P).1 P); now rewrite Hm.
Qed.

(** X10. The merge deletes no key: the keys afterwards are those of the
    metadata and those of the parsed fields. *)
Theorem merge_keys (M : gmap string value) (P : gmap string string) :
  dom (merge_parsed M P).1 = dom M ∪ dom P.
Proof.
  apply set_eq. intros k.
  rewrite elem_of_union, !elem_of_dom, merge_parsed_lookup.
  destruct (P !! k) as [v|], (M !! k) as [old|];
    try destruct (falsy old && truthy (VStr v));
    split; intros H; try (destruct H as [H|H]); eauto;
    try (destruct H as [? H]; discriminate).
Qed.

(** ** More on matching and readiness *)

Lemma match_type_missing (st : store) (doc : TradeDocument)
      (mk : list (string * string)) acc (dtype : string) :
  (match_type st doc mk acc dtype).2
  = acc.2 ++ (if is_matched (entry_for st doc mk dtype) then [] else [dtype]).
Proof.
  unfold match_type, entry_for.
  destruct (decide (doc_type doc = dtype)); [simpl; now rewrite app_nil_r |].
  destruct (List.find _ _); simpl; [now rewrite app_nil_r | reflexivity].
Qed.

Lemma match_types_missing (st : store) (doc : TradeDocument)
      (mk : list (string * string)) (l : list string) acc :
  (foldl (match_type st doc mk) acc l).2
  = acc.2 ++ List.filter (λ d, negb (is_matched (entry_for st doc mk d))) l.
Proof.
  revert acc. induction l as [|d l IH]; intros acc; cbn [foldl List.filter].
  - now rewrite app_nil_r.
  - rewrite IH, match_type_missing.
    destruct (is_matched (entry_for st doc mk d)); cbn [negb].
    + now rewrite app_nil_r.
    + now rewrite <- app_assoc.
Qed.

Lemma entry_matched_spec (st : store) (doc : TradeDocument)
      (mk : list (string * string)) (dtype : string) :
  is_matched (entry_for st doc mk dtype) = true
  ↔ dtype = doc_type doc
    ∨ ∃ c, c ∈ documents st ∧ id c ≠ id doc ∧ uploader c = uploader doc
           ∧ doc_type c = dtype ∧ agrees mk c.
Proof.
  unfold entry_for. destruct (decide (doc_type doc = dtype)) as [<-|Hne].
  - split; [now left | reflexivity].
  - rewrite <- find_candidate_spec.
    destruct (List.find _ _) as [c|]; simpl.
    + split; [right; eauto | reflexivity].
    + split; [discriminate |]. intros [?|[c Hc]]; [congruence | discriminate].
Qed.

Lemma filter_nil_iff {A} (P : A → Prop) `{∀ x, Decision (P x)} (l : list A) :
  filter P l = [] ↔ ∀ x, x ∈ l → ¬ P x.
Proof.
  induction l as [|a l IH].
  - split; [intros _ x Hx; inversion Hx | reflexivity].
  - rewrite filter_cons. destruct (decide (P a)) as [Ha|Ha].
    + split; [discriminate |]. intros Hall. destruct (Hall a); [left | exact Ha].
    + rewrite IH. split.
      * intros Hall x [->|Hx]%elem_of_cons; auto.
      * intros Hall x Hx. apply Hall. now right.
Qed.

Lemma existing_files_spec (st : store) (doc : TradeDocument) (f : string) :
  f ∈ existing_files st doc
  ↔ ∃ df, df ∈ files st ∧ document df = id doc ∧ field_name df = f.
Proof.
  unfold existing_files. rewrite elem_of_list_to_set, list_elem_of_fmap. split.
  - intros (df & -> & [Hd Hin]%list_elem_of_filter). eauto.
  - intros (df & Hin & Hd & <-). exists df. split; [reflexivity |].
    apply list_elem_of_filter. auto.
Qed.

Lemma missing_files_nil (st : store) (doc : TradeDocument) :
  compute_missing_files st doc = []
  ↔ ∀ f, f ∈ default [] (REQUIRED_FIELDS !! doc_type doc) →
         ∃ df, df ∈ files st ∧ document df = id doc ∧ field_name df = f.
Proof.
  unfold compute_missing_files. rewrite filter_nil_iff.
  split; intros Hall f Hf; specialize (Hall f Hf).
  - apply existing_files_spec.
    destruct (decide (f ∈ existing_files st doc)); [assumption | contradiction].
  - intros Hnin. apply Hnin. now apply existing_files_spec.
Qed.

(** X11. A document is ready for approval exactly when it has metadata, every
    file its type requires is stored, and every other of the four types has
    a document of the same uploader that agrees with it on the match keys. *)
Theorem ready_iff (st : store) (doc : TradeDocument) :
  ready_for_approval (validation_of st doc) = true
  ↔ metadata doc ≠ ∅
    ∧ (∀ f, f ∈ default [] (REQUIRED_FIELDS !! doc_type doc) →
            ∃ df, df ∈ files st ∧ document df = id doc ∧ field_name df = f)
    ∧ (∀ dtype, dtype ∈ required_types → dtype ≠ doc_type doc →
         ∃ c, c ∈ documents st ∧ id c ≠ id doc ∧ uploader c = uploader doc
              ∧ doc_type c = dtype
              ∧ agrees (build_match_keys (metadata doc)) c).
Proof.
  destruct (decide (metadata doc = ∅)) as [Hemp|Hne].
  - unfold validation_of. rewrite decide_True by exact Hemp. simpl.
    split; [discriminate | tauto].
  - rewrite (validation_of_nonempty st doc Hne). cbn [ready_for_approval].
    rewrite andb_true_iff, !Nat.eqb_eq, !length_zero_iff_nil.
    rewrite missing_files_nil. unfold match_types.
    rewrite match_types_missing. cbn [snd app].
    assert (List.filter
              (λ d, negb (is_matched
                            (entry_for st doc (build_match_keys (metadata doc)) d)))
              required_types = []
            ↔ ∀ dtype, dtype ∈ required_types → dtype ≠ doc_type doc →
                ∃ c, c ∈ documents st ∧ id c ≠ id doc ∧ uploader c = uploader doc
                     ∧ doc_type c = dtype
                     ∧ agrees (build_match_keys (metadata doc)) c) as Hm.
    { split.
      - intros Hnil dtype Hin Hown.
        destruct (is_matched (entry_for st doc (build_match_keys (metadata doc)) dtype))
          eqn:He.
        + apply entry_matched_spec in He as [?|?]; [contradiction | assumption].
        + assert (In dtype (List.filter
                    (λ d, negb (is_matched
                       (entry_for st doc (build_match_keys (metadata doc)) d)))
                    required_types)) as Habs.
          { apply filter_In. split; [now apply list_elem_of_In | now rewrite He]. }
          rewrite Hnil in Habs. destruct Habs.
      - intros Hall.
        destruct (List.filter _ required_types) as [|d l] eqn:Hf; [reflexivity |].
        assert (In d (d :: l)) as Hd by now left. rewrite <- Hf in Hd.
        apply filter_In in Hd as [Hin Hneg]. apply negb_true_iff in Hneg.
        assert (is_matched (entry_for st doc (build_match_keys (metadata doc)) d)
                = true) as Habs; [|congruence].
        apply entry_matched_spec.
        destruct (decide (d = doc_type doc)); [now left | right].
        apply Hall; [now apply list_elem_of_In | assumption]. }
    rewrite Hm. tauto.
Qed.

Lemma find_first {A} (p : A → bool) (l : list A) (x : A) :
  List.find p l = Some x
  ↔ ∃ l1 l2, l = l1 ++ x :: l2 ∧ p x = true ∧ Forall (λ y, p y = false) l1.
Proof.
  induction l as [|a l IH]; simpl.
  - split; [discriminate |]. intros (l1 & l2 & Heq & _). now destruct l1.
  - destruct (p a) eqn:Ha.
    + split.
      * intros [= <-]. exists [], l. auto.
      * intros (l1 & l2 & Heq & Hx & Hall). destruct l1 as [|b l1].
        -- now injection Heq as ->.
        -- injection Heq as -> _. apply Forall_cons in Hall as [Hb _]. congruence.
    + rewrite IH. split.
      * intros (l1 & l2 & -> & Hx & Hall). exists (a :: l1), l2. auto.
      * intros (l1 & l2 & Heq & Hx & Hall). destruct l1 as [|b l1].
        -- injection Heq as ->. congruence.
        -- injection Heq as -> ->. apply Forall_cons in Hall as [_ Hall]. eauto.
Qed.

(** X12. For a type other than the source's, the document reported is the
    first one, in the order of the store, among the uploader's other
    documents of that type, that agrees with the source on the match keys. *)
Theorem first_candidate_wins (st : store) (doc : TradeDocument)
        (dtype : string) (j : Z) :
  dtype ∈ required_types → dtype ≠ doc_type doc →
  let mk := build_match_keys (metadata doc) in
  (match_types st doc mk).1 !! dtype = Some (Matched j)
  ↔ ∃ l1 c l2,
      candidates st doc dtype = l1 ++ c :: l2
      ∧ id c = j ∧ agrees mk c
      ∧ Forall (λ c', ¬ agrees mk c') l1.
Proof.
  intros Hin Hne mk. unfold match_types.
  rewrite match_types_lookup, decide_True by exact Hin.
  unfold entry_for. rewrite decide_False by congruence.
  destruct (List.find _ _) as [c|] eqn:Hfind.
  - apply find_first in Hfind as (l1 & l2 & Heq & Hc & Hall). split.
    + intros [= <-]. exists l1, c, l2.
      split; [exact Heq |]. split; [reflexivity |].
      split; [now apply candidate_matches_agrees |].
      eapply Forall_impl; [exact Hall |]. intros c' Hc' Hag.
      apply candidate_matches_agrees in Hag. congruence.
    + intros (l1' & c' & l2' & Heq' & <- & Hag & Hall').
      assert (List.find (candidate_matches mk) (candidates st doc dtype) = Some c')
        as Hf'.
      { apply find_first. exists l1', l2'.
        split; [exact Heq' |]. split; [now apply candidate_matches_agrees |].
        eapply Forall_impl; [exact Hall' |]. intros y Hy.
        destruct (candidate_matches mk y) eqn:Hm; [|reflexivity].
        exfalso. apply Hy. now apply candidate_matches_agrees. }
      assert (List.find (candidate_matches mk) (candidates st doc dtype) = Some c)
        as Hf by (apply find_first; eauto).
      congruence.
  - split; [discriminate |].
    intros (l1 & c & l2 & Heq & _ & Hag & _). exfalso.
    apply candidate_matches_agrees in Hag.
    rewrite (find_none _ _ Hfind c) in Hag; [discriminate |].
    rewrite Heq. apply in_or_app. right. now left.
Qed.

Lemma filter_sublist_of {A} (p : A → bool) (l : list A) :
  List.filter p l `sublist_of` l.
Proof.
  induction l as [|a l IH]; [constructor |]. cbn [List.filter].
  destruct (p a); [now apply sublist_skip | now apply sublist_cons].
Qed.

(** X13. For a document with metadata, every one of the four types is
    reported either among the types found or among the missing types, never
    both; the missing types keep the order invoice, packing list, waybill,
    delivery order, and the document's own type is never missing. *)
Theorem found_and_missing_partition (st : store) (doc : TradeDocument) :
  metadata doc ≠ ∅ →
  ∃ found missing,
    found_types (validation_of st doc) = Some found
    ∧ missing_types (validation_of st doc) = Some missing
    ∧ (∀ dtype, dtype ∈ required_types →
         (is_Some (found !! dtype) ↔ dtype ∉ missing))
    ∧ (∀ dtype, is_Some (found !! dtype) ∨ dtype ∈ missing →
                dtype ∈ required_types)
    ∧ missing `sublist_of` required_types
    ∧ doc_type doc ∉ missing.
Proof.
  intros Hne. rewrite (validation_of_nonempty st doc Hne).
  cbn [found_types missing_types]. eexists _, _.
  split; [reflexivity |]. split; [reflexivity |].
  set (mk := build_match_keys (metadata doc)).
  unfold match_types. rewrite match_types_missing. cbn [snd app].
  assert (∀ dtype, dtype ∈ List.filter
              (λ d, negb (is_matched (entry_for st doc mk d))) required_types
            ↔ dtype ∈ required_types
              ∧ is_matched (entry_for st doc mk dtype) = false) as Hmiss.
  { intros dtype. rewrite list_elem_of_In, filter_In, negb_true_iff.
    now rewrite <- list_elem_of_In. }
  assert (∀ dtype, is_Some (filter (λ kv : string * found_entry, is_matched kv.2)
                      (foldl (match_type st doc mk) (∅, []) required_types).1
                      !! dtype)
                   ↔ dtype ∈ required_types
                     ∧ is_matched (entry_for st doc mk dtype) = true) as Hfound.
  { intros dtype. unfold is_Some.
    setoid_rewrite map_lookup_filter_Some. setoid_rewrite match_types_lookup.
    cbn [snd fst]. destruct (decide (dtype ∈ required_types)) as [Hin|Hnin].
    - split.
      + intros (x & [= <-] & Hx). split; [exact Hin |]. now apply Is_true_eq_true.
      + intros [_ Hx]. eexists. split; [reflexivity |]. now apply Is_true_eq_left.
    - rewrite lookup_empty. split; [intros (x & ? & _); discriminate | tauto]. }
  split; [|split; [|split]].
  - intros dtype Hin. rewrite Hfound, Hmiss.
    destruct (is_matched (entry_for st doc mk dtype)); split;
      [ intros _ [_ ?]; discriminate
      | auto
      | intros [_ ?]; discriminate
      | intros H; exfalso; apply H; auto ].
  - intros dtype [[? _]%Hfound|[? _]%Hmiss]; assumption.
  - apply filter_sublist_of.
  - intros [_ Hf]%Hmiss. unfold entry_for in Hf.
    rewrite decide_True in Hf by reflexivity. discriminate.
Qed.

(** X14. A source in which none of the seven candidate fields has a non-blank
    value has no match keys: any other document of the uploader of a type
    makes that type matched, whatever its metadata. *)
Theorem no_match_keys_match_any (st : store) (doc : TradeDocument) (dtype : string) :
  (∀ k x, k ∈ possible_keys → metadata doc !! k = Some x → rendering x = "") →
  dtype ∈ required_types → dtype ≠ doc_type doc →
  build_match_keys (metadata doc) = []
  ∧ (is_matched <$> (match_types st doc (build_match_keys (metadata doc))).1 !! dtype
     = Some true
     ↔ ∃ c, c ∈ documents st ∧ id c ≠ id doc ∧ uploader c = uploader doc
            ∧ doc_type c = dtype).
Proof.
  intros Hblank Hin Hne.
  assert (build_match_keys (metadata doc) = []) as Hmk.
  { destruct (build_match_keys (metadata doc)) as [|[k v] l] eqn:Hl; [reflexivity |].
    assert ((k, v) ∈ build_match_keys (metadata doc)) as Hkv by (rewrite Hl; left).
    apply build_match_keys_spec in Hkv as (Hk & Hv & x & Hx & Hr).
    rewrite (Hblank k x Hk Hx) in Hr. congruence. }
  split; [exact Hmk |]. rewrite Hmk. unfold match_types.
  rewrite match_types_lookup, decide_True by exact Hin. cbn [fmap option_fmap option_map].
  split.
  - intros [= Hm]. apply entry_matched_spec in Hm as [?|(c & ? & ? & ? & ? & _)];
      [contradiction | eauto 6].
  - intros (c & ? & ? & ? & ?). f_equal. apply entry_matched_spec. right.
    exists c. repeat split; try assumption. intros k v Hkv. inversion Hkv.
Qed.

(** *** Validation does not depend on earlier results *)

Lemma filter_map_fixed {A} (P : A → Prop) `{∀ x, Decision (P x)}
      (g : A → A) (l : list A) :
  (∀ x, P (g x) ↔ P x) → (∀ x, P x → g x = x) →
  filter P (map g l) = filter P l.
Proof.
  intros Hiff Hfix. induction l as [|a l IH]; [reflexivity |].
  cbn [map]. rewrite !filter_cons.
  destruct (decide (P a)) as [Ha|Ha].
  - rewrite decide_True by (now apply Hiff). now rewrite IH, (Hfix a Ha).
  - rewrite decide_False by (now rewrite Hiff). exact IH.
Qed.

Lemma candidates_set_document (st : store) (doc doc' : TradeDocument)
      (f : TradeDocument → TradeDocument) (dtype : string) :
  id doc' = id doc → uploader doc' = uploader doc →
  (∀ d, id (f d) = id d ∧ uploader (f d) = uploader d ∧ doc_type (f d) = doc_type d) →
  candidates (set_document (id doc) f st) doc' dtype = candidates st doc dtype.
Proof.
  intros Hid Hup Hf. unfold candidates, set_document. cbn [documents].
  rewrite Hid, Hup. apply filter_map_fixed.
  - intros d. destruct (decide (id d = id doc)); [|reflexivity].
    destruct (Hf d) as (-> & -> & ->). reflexivity.
  - intros d (_ & _ & Hne). now rewrite decide_False.
Qed.

Lemma validation_of_congruence (st st' : store) (doc doc' : TradeDocument) :
  files st' = files st →
  id doc' = id doc → doc_type doc' = doc_type doc → metadata doc' = metadata doc →
  (∀ dtype, candidates st' doc' dtype = candidates st doc dtype) →
  validation_of st' doc' = validation_of st doc.
Proof.
  intros Hfiles Hid Hty Hmeta Hcand.
  assert (compute_missing_files st' doc' = compute_missing_files st doc) as Hmf.
  { unfold compute_missing_files, existing_files. now rewrite Hfiles, Hid, Hty. }
  assert (∀ mk acc dtype,
            match_type st' doc' mk acc dtype = match_type st doc mk acc dtype) as Hmt.
  { intros mk acc dtype. unfold match_type. now rewrite Hty, Hid, Hcand. }
  unfold validation_of. rewrite Hmf, Hmeta. destruct (decide _); [reflexivity |].
  unfold match_types.
  assert (∀ l acc, foldl (match_type st' doc' (build_match_keys (metadata doc))) acc l
                   = foldl (match_type st doc (build_match_keys (metadata doc))) acc l)
    as Hfold.
  { induction l as [|d l IH]; intros acc; [reflexivity |]. cbn [foldl].
    now rewrite Hmt, IH. }
  now rewrite Hfold.
Qed.

(* Storing the result on the document does not change what the validation
   gives. *)
Lemma validation_stable (st : store) (doc : TradeDocument) :
  let r := validation_of st doc in
  validation_of (set_document (id doc) (with_last_validation r) st)
                (with_last_validation r doc)
  = r.
Proof.
  intros r. apply validation_of_congruence; try reflexivity.
  intros dtype. apply candidates_set_document; try reflexivity.
  intros d. repeat split.
Qed.

(** ** The upload view and the validation engine *)

Lemma filter_all_true {A} (P : A → Prop) `{∀ x, Decision (P x)} (l : list A) :
  filter (λ x, ¬ P x) l = [] → filter P l = l.
Proof.
  induction l as [|a l IH]; [reflexivity |]. rewrite !filter_cons.
  destruct (decide (¬ P a)) as [Ha|Ha]; [discriminate |].
  intros Hl. rewrite decide_True by (destruct (decide (P a)); tauto).
  now rewrite IH.
Qed.

(** X15. When the files of a document are those the upload view stores for an
    accepted upload, the validation engine finds no file missing for an
    invoice, and for a packing list, a waybill or a delivery order it always
    finds its one required file missing, so that such a document is never
    ready for approval. *)
Theorem uploaded_documents_and_readiness (st : store) (doc : TradeDocument)
        (request_FILES : list string) :
  Views.missing_files (doc_type doc) request_FILES = [] →
  field_name <$> filter (λ f, document f = id doc) (files st)
  = Views.created_files (doc_type doc) request_FILES →
  (doc_type doc = "invoice" → compute_missing_files st doc = [])
  ∧ (doc_type doc ∈ ["packing_list"; "bol_awb"; "delivery_order"] →
     length (compute_missing_files st doc) = 1
     ∧ ready_for_approval (validation_of st doc) = false).
Proof.
  intros Hnone Hfiles.
  assert (Views.created_files (doc_type doc) request_FILES
          = default [] (Views.REQUIRED_FIELDS !! doc_type doc)) as Hall.
  { unfold Views.created_files, Views.missing_files in *.
    now apply filter_all_true. }
  rewrite Hall in Hfiles.
  assert (∀ n, length (compute_missing_files st doc) = S n →
               ready_for_approval (validation_of st doc) = false) as Hready.
  { intros n Hlen. unfold validation_of. destruct (decide _); [reflexivity |].
    destruct (match_types _ _ _) as [found missing]. cbn [ready_for_approval].
    now rewrite Hlen. }
  split.
  - intros Hty. unfold compute_missing_files, existing_files.
    rewrite Hfiles, Hty. vm_compute. exact eq_refl.
  - rewrite !elem_of_cons, elem_of_nil. intros [Hty|[Hty|[Hty|[]]]];
      (assert (length (compute_missing_files st doc) = 1) as Hlen;
       [unfold compute_missing_files, existing_files;
        rewrite Hfiles, Hty; vm_compute; exact eq_refl
       | split; [exact Hlen | exact (Hready 0 Hlen)]]).
Qed.

(** ** What a run changes in the store *)

Section Respects.
Context (R : store → store → Prop) `{!PreOrder R}.
Set Default Proof Using "All".

Lemma respects_ret {A} (a : A) : respects R (mret a : task A).
Proof. intros w. simpl. reflexivity. Qed.

Lemma respects_bind {A B} (c : task A) (k : A → task B) :
  respects R c → (∀ a, respects R (k a)) → respects R (c ≫= k).
Proof.
  intros Hc Hk w. rewrite bind_run. specialize (Hc w).
  destruct (c w) as [[a|exc] w1]; cbn [snd] in *; [|exact Hc].
  etransitivity; [exact Hc | apply Hk].
Qed.

Lemma respects_try_except {A} (c : task A) (h : string → task A) :
  respects R c → (∀ exc, respects R (h exc)) → respects R (try_except c h).
Proof.
  intros Hc Hh w. unfold try_except. specialize (Hc w).
  destruct (c w) as [[a|exc] w1]; cbn [snd] in *; [exact Hc |].
  etransitivity; [exact Hc | apply Hh].
Qed.

Lemma respects_attempt (e : env) (s : site) (upd : store → store) :
  closed_under R upd → respects R (attempt e s upd).
Proof.
  intros Hupd w. unfold attempt. destruct (fails e s); cbn [snd db];
    [reflexivity | apply Hupd].
Qed.

Lemma respects_log (ev : event) : respects R (log ev).
Proof. intros w. unfold log. cbn [snd db]. reflexivity. Qed.

Lemma respects_read_db : respects R read_db.
Proof. intros w. unfold read_db. cbn [snd]. reflexivity. Qed.

Lemma closed_under_id : closed_under R (λ st, st).
Proof. intros st. reflexivity. Qed.

Lemma respects_extract_text (e : env) : respects R (extract_text e).
Proof.
  unfold extract_text. destruct (wants_ocr _); [|apply respects_ret].
  apply respects_bind; [|intros ?; apply respects_ret].
  unfold ocr_pdf_images. apply respects_bind; [apply respects_log |]. intros _.
  apply respects_bind; [apply respects_attempt, closed_under_id |]. intros _.
  destruct (ocr_pages_raise e); [destruct (ocr_image e) |]; apply respects_ret.
Qed.

Hypothesis audit_ok : ∀ entry,
  closed_under R (λ st, {| documents := documents st; files := files st;
                           validation_results := validation_results st;
                           audit_log := audit_log st ++ [entry] |}).

Lemma respects_audit (e : env) (s : site) (entry : AuditLog) :
  respects R (audit e s entry).
Proof.
  unfold audit. apply respects_bind; [apply respects_log |]. intros _.
  unfold try_pass. apply respects_try_except;
    [apply respects_attempt, audit_ok | intros _; apply respects_ret].
Qed.

Hypothesis validation_ok : ∀ v,
  closed_under R (λ st, {| documents := documents st; files := files st;
                           validation_results := validation_results st ++ [v];
                           audit_log := audit_log st |}).
Hypothesis last_validation_ok : ∀ j r,
  closed_under R (set_document j (with_last_validation r)).

Lemma respects_run_validation (e : env) (document_id : Z) :
  respects R (run_validation_for_document e document_id).
Proof.
  unfold run_validation_for_document.
  apply respects_bind; [apply respects_attempt, closed_under_id |]. intros _.
  apply respects_bind; [apply respects_read_db |]. intros st.
  destruct (List.find _ _) as [doc|]; [|apply respects_ret].
  unfold persist_validation. apply respects_bind.
  { unfold try_pass. apply respects_try_except;
      [apply respects_attempt, validation_ok | intros _; apply respects_ret]. }
  intros _. apply respects_bind; [apply respects_attempt, last_validation_ok |].
  intros _. apply respects_bind; [apply respects_audit |]. intros _.
  apply respects_ret.
Qed.

Variable i : Z.
Hypothesis status_ok : ∀ v, closed_under R (set_file i (with_status v)).
Hypothesis text_ok : ∀ t v,
  closed_under R (set_file i (λ df, with_status v (with_text t df))).

Lemma respects_save_status (e : env) (s : site) (v : extraction_status) :
  respects R (save_status e s i v).
Proof.
  unfold save_status. apply respects_bind; [apply respects_attempt, status_ok |].
  intros _. apply respects_log.
Qed.

Lemma respects_save_extracted (e : env) (t : string) (v : extraction_status) :
  respects R (save_extracted e i t v).
Proof.
  unfold save_extracted. apply respects_bind; [apply respects_attempt, text_ok |].
  intros _. apply respects_log.
Qed.

Lemma respects_on_exception (e : env) (df : DocumentFile) (exc : string) :
  pk df = i → respects R (on_exception e df exc).
Proof.
  intros Hpk. unfold on_exception. rewrite Hpk.
  apply respects_bind; [apply respects_save_status |]. intros _.
  apply respects_bind; [apply respects_audit |]. intros _. apply respects_ret.
Qed.

Lemma respects_merge_into_document (e : env) (doc : TradeDocument)
      (parsed : gmap string string) :
  closed_under R (set_document (id doc)
                    (with_metadata (merge_parsed (metadata doc) parsed).1)) →
  respects R (merge_into_document e doc parsed).
Proof.
  intros Hmeta. unfold merge_into_document. destruct (decide _); [apply respects_ret |].
  destruct (merge_parsed _ _) as [meta [|]]; [|apply respects_ret].
  apply respects_bind; [apply respects_attempt, Hmeta |]. intros _.
  apply respects_audit.
Qed.

Lemma respects_task_body (e : env) (df : DocumentFile) (doc : TradeDocument) :
  pk df = i →
  (∀ parsed, closed_under R (set_document (id doc)
                    (with_metadata (merge_parsed (metadata doc) parsed).1))) →
  respects R (task_body e df doc).
Proof.
  intros Hpk Hmeta. unfold task_body. rewrite Hpk.
  apply respects_bind; [apply respects_extract_text |]. intros extracted.
  apply respects_bind; [apply respects_save_extracted |]. intros _.
  apply respects_bind; [apply respects_merge_into_document, Hmeta |]. intros _.
  apply respects_bind; [apply respects_run_validation |]. intros _.
  apply respects_ret.
Qed.

Lemma respects_task (e : env) (w : world) :
  (∀ df doc parsed, get_file (db w) i = Some (df, doc) →
     closed_under R (set_document (id doc)
                    (with_metadata (merge_parsed (metadata doc) parsed).1))) →
  R (db w) (db (extract_text_and_parse_task e i w).2).
Proof.
  intros Hmeta. rewrite task_run_prefix.
  destruct (fails e GetFile); cbn [snd]; [reflexivity |].
  destruct (get_file (db w) i) as [[df doc]|] eqn:Hget; cbn [snd db];
    [|reflexivity].
  destruct (get_file_pk _ _ _ _ Hget) as [Hpk _].
  destruct (fails e SaveRunning); cbn [snd db]; [reflexivity |].
  cbn zeta. destruct (fails e FilePath); cbn [snd db]; [rewrite Hpk; apply status_ok |].
  etransitivity; [apply (status_ok STATUS_RUNNING) |]. rewrite <- Hpk.
  match goal with
  | |- R ?st (db (try_except ?c ?h ?w1).2) =>
      exact (respects_try_except c h
               (respects_task_body e df doc Hpk (λ P, Hmeta df doc P eq_refl))
               (λ exc, respects_on_exception e df exc Hpk) w1)
  end.
Qed.

End Respects.

Set Default Proof Using "Type".

Lemma Forall2_map_self {A} (P : A → A → Prop) (f : A → A) (l : list A) :
  (∀ x, P x (f x)) → Forall2 P l (map f l).
Proof. intros H. induction l; simpl; constructor; auto. Qed.

#[local] Instance same_but_extraction_preorder (i : Z) :
  PreOrder (same_but_extraction i).
Proof.
  split.
  - intros r. repeat split; auto.
  - intros r1 r2 r3 (H1 & H2 & H3 & H4) (H5 & H6 & H7 & H8). repeat split; try congruence.
    intros Hne. rewrite H8, H4; auto. rewrite H4; auto.
Qed.

#[local] Instance only_row_changed_preorder (i : Z) : PreOrder (only_row_changed i).
Proof.
  unfold only_row_changed. split.
  - intros st. reflexivity.
  - intros st1 st2 st3 H1 H2. etransitivity; eauto.
Qed.

Lemma only_row_changed_set_file (i : Z) (f : DocumentFile → DocumentFile) :
  (∀ r, pk (f r) = pk r ∧ document (f r) = document r
        ∧ field_name (f r) = field_name r) →
  closed_under (only_row_changed i) (set_file i f).
Proof.
  intros Hf st. unfold only_row_changed, set_file. cbn [files].
  apply Forall2_map_self. intros r. destruct (decide (pk r = i)) as [Heq|Hne].
  - destruct (Hf r) as (H1 & H2 & H3). repeat split; auto. intros; congruence.
  - reflexivity.
Qed.

(** X16. A run of the task on file [i] adds and removes no file row, leaves
    every other row as it is, and on the row of [i] changes at most the
    extraction status and the extracted text. *)
Theorem run_changes_one_row (e : env) (i : Z) (w : world) :
  only_row_changed i (db w) (db (extract_text_and_parse_task e i w).2).
Proof.
  apply respects_task; try apply _.
  - intros entry st. unfold only_row_changed. reflexivity.
  - intros v st. unfold only_row_changed. reflexivity.
  - intros j r st. unfold only_row_changed. reflexivity.
  - intros v. apply only_row_changed_set_file. intros r. repeat split.
  - intros t v. apply only_row_changed_set_file. intros r. repeat split.
  - intros df doc parsed _ st. unfold only_row_changed. reflexivity.
Qed.


#[local] Instance append_only_preorder : PreOrder append_only.
Proof.
  split.
  - intros st. repeat split; reflexivity.
  - intros st1 st2 st3 (H1 & H2 & H3 & H4) (H5 & H6 & H7 & H8).
    repeat split; try (etransitivity; eassumption); congruence.
Qed.

Lemma map_map_self {A B} (g : A → B) (f : A → A) (l : list A) :
  (∀ x, g (f x) = g x) → g <$> map f l = g <$> l.
Proof.
  intros H. induction l as [|x l IH]; [reflexivity |].
  change (g (f x) :: (g <$> map f l) = g x :: (g <$> l)). now rewrite H, IH.
Qed.

Lemma append_only_set_file (i : Z) (f : DocumentFile → DocumentFile) :
  (∀ r, pk (f r) = pk r) → closed_under append_only (set_file i f).
Proof.
  intros Hf st. unfold append_only, set_file.
  cbn [files documents audit_log validation_results].
  repeat split; try reflexivity.
  apply map_map_self. intros r. destruct (decide _); auto.
Qed.

Lemma append_only_set_document (j : Z) (f : TradeDocument → TradeDocument) :
  (∀ d, id (f d) = id d) → closed_under append_only (set_document j f).
Proof.
  intros Hf st. unfold append_only, set_document.
  cbn [files documents audit_log validation_results].
  repeat split; try reflexivity.
  apply map_map_self. intros r. destruct (decide _); auto.
Qed.

(** X17. A run of the task adds and removes no file row and no document,
    and the audit log and the table of validation results only grow: what
    they held before the run is a prefix of what they hold after it. *)
Theorem run_appends_only (e : env) (i : Z) (w : world) :
  append_only (db w) (db (extract_text_and_parse_task e i w).2).
Proof.
  apply respects_task; try apply _.
  - intros entry st. unfold append_only.
    cbn [files documents audit_log validation_results].
    repeat split; try reflexivity. now apply prefix_app_r.
  - intros v st. unfold append_only.
    cbn [files documents audit_log validation_results].
    repeat split; try reflexivity. now apply prefix_app_r.
  - intros j r. now apply append_only_set_document.
  - intros v. now apply append_only_set_file.
  - intros t v. now apply append_only_set_file.
  - intros df doc parsed _. now apply append_only_set_document.
Qed.

#[local] Instance merged_from_preorder (owner : Z) (M0 : gmap string value) :
  PreOrder (merged_from owner M0).
Proof.
  split.
  - intros d. repeat split; auto.
  - intros d1 d2 d3 (H1 & H2 & H3 & H4) (H5 & H6 & H7 & H8).
    repeat split; try congruence.
    destruct H8 as [H8|[H8 [P HP]]].
    + destruct H4 as [H4|[H4 [P HP]]]; [left; congruence |].
      right. split; [assumption |]. exists P. congruence.
    + right. split; [congruence |]. now exists P.
Qed.

#[local] Instance documents_merged_preorder (owner : Z) (M0 : gmap string value) :
  PreOrder (documents_merged owner M0).
Proof.
  unfold documents_merged. split.
  - intros st. reflexivity.
  - intros st1 st2 st3 H1 H2. etransitivity; eauto.
Qed.

Lemma find_id_unique (docs : list TradeDocument) (j : Z) (doc d : TradeDocument) :
  NoDup (id <$> docs) →
  List.find (λ d, bool_decide (id d = j)) docs = Some doc →
  d ∈ docs → id d = j → d = doc.
Proof.
  intros Hnd Hfind Hin Hid. induction docs as [|x docs IH]; [inversion Hin |].
  simpl in Hfind. rewrite fmap_cons in Hnd. apply NoDup_cons in Hnd as [Hx Hnd].
  destruct (bool_decide (id x = j)) eqn:Hb.
  - injection Hfind as <-. apply bool_decide_eq_true in Hb.
    apply elem_of_cons in Hin as [->|Hin]; [reflexivity |].
    exfalso. apply Hx. apply list_elem_of_fmap. exists d. split; [congruence | assumption].
  - apply bool_decide_eq_false in Hb.
    apply elem_of_cons in Hin as [->|Hin]; [contradiction |]. now apply IH.
Qed.

Lemma get_file_document (st : store) (i : Z) (df : DocumentFile) (doc : TradeDocument) :
  get_file st i = Some (df, doc) →
  List.find (λ d, bool_decide (id d = id doc)) (documents st) = Some doc.
Proof.
  unfold get_file. intros H.
  destruct (List.find _ (files st)) as [r|]; [|discriminate].
  destruct (List.find _ (documents st)) as [d|] eqn:Hd; [|discriminate].
  injection H as -> ->.
  destruct (find_some _ _ Hd) as [_ Hid]. apply bool_decide_eq_true in Hid.
  now rewrite Hid.
Qed.

Lemma Forall2_impl_elem {A B} (P Q : A → B → Prop) (l : list A) (l' : list B) :
  Forall2 P l l' → (∀ x y, x ∈ l → P x y → Q x y) → Forall2 Q l l'.
Proof.
  induction 1 as [|x y l l' Hxy _ IH]; intros HQ; constructor.
  - apply HQ; [left | assumption].
  - apply IH. intros x' y' Hin. apply HQ. now right.
Qed.

(** X18. A run of the task on a file of document [doc] (document ids being
    unique) removes no metadata key and changes no non-blank metadata value
    of any document, and leaves the metadata of every other document as
    they are; no document changes its id, type or uploader. *)
Theorem run_keeps_metadata (e : env) (i : Z) (w : world)
        (df : DocumentFile) (doc : TradeDocument) :
  get_file (db w) i = Some (df, doc) →
  NoDup (id <$> documents (db w)) →
  Forall2 (keeps_metadata (id doc))
          (documents (db w))
          (documents (db (extract_text_and_parse_task e i w).2)).
Proof.
  intros Hget Hnd.
  assert (Hrel : documents_merged (id doc) (metadata doc) (db w)
                   (db (extract_text_and_parse_task e i w).2)).
  { apply respects_task; try apply _.
    - intros entry st. unfold documents_merged. reflexivity.
    - intros v st. unfold documents_merged. reflexivity.
    - intros j r st. unfold documents_merged, set_document. cbn [documents].
      apply Forall2_map_self. intros d. destruct (decide _); repeat split; auto.
    - intros v st. unfold documents_merged. reflexivity.
    - intros t v st. unfold documents_merged. reflexivity.
    - intros df' doc' parsed Hget' st. rewrite Hget in Hget'.
      injection Hget' as <- <-.
      unfold documents_merged, set_document. cbn [documents].
      apply Forall2_map_self. intros d. destruct (decide _) as [Hid|Hid];
        repeat split; auto.
      right. split; [assumption |]. now exists parsed. }
  pose proof (get_file_document _ _ _ _ Hget) as Hfind.
  unfold documents_merged in Hrel.
  apply (Forall2_impl_elem _ _ _ _ Hrel).
  intros d d' Hin (H1 & H2 & H3 & [H4|[H4 [parsed H5]]]).
  - repeat split; auto; rewrite H4; auto.
  - assert (d = doc) as -> by (eapply find_id_unique; eauto).
    repeat split; auto.
    + intros k Hk. apply elem_of_dom in Hk. apply elem_of_dom.
      rewrite H5, merge_parsed_lookup.
      destruct (parsed !! k); [|exact Hk]. destruct Hk as [old ->].
      destruct (falsy old && truthy (VStr s)); eauto.
    + intros k v Hk Hv. rewrite H5, merge_parsed_lookup, Hk.
      unfold falsy. rewrite Hv. now destruct (parsed !! k).
    + intros Hne. contradiction.
Qed.

(** ** Runs of the validation and of the task when the calls succeed *)









Lemma find_map_update_file (rows : list DocumentFile) (i : Z)
      (f : DocumentFile → DocumentFile) (df : DocumentFile) :
  (∀ r, pk (f r) = pk r) →
  List.find (λ r, bool_decide (pk r = i)) rows = Some df →
  List.find (λ r, bool_decide (pk r = i))
            (map (λ r, if decide (pk r = i) then f r else r) rows)
  = Some (f df).
Proof.
  intros Hf. induction rows as [|x rows IH]; [discriminate |].
  cbn [List.find map]. destruct (decide (pk x = i)) as [Hx|Hx].
  - rewrite (bool_decide_eq_true_2 _ Hx).
    rewrite bool_decide_eq_true_2 by (now rewrite Hf). now intros [= ->].
  - rewrite (bool_decide_eq_false_2 _ Hx). exact IH.
Qed.

Lemma get_file_row (st : store) (i : Z) (df : DocumentFile) (doc : TradeDocument) :
  get_file st i = Some (df, doc) →
  List.find (λ r, bool_decide (pk r = i)) (files st) = Some df.
Proof.
  unfold get_file. intros H.
  destruct (List.find _ (files st)) as [r|]; [|discriminate].
  destruct (List.find _ (documents st)) as [d|]; [|discriminate].
  now injection H as -> ->.
Qed.


(** ** The extracted text *)

Lemma strip_trimmed (s : string) : trimmed (chars (strip s)) = true.
Proof. unfold strip. rewrite chars_str_of. apply strip_chars_trimmed. Qed.

Lemma trimmed_strip (s : string) : trimmed (chars s) = true → strip s = s.
Proof.
  intros H. unfold strip. rewrite (trimmed_strip_chars _ H). apply str_of_chars.
Qed.

Lemma direct_text_trimmed (e : env) :
  trimmed (chars (extract_text_with_pymupdf e)) = true.
Proof.
  unfold extract_text_with_pymupdf. destruct (pdf_pages e);
    [apply strip_trimmed | reflexivity].
Qed.

Lemma ocr_text_trimmed (e : env) (w w' : world) (t : string) :
  ocr_pdf_images e w = (Returned t, w') → trimmed (chars t) = true.
Proof.
  unfold ocr_pdf_images, attempt, log. unfold mbind, task_bind, bind, ret.
  destruct (fails e TempDir); [discriminate |].
  destruct (ocr_pages_raise e); [destruct (ocr_image e) |];
    intros [= <- _]; first [apply strip_trimmed | reflexivity].
Qed.

(** X21. The text the extraction returns never begins or ends with
    white space; recognition is asked for exactly when the direct text has
    fewer than 30 characters; the text returned is never shorter than the
    direct text, and differs from it only when the direct text has fewer
    than 30 characters and the text returned is strictly longer. *)
Theorem extracted_text_shape (e : env) (w w' : world) (text : string) :
  extract_text e w = (Returned text, w') →
  let direct := extract_text_with_pymupdf e in
  trimmed (chars text) = true
  ∧ wants_ocr direct = (len direct <? 30)
  ∧ len direct ≤ len text
  ∧ (text ≠ direct → len direct < 30 ∧ len direct < len text).
Proof.
  intros Hrun direct.
  pose proof (direct_text_trimmed e) as Hd. fold direct in Hd.
  assert (Hw : wants_ocr direct = (len direct <? 30)).
  { unfold wants_ocr, nonempty. rewrite (trimmed_strip _ Hd).
    destruct (String.eqb_spec direct "") as [->|_]; [reflexivity |].
    reflexivity. }
  revert Hrun. unfold extract_text. fold direct. rewrite Hw.
  destruct (len direct <? 30) eqn:H30.
  - rewrite bind_run.
    destruct (ocr_pdf_images e w) as [[t|exc] w2] eqn:Hocr; [|discriminate].
    pose proof (ocr_text_trimmed _ _ _ _ Hocr) as Ht.
    intros [= <- _]. unfold choose_text. rewrite (trimmed_strip _ Ht).
    apply Nat.ltb_lt in H30.
    destruct (nonempty t && (len direct <? len t)) eqn:Hc.
    + apply andb_true_iff in Hc as [_ Hlt]. apply Nat.ltb_lt in Hlt.
      repeat split; auto; lia.
    + repeat split; auto; congruence.
  - intros [= <- _]. repeat split; auto; congruence.
Qed.

(** ** What the returned payload tells *)

Lemma task_body_returns (e : env) (df : DocumentFile) (doc : TradeDocument)
      (w w' : world) (p : payload) :
  task_body e df doc w = (Returned p, w') →
  ∃ text,
    p = done (pk df) (parse_text_for_metadata text)
    ∧ files (db w')
      = files (set_file (pk df)
                 (λ r, with_status STATUS_DONE (with_text (truncated text) r))
                 (db w)).
Proof.
  intros Hrun. unfold task_body in Hrun. rewrite bind_run in Hrun.
  destruct (quiet_extract_text e w) as (Hf1 & _).
  destruct (extract_text e w) as [[text|exc] wa]; [|discriminate].
  cbn [snd] in Hf1. exists text.
  rewrite bind_run in Hrun. unfold save_extracted in Hrun at 1.
  rewrite bind_run in Hrun. unfold attempt in Hrun at 1.
  destruct (fails e SaveExtracted) as [exc|]; [discriminate |].
  unfold log in Hrun at 1. cbv beta iota in Hrun. cbn [db events] in Hrun.
  rewrite bind_run in Hrun.
  destruct (quiet_merge_into_document e doc (parse_text_for_metadata text)
              (World (set_file (pk df)
                        (λ r, with_status STATUS_DONE (with_text (truncated text) r))
                        (db wa))
                     (events wa ++ [status_saved (pk df) STATUS_DONE])))
    as (Hf2 & _).
  destruct (merge_into_document e doc _ _) as [[[]|exc] wb]; [|discriminate].
  cbn [snd db] in Hf2. rewrite bind_run in Hrun.
  destruct (quiet_run_validation_for_document e (id doc) wb) as (Hf3 & _).
  destruct (run_validation_for_document e (id doc) wb) as [[r|exc] wc];
    [|discriminate].
  cbn [snd] in Hf3. injection Hrun as <- <-. split; [reflexivity |].
  rewrite Hf3, Hf2. unfold set_file. cbn [files]. now rewrite Hf1.
Qed.

Lemma on_exception_returns (e : env) (df : DocumentFile) (exc : string)
      (w w' : world) (p : payload) :
  on_exception e df exc w = (Returned p, w') →
  p = failed exc
  ∧ files (db w') = files (set_file (pk df) (with_status STATUS_FAILED) (db w)).
Proof.
  intros Hrun. unfold on_exception, save_status in Hrun.
  rewrite !bind_run in Hrun. unfold attempt in Hrun at 1.
  destruct (fails e SaveFailed) as [x|] eqn:HF; [discriminate |].
  destruct (on_exception_run e df exc w HF) as (w3 & Hrun3 & Hfiles & _).
  unfold on_exception, save_status in Hrun3. rewrite !bind_run in Hrun3.
  unfold attempt in Hrun3 at 1. rewrite HF in Hrun3.
  rewrite Hrun3 in Hrun. injection Hrun as <- <-. auto.
Qed.

(** X22. The payload a run returns tells what the store holds:
    [not_found] is returned only when there is no such file, and then the
    run has changed nothing; [done] only when the row of the file holds
    status [done] and the extracted text, cut to 100000 characters, from
    which the returned fields were parsed; [failed] only when the row holds
    status [failed]. *)
Theorem payload_reports_stored_status (e : env) (i : Z) (w : world) (p : payload) :
  (extract_text_and_parse_task e i w).1 = Returned p →
  let w' := (extract_text_and_parse_task e i w).2 in
  match p with
  | not_found j => j = i ∧ get_file (db w) i = None ∧ w' = w
  | done j parsed =>
      j = i
      ∧ ∃ text row,
          parsed = parse_text_for_metadata text
          ∧ List.find (λ r, bool_decide (pk r = i)) (files (db w')) = Some row
          ∧ extraction_status_of row = STATUS_DONE
          ∧ extracted_text row = Some (truncated text)
  | failed exc =>
      ∃ row,
        List.find (λ r, bool_decide (pk r = i)) (files (db w')) = Some row
        ∧ extraction_status_of row = STATUS_FAILED
  end.
Proof.
  intros Hret w'. subst w'. revert Hret. rewrite task_run_prefix.
  destruct (fails e GetFile); [discriminate |].
  destruct (get_file (db w) i) as [[df doc]|] eqn:Hget.
  2:{ intros [= <-]. cbn [snd]. repeat split. now destruct w. }
  destruct (get_file_pk _ _ _ _ Hget) as [Hpk _].
  pose proof (get_file_row _ _ _ _ Hget) as Hrow.
  destruct (fails e SaveRunning); [discriminate |]. cbv zeta.
  destruct (fails e FilePath); [discriminate |].
  set (w1 := World _ _).
  assert (Hrow1 : List.find (λ r, bool_decide (pk r = i)) (files (db w1))
                  = Some (with_status STATUS_RUNNING df)).
  { subst w1. cbn [db]. rewrite Hpk. unfold set_file. cbn [files].
    now apply find_map_update_file. }
  unfold try_except.
  destruct (task_body e df doc w1) as [[q|exc] w2] eqn:Hbody.
  - destruct (task_body_returns _ _ _ _ _ _ Hbody) as (text & -> & Hfiles).
    intros [= <-]. cbn [snd]. split; [exact Hpk |].
    exists text. eexists. split; [reflexivity |]. rewrite Hfiles, Hpk.
    unfold set_file. cbn [files]. split; [|split].
    + apply find_map_update_file; [now intros r | exact Hrow1].
    + reflexivity.
    + reflexivity.
  - destruct (on_exception e df exc w2) as [[q|exc'] w3] eqn:Hexc; [|discriminate].
    destruct (on_exception_returns _ _ _ _ _ _ Hexc) as (-> & Hfiles).
    intros [= <-]. cbn [snd].
    destruct (task_body_run e df doc w1) as (new & Hnew & Hcases).
    rewrite Hbody in Hcases. cbn [fst snd] in Hcases.
    assert (∃ row, List.find (λ r, bool_decide (pk r = i)) (files (db w2)) = Some row)
      as [row Hrow2].
    { destruct Hcases as [(Hs & Hf & Hx)|(Hs & t & Hf)]; rewrite Hf.
      - eauto.
      - rewrite Hpk. unfold set_file. cbn [files]. eexists.
        apply find_map_update_file; [now intros r | exact Hrow1]. }
    eexists. rewrite Hfiles, Hpk. unfold set_file. cbn [files]. split.
    + apply find_map_update_file; [now intros r | exact Hrow2].
    + reflexivity.
Qed.

(** ** The review views *)

Section ReviewProperties.
Import Review.

Lemma decided_spec (action : value) (a s : string) :
  decided action = Some (a, s) ↔
  action = VStr a
  ∧ ((a = "approve" ∧ s = STATUS_APPROVED) ∨ (a = "reject" ∧ s = STATUS_REJECTED)).
Proof.
  unfold decided. destruct action as [| | |x]; try (split; [discriminate | intros [[=] _]]).
  destruct (String.eqb_spec x "approve") as [->|Hna].
  { split; [intros [= <- <-]; auto |].
    intros ([= <-] & [[_ ->]|[[=] _]]). reflexivity. }
  destruct (String.eqb_spec x "reject") as [->|Hnr].
  { split; [intros [= <- <-]; auto |].
    intros ([= <-] & [[[=] _]|[_ ->]]). reflexivity. }
  split; [discriminate |]. intros ([= <-] & [[-> _]|[-> _]]); congruence.
Qed.

Lemma refusal_none (u : User) (doc : document_row) :
  refusal u doc = None ↔
  is_admin u = true
  ∨ (is_reviewer u = true
     ∧ (assigned_reviewer doc = None
        ∨ assigned_reviewer doc = Some (user_pk u))).
Proof.
  unfold refusal, assigned_to_other.
  destruct (is_admin u); cbn [negb]; [split; auto |].
  destruct (is_reviewer u); cbn [negb].
  2:{ split; [discriminate |]. intros [[=]|[[=] _]]. }
  destruct (assigned_reviewer doc) as [r|]; [|split; auto].
  destruct (Z.eqb_spec r (user_pk u)) as [->|Hne]; cbn [negb].
  - split; auto.
  - split; [discriminate |]. intros [[=]|[_ [[=]|[= H]]]]. contradiction.
Qed.

Lemma refusal_code (u : User) (doc : document_row) (r : response) :
  refusal u doc = Some r → ∃ detail, r = Response 403 detail.
Proof.
  unfold refusal. destruct (negb (is_admin u)); [|discriminate].
  destruct (negb (is_reviewer u)); [intros [= <-]; eauto |].
  destruct (assigned_to_other doc u); [intros [= <-]; eauto | discriminate].
Qed.

(** X23. [ApproveRejectView.post] answers 200 exactly when the
    document exists, the user is an administrator, or a reviewer and the
    document is assigned to nobody or to them, and the action is "approve"
    or "reject"; with any other answer nothing is written. *)
Theorem decision_needs_reviewer (u : User) (action comment : value) (pk : Z)
        (st : review_store) :
  let out := post u action comment pk st in
  ((∃ detail, out.1 = Response 200 detail) ↔
   ∃ doc,
     List.find (λ d, bool_decide (id (base d) = pk)) (rows st) = Some doc
     ∧ (is_admin u = true
        ∨ (is_reviewer u = true
           ∧ (assigned_reviewer doc = None
              ∨ assigned_reviewer doc = Some (user_pk u))))
     ∧ (action = VStr "approve" ∨ action = VStr "reject"))
  ∧ ((∀ detail, out.1 ≠ Response 200 detail) → out.2 = st).
Proof.
  cbv zeta. unfold post.
  destruct (List.find _ (rows st)) as [doc|].
  2:{ split; [|reflexivity]. split; [intros [? [=]] | intros (? & [=] & _)]. }
  pose proof (refusal_none u doc) as Href.
  destruct (refusal u doc) as [r|] eqn:Hr.
  { destruct (refusal_code _ _ _ Hr) as [detail ->]. split; [|reflexivity].
    split; [intros [? [=]] |]. intros (doc' & [= <-] & Hp & _).
    apply Href in Hp. discriminate. }
  pose proof (decided_spec action) as Hdec.
  destruct (decided action) as [[a s]|].
  - split.
    + split; [|eauto]. intros _. exists doc. split; [reflexivity |].
      split; [now apply Href |].
      destruct (proj1 (Hdec a s) eq_refl) as (-> & [[-> _]|[-> _]]); auto.
    + intros H. exfalso. eapply H. reflexivity.
  - split; [|reflexivity]. split; [intros [? [=]] |].
    intros (doc' & _ & _ & [-> | ->]).
    + specialize (Hdec "approve" STATUS_APPROVED). destruct Hdec as [_ Hdec].
      discriminate Hdec; auto.
    + specialize (Hdec "reject" STATUS_REJECTED). destruct Hdec as [_ Hdec].
      discriminate Hdec; auto.
Qed.

Lemma find_map_replace (l : list document_row) (pk : Z) (doc new : document_row) :
  id (base new) = id (base doc) →
  List.find (λ d, bool_decide (id (base d) = pk)) l = Some doc →
  List.find (λ d, bool_decide (id (base d) = pk))
            (map (λ d, if decide (id (base d) = pk) then new else d) l)
  = Some new.
Proof.
  intros Hid. induction l as [|x l IH]; [discriminate |].
  cbn [List.find map]. destruct (decide (id (base x) = pk)) as [Hx|Hx].
  - rewrite (bool_decide_eq_true_2 _ Hx). intros [= <-].
    now rewrite bool_decide_eq_true_2 by congruence.
  - rewrite (bool_decide_eq_false_2 _ Hx). exact IH.
Qed.

(** X24. An administrator or a reviewer may approve or reject
    every document their statistics count: the answer is 200 and the
    document holds the decided status.  The decided document is still
    counted for that user only if the user is an administrator or the
    document is assigned to them: a reviewer who decides on a document
    assigned to nobody no longer has it in their list. *)
Theorem listed_documents_can_be_decided (u : User) (action comment : value)
        (pk : Z) (st : review_store) (doc : document_row) (a s : string) :
  is_admin u = true ∨ is_reviewer u = true →
  List.find (λ d, bool_decide (id (base d) = pk)) (rows st) = Some doc →
  in_queryset u doc = true →
  decided action = Some (a, s) →
  let out := post u action comment pk st in
  let doc' := with_doc_status s doc in
  (∃ detail, out.1 = Response 200 detail)
  ∧ List.find (λ d, bool_decide (id (base d) = pk)) (rows out.2) = Some doc'
  ∧ in_queryset u doc'
    = is_admin u || bool_decide (assigned_reviewer doc = Some (user_pk u)).
Proof.
  intros Hrole Hfind Hin Hdec out doc'. subst out doc'.
  assert (Href : refusal u doc = None).
  { apply refusal_none. destruct Hrole as [Ha|Hr]; [now left |].
    destruct (is_admin u) eqn:Ha; [now left |]. right. split; [exact Hr |].
    unfold in_queryset in Hin. rewrite Ha, Hr in Hin. cbn [negb] in Hin.
    apply orb_true_iff in Hin as [Hin|Hin].
    - right. now apply bool_decide_eq_true in Hin.
    - apply andb_true_iff in Hin as [_ Hin]. left.
      now apply bool_decide_eq_true in Hin. }
  unfold post. rewrite Hfind, Href, Hdec. cbn [fst snd rows].
  split; [eauto |]. split.
  - now apply (find_map_replace _ _ doc).
  - unfold in_queryset. cbn [with_doc_status status assigned_reviewer base].
    destruct (is_admin u) eqn:Ha; cbn [negb orb]; [reflexivity |].
    destruct Hrole as [[=]|Hr]. rewrite Hr.
    apply decided_spec in Hdec as (_ & [[_ ->]|[_ ->]]); cbn;
      now rewrite orb_false_r.
Qed.

Lemma count_cons (p : document_row → bool) (d : document_row)
      (l : list document_row) :
  length (List.filter p (d :: l))
  = ((if p d then 1 else 0) + length (List.filter p l))%nat.
Proof. cbn [List.filter]. now destruct (p d). Qed.

(** X25. The statistics list the four statuses in the order of
    [STATUS_CHOICES]; their counts never exceed the total, and add up to it
    when every counted document holds one of the four statuses. *)
Theorem stats_add_up (u : User) (st : review_store) :
  let total := (stats u st).1 in
  let by_status := (stats u st).2 in
  by_status.*1 = STATUS_CHOICES
  ∧ (sum_list by_status.*2 ≤ total)%nat
  ∧ (Forall (λ d, status d ∈ STATUS_CHOICES) (queryset u st) →
     sum_list by_status.*2 = total).
Proof.
  cbv zeta. unfold stats. cbn [fst snd]. split; [reflexivity |].
  cbn [map STATUS_CHOICES fmap list_fmap snd sum_list sum_list_with].
  unfold Datatypes.id.
  induction (queryset u st) as [|d qs [IH1 IH2]].
  - split; [cbn; lia | intros _; reflexivity].
  - rewrite !count_cons. cbn [length].
    unfold STATUS_UPLOADED, STATUS_PENDING, STATUS_APPROVED, STATUS_REJECTED in *.
    split.
    + destruct (String.eqb_spec (status d) "uploaded") as [H1|H1];
        destruct (String.eqb_spec (status d) "pending") as [H2|H2];
        destruct (String.eqb_spec (status d) "approved") as [H3|H3];
        destruct (String.eqb_spec (status d) "rejected") as [H4|H4];
        try congruence; lia.
    + intros Hall. apply Forall_cons in Hall as [Hd Hall]. specialize (IH2 Hall).
      unfold STATUS_CHOICES, STATUS_UPLOADED, STATUS_PENDING, STATUS_APPROVED,
        STATUS_REJECTED in Hd.
      rewrite !elem_of_cons, elem_of_nil in Hd.
      destruct Hd as [Hd|[Hd|[Hd|[Hd|[]]]]]; rewrite Hd; cbn; lia.
Qed.

End ReviewProperties.

(** ** The text snippet of a file *)

Lemma replace_newlines_free (l : list ascii) :
  "010"%char ∉ replace_newlines l.
Proof.
  unfold replace_newlines. intros Hin. apply list_elem_of_fmap in Hin as (c & Hc & _).
  destruct (Ascii.eqb_spec c "010") as [Heq|Hne]; [discriminate | congruence].
Qed.

(** X26. The snippet of a file, for a length [n], has at most [n + 3]
    characters and no line feed; when the trimmed text has at most [n]
    characters the snippet is that text with every line feed replaced by a
    space. *)
Theorem snippet_shape (df : DocumentFile) (n : nat) :
  let s := get_text_snippet df n in
  len s ≤ n + 3
  ∧ ("010"%char ∉ chars s)
  ∧ (∀ t, extracted_text df = Some t → len (strip t) ≤ n →
          chars s = replace_newlines (chars (strip t))).
Proof.
  cbv zeta. unfold get_text_snippet.
  destruct (extracted_text df) as [t|].
  2:{ repeat split; [cbn; lia | cbn; apply not_elem_of_nil | discriminate]. }
  unfold nonempty. destruct (String.eqb_spec t "") as [->|Hne]; cbn [negb].
  { repeat split; [cbn; lia | cbn; apply not_elem_of_nil |].
    intros t' [= <-] _. reflexivity. }
  set (txt := replace_newlines (chars (strip t))).
  assert (Hlen : length txt = len (strip t)).
  { subst txt. unfold replace_newlines. now rewrite length_map, len_chars. }
  rewrite len_str_of, chars_str_of, length_app, length_take.
  split; [|split].
  - destruct (n <? length txt); cbn [length chars]; cbn; lia.
  - intros Hin. apply elem_of_app in Hin as [Hin|Hin].
    + apply elem_of_take in Hin as (j & Hj & _).
      apply (replace_newlines_free (chars (strip t))).
      eapply list_elem_of_lookup_2. exact Hj.
    + destruct (n <? length txt); [|now apply not_elem_of_nil in Hin].
      cbn in Hin. rewrite !elem_of_cons, elem_of_nil in Hin.
      destruct Hin as [H|[H|[H|[]]]]; discriminate.
  - intros t' [= <-] Hshort. rewrite <- Hlen in Hshort.
    destruct (Nat.ltb_spec n (length txt)); [lia |].
    now rewrite take_ge, app_nil_r by lia.
Qed.

(** ** Instances on the sample data *)

Lemma hs_code_is_digits_witness :
  forallb is_digit (chars "8501") = true ∧ 4 ≤ len "8501" ≤ 10.
Proof.
  apply (hs_code_is_digits invoice_text "8501"). vm_compute. exact eq_refl.
Defined.

Lemma value_is_numeric_witness :
  "1234567" ≠ "" ∧ forallb is_numeric (chars "1234567") = true.
Proof.
  apply (value_is_numeric shipment_text "1234567"). vm_compute. exact eq_refl.
Defined.

Lemma currency_is_known_code_witness : "USD" ∈ currency_codes.
Proof.
  apply (currency_is_known_code invoice_text "USD"). vm_compute. exact eq_refl.
Defined.

Lemma container_number_shape_witness :
  container_shape (chars "MSKU1234567") = true.
Proof.
  apply (container_number_shape shipment_text "MSKU1234567").
  vm_compute. exact eq_refl.
Defined.

Lemma labelled_fields_are_trimmed_witness :
  trimmed (chars "ABC Trading LLC") = true.
Proof.
  apply (labelled_fields_are_trimmed invoice_text "consignee" "ABC Trading LLC").
  - repeat constructor.
  - vm_compute. exact eq_refl.
Defined.

Lemma first_candidate_wins_witness :
  ∃ l1 c l2,
    candidates pair_store invoice_doc "delivery_order" = l1 ++ c :: l2
    ∧ id c = 11%Z
    ∧ agrees (build_match_keys (metadata invoice_doc)) c
    ∧ Forall (λ c', ¬ agrees (build_match_keys (metadata invoice_doc)) c') l1.
Proof.
  apply (first_candidate_wins pair_store invoice_doc "delivery_order" 11).
  - repeat constructor.
  - simpl. discriminate.
  - vm_compute. exact eq_refl.
Defined.

Lemma found_and_missing_partition_witness :
  ∃ found missing,
    found_types (validation_of pair_store invoice_doc) = Some found
    ∧ missing_types (validation_of pair_store invoice_doc) = Some missing
    ∧ missing `sublist_of` required_types
    ∧ doc_type invoice_doc ∉ missing.
Proof.
  destruct (found_and_missing_partition pair_store invoice_doc)
    as (found & missing & Hf & Hm & _ & _ & Hsub & Hown).
  - apply (nonempty_by_lookup _ "value" (VInt 1250)). vm_compute. exact eq_refl.
  - exists found, missing. auto.
Defined.

Lemma no_match_keys_match_any_witness :
  build_match_keys (metadata Samples.blank_invoice) = []
  ∧ is_matched <$> (match_types Samples.blank_store Samples.blank_invoice
                      (build_match_keys (metadata Samples.blank_invoice))).1
                   !! "delivery_order"
    = Some true.
Proof.
  destruct (no_match_keys_match_any Samples.blank_store Samples.blank_invoice
              "delivery_order") as [Hmk Hiff].
  - intros k x Hk. unfold possible_keys in Hk.
    rewrite !elem_of_cons, elem_of_nil in Hk.
    destruct Hk as [->|[->|[->|[->|[->|[->|[->|[]]]]]]]]; vm_compute;
      intros [= <-]; reflexivity.
  - repeat constructor.
  - simpl. discriminate.
  - split; [exact Hmk |]. apply Hiff. exists Samples.other_delivery.
    split; [repeat constructor |]. repeat split. simpl. discriminate.
Defined.

Lemma uploaded_documents_and_readiness_witness :
  length (compute_missing_files packing_store packing_doc) = 1
  ∧ ready_for_approval (validation_of packing_store packing_doc) = false.
Proof.
  destruct (uploaded_documents_and_readiness packing_store packing_doc packing_parts)
    as [_ H].
  - vm_compute. exact eq_refl.
  - vm_compute. exact eq_refl.
  - apply H. repeat constructor.
Defined.

Lemma run_keeps_metadata_witness :
  Forall2 (keeps_metadata 10)
    (documents (db file_world))
    (documents (db (extract_text_and_parse_task (text_env quiet) 5 file_world).2)).
Proof.
  apply (run_keeps_metadata (text_env quiet) 5 file_world invoice_file invoice_doc).
  - vm_compute. exact eq_refl.
  - apply (bool_decide_unpack _). vm_compute. exact I.
Defined.



Lemma extracted_text_shape_witness :
  trimmed (chars "Invoice 42") = true
  ∧ wants_ocr (extract_text_with_pymupdf scanned_env)
    = (len (extract_text_with_pymupdf scanned_env) <? 30).
Proof.
  destruct (extracted_text_shape scanned_env pair_world
              (World pair_store [ocr_called]) "Invoice 42")
    as (Htrim & Hocr & _).
  - vm_compute. exact eq_refl.
  - split; [exact Htrim | exact Hocr].
Defined.

Lemma payload_reports_stored_status_witness :
  ∃ row,
    List.find (λ r, bool_decide (pk r = 5%Z))
      (files (db (extract_text_and_parse_task (text_env text_save_fails) 5
                    file_world).2))
    = Some row
    ∧ extraction_status_of row = STATUS_FAILED.
Proof.
  apply (payload_reports_stored_status (text_env text_save_fails) 5 file_world
           (failed "database is locked")).
  vm_compute. exact eq_refl.
Defined.

Section ReviewInstances.
Import Review Samples.

Lemma listed_documents_can_be_decided_witness :
  (∃ detail, (post reviewer (VStr "approve") (VStr "") 20 review_sample).1
             = Response 200 detail)
  ∧ in_queryset reviewer (with_doc_status STATUS_APPROVED pending_row) = false.
Proof.
  destruct (listed_documents_can_be_decided reviewer (VStr "approve") (VStr "") 20
              review_sample pending_row "approve" STATUS_APPROVED)
    as (Hok & _ & Hin).
  - right. reflexivity.
  - vm_compute. exact eq_refl.
  - reflexivity.
  - reflexivity.
  - split; [exact Hok | exact Hin].
Defined.

End ReviewInstances.

(** ** The choice between the direct and the recognised text *)

(** C6. Recognition is called exactly when the direct text is empty or has
    fewer than 30 characters once trimmed.  When it is called and returns,
    the longer of the two texts is the result: the direct text when the
    recognised text is not longer than it, the recognised text when it is
    strictly longer.  When it is not called the result is the direct text. *)
Theorem ocr_fallback_selection (e : env) (w : world) :
  let direct := extract_text_with_pymupdf e in
  events (extract_text e w).2
  = events w ++ (if decide (direct = "" ∨ len (strip direct) < 30)
                 then [ocr_called] else [])
  ∧ (∀ ocr_text w',
       direct = "" ∨ len (strip direct) < 30 →
       ocr_pdf_images e w = (Returned ocr_text, w') →
       len ocr_text ≤ len direct →
       extract_text e w = (Returned direct, w'))
  ∧ (∀ ocr_text w',
       direct = "" ∨ len (strip direct) < 30 →
       ocr_pdf_images e w = (Returned ocr_text, w') →
       len direct < len ocr_text →
       extract_text e w = (Returned ocr_text, w'))
  ∧ (¬ (direct = "" ∨ len (strip direct) < 30) →
     extract_text e w = (Returned direct, w)).
Proof.
  intros direct. unfold extract_text. fold direct.
  pose proof (wants_ocr_spec direct) as Hw.
  destruct (wants_ocr direct) eqn:Hwants.
  - split; [|split; [|split]].
    + rewrite decide_True by (now apply Hw).
      pose proof (ocr_pdf_images_events e w) as Hev.
      unfold mbind, task_bind, bind.
      destruct (ocr_pdf_images e w) as [[t|exc] w1]; exact Hev.
    + intros ocr_text w' _ Hocr Hle.
      unfold mbind, task_bind, bind. rewrite Hocr. unfold mret, task_ret, ret.
      now rewrite choose_text_keeps.
    + intros ocr_text w' _ Hocr Hlt.
      pose proof (ocr_text_trimmed _ _ _ _ Hocr) as Htrim.
      unfold mbind, task_bind, bind. rewrite Hocr. unfold mret, task_ret, ret.
      unfold choose_text, nonempty. rewrite (trimmed_strip _ Htrim).
      destruct (String.eqb_spec ocr_text "") as [->|_]; [cbn in Hlt; lia |].
      apply Nat.ltb_lt in Hlt. now rewrite Hlt.
    + intros Hno. exfalso. apply Hno. now apply Hw.
  - split; [|split; [|split]].
    + rewrite decide_False; [simpl; now rewrite app_nil_r |].
      intros H. apply Hw in H. discriminate.
    + intros ocr_text w' H. apply Hw in H. discriminate.
    + intros ocr_text w' H. apply Hw in H. discriminate.
    + intros _. reflexivity.
Qed.

Lemma ocr_fallback_selection_witness :
  extract_text scanned_env pair_world
  = (Returned "Invoice 42", World pair_store [ocr_called]).
Proof.
  apply (proj1 (proj2 (ocr_fallback_selection scanned_env pair_world)) "Inv").
  - right. apply Nat.ltb_lt. vm_compute. exact eq_refl.
  - vm_compute. exact eq_refl.
  - apply Nat.leb_le. vm_compute. exact eq_refl.
Defined.

(** ** The status writes of a run, and what makes [done] become [failed] *)









